(** * neox/training.py: a shallow embedding of the pretraining driver

    The development follows the layout of [src/neox/training.py]:
    the batch producer ([_get_batch], [get_batch], [get_batch_pipe]),
    the forward step, the optimizer and scheduler builders, the training
    step with its two execution modes, the training loop and the evaluator.
    The set-up phase ([get_model], [setup_model_and_optimizer]) and the
    driver [pretrain] follow in a part of their own.

    Python objects that the module only consumes (the DeepSpeed engine, the
    model-parallel utilities, timers, the checkpoint manager, the evaluation
    harness) are not part of the file; they enter as an interface
    ([Externals]) over an abstract heap, and every call on them is recorded
    in a trace. *)

From Stdlib Require Import ZArith List String Ascii Bool Lia Floats.
From Stdlib.Floats Require Import SpecFloat.
From stdpp Require Import base option list strings gmap.

Set Warnings "-register-all,-inexact-float".

Open Scope string_scope.
Open Scope Z_scope.

(** ** Python values, exceptions and outcomes *)

Module Py.

(** The exceptions that the module raises itself or lets through. *)
Inductive exn : Type :=
| TypeError (msg : string)
| KeyError (key : string)
| ValueError (msg : string)
| ZeroDivisionError
| OverflowError (msg : string)
| AttributeError (msg : string)
| StopIteration
| SystemExit
| BareException                 (* [raise Exception] *)
| ExternalError (who : string). (* raised inside a collaborator *)

(** What running a piece of code gives: a value, an exception, or (for
    the model only) an exhausted step budget of a [while] loop. *)
Inductive outcome (A : Type) : Type :=
| Ok (a : A)
| Raise (e : exn)
| OutOfFuel.
Arguments Ok {A} a.
Arguments Raise {A} e.
Arguments OutOfFuel {A}.

(** Configuration values (what a YAML/JSON config can hold). *)
Inductive value : Type :=
| VNone
| VBool (b : bool)
| VInt (z : Z)
| VFloat (f : float)
| VStr (s : string)
| VList (l : list value)
| VDict (d : gmap string value).

(** [v[key]] for a string key. *)
Definition subscript (v : value) (key : string) : outcome value :=
  match v with
  | VDict d =>
      match d !! key with
      | Some x => Ok x
      | None => Raise (KeyError key)
      end
  | VStr _ => Raise (TypeError "string indices must be integers")
  | VList _ => Raise (TypeError "list indices must be integers or slices, not str")
  | VNone => Raise (TypeError "'NoneType' object is not subscriptable")
  | VBool _ => Raise (TypeError "'bool' object is not subscriptable")
  | VInt _ => Raise (TypeError "'int' object is not subscriptable")
  | VFloat _ => Raise (TypeError "'float' object is not subscriptable")
  end.

(** [v == s] for a string literal [s]: only a string can be equal to it. *)
Definition eq_str (v : value) (s : string) : bool :=
  match v with
  | VStr t => String.eqb t s
  | _ => false
  end.

(** [d.get(key, default)] on a dict. *)
Definition dict_get (d : gmap string value) (key : string) (default : value) : value :=
  match d !! key with
  | Some x => x
  | None => default
  end.

(** Truth value of an optional integer setting ([None] and [0] are false). *)
Definition truthy_int (o : option Z) : bool :=
  match o with
  | Some n => negb (n =? 0)
  | None => false
  end.

(** Truth value of an optional string setting ([None] and [""] are false). *)
Definition truthy_str (o : option string) : bool :=
  match o with
  | Some EmptyString => false
  | Some _ => true
  | None => false
  end.

(** [a % b] on integers: the result has the sign of [b], as [Z.modulo]. *)
Definition mod_ (a b : Z) : outcome Z :=
  if b =? 0 then Raise ZeroDivisionError else Ok (a mod b).

(** [str.lower()] on the ASCII range. The optimizer names compared against
    below contain neither [k] nor a character that a non-ASCII code point
    lowers to on its own, so bytes outside [A-Z] are left as they are. *)
Definition lower_ascii (c : ascii) : ascii :=
  let n := nat_of_ascii c in
  if ((65 <=? n)%nat && (n <=? 90)%nat)%bool then ascii_of_nat (n + 32) else c.

Fixpoint lower (s : string) : string :=
  match s with
  | EmptyString => EmptyString
  | String c s' => String (lower_ascii c) (lower s')
  end.

(** How a call with keyword arguments binds to a [def] without [*args]
    or [**kwargs]: an unknown keyword is refused first, then a required
    parameter that received nothing. *)
Record signature : Type := {
  sig_name : string;
  sig_required : list string;
  sig_optional : list string
}.

Definition mem_str (x : string) (l : list string) : bool :=
  existsb (String.eqb x) l.

Definition bind_keywords (sg : signature) (given : list string) : outcome unit :=
  match List.find (fun k => negb (mem_str k (sig_required sg ++ sig_optional sg)%list)) given with
  | Some k =>
      Raise (TypeError (sig_name sg +:+ "() got an unexpected keyword argument '" +:+ k +:+ "'"))
  | None =>
      match List.find (fun p => negb (mem_str p given)) (sig_required sg) with
      | Some p =>
          Raise (TypeError (sig_name sg +:+ "() missing required argument: '" +:+ p +:+ "'"))
      | None => Ok tt
      end
  end.

(** Conversion of an [int] operand of a float operation: rounded to the
    nearest binary64 value, refused when out of range. *)
Definition float_of_int (n : Z) : outcome float :=
  match binary_normalize prec emax n 0 false with
  | S754_infinity _ => Raise (OverflowError "int too large to convert to float")
  | sf => Ok (SF2Prim sf)
  end.

(** [f"{v:.6E}"]: a [float] is formatted, an [int] or a [bool] goes
    through [float(v)] first; a [str] has no format code [E], and
    [None], lists and dicts take no format string at all. *)
Definition format_6E (v : value) : outcome unit :=
  match v with
  | VFloat _ | VBool _ => Ok tt
  | VInt z =>
      match float_of_int z with
      | Raise e => Raise e
      | _ => Ok tt
      end
  | VStr _ => Raise (ValueError "Unknown format code 'E' for object of type 'str'")
  | VNone => Raise (TypeError "unsupported format string passed to NoneType.__format__")
  | VList _ => Raise (TypeError "unsupported format string passed to list.__format__")
  | VDict _ => Raise (TypeError "unsupported format string passed to dict.__format__")
  end.

End Py.
Export Py.

(** ** Integer tensors of rank two and the two slices of [_get_batch] *)

Module Tensor.

(** A batch of token ids, row by row. *)
Abbreviation ids := (list (list Z)).

(** [t[:, 1:]] *)
Definition drop_first_column (t : ids) : ids := map (drop 1) t.

(** [t[:, :-1]] *)
Definition drop_last_column (t : ids) : ids :=
  map (fun row => take (length row - 1) row) t.

(** The entry at row [i], column [j], when there is one. *)
Definition at_ (t : ids) (i j : nat) : option Z :=
  match t !! i with
  | Some row => row !! j
  | None => None
  end.

(** [t] has shape [(rows, cols)]. *)
Definition has_shape (t : ids) (rows cols : nat) : Prop :=
  length t = rows /\ Forall (fun row => length row = cols) t.

End Tensor.

(** ** Configuration: the fields of [neox_args] that the module reads *)

Record Tokenizer : Type := { eod : Z }.

Record NeoXArgs : Type := {
  (* execution mode *)
  is_pipe_parallel : bool;
  gradient_accumulation_steps : Z;
  precision : string;
  (* training loop *)
  train_iters : Z;
  iteration : Z;                       (* set by [setup_model_and_optimizer] *)
  log_gradient_noise_scale : bool;
  save : option string;
  save_interval : option Z;
  eval_interval : option Z;
  exit_interval : option Z;
  do_valid : bool;
  (* evaluation *)
  eval_iters : Z;
  log_interval : Z;
  char_level_ppl : bool;
  eval_tasks : list string;
  deepspeed_activation_checkpointing : bool;
  (* batches *)
  eod_mask_loss : bool;
  tokenizer : Tokenizer;
  fp16_lm_cross_entropy : bool;
  (* optimizer and scheduler *)
  no_load_optim : bool;
  optimizer_type : string;
  optimizer : value;                   (* the optimizer config block *)
  weight_decay : float;
  use_bnb_optimizer : bool;
  lr : float;
  warmup : float;
  lr_decay_iters : option Z;
  lr_decay_style : string;
  min_lr : float;
  use_checkpoint_lr_scheduler : bool;
  override_lr_scheduler : bool
}.

(** ** The heap, the interface of the collaborators, and the trace *)

(** What a collaborator sees: the model's [training] flag
    ([torch.nn.Module.train] / [.eval]), the autograd switch
    ([torch.is_grad_enabled()]) and its own state. The two flags are written
    by [model.train()], [model.eval()] and [torch.no_grad()] only; a
    collaborator reads them and hands back its own new state. *)
Record heap (X : Type) : Type := {
  training : bool;
  grad_enabled : bool;
  ext : X
}.
Arguments training {X} h.
Arguments grad_enabled {X} h.
Arguments ext {X} h.

(** What a collaborator answers: a value or an exception. *)
Inductive answer (A : Type) : Type :=
| Returned (a : A)
| Failed (e : exn).
Arguments Returned {A} a.
Arguments Failed {A} e.

(** What [forward_step] hands back: the loss, or the loss with the logits
    when [return_logits] is set. *)
Inductive fwd (T : Type) : Type :=
| Loss (loss : T)
| LossAndLogits (loss logits : T).
Arguments Loss {T} loss.
Arguments LossAndLogits {T} loss logits.

(** Optimizer classes that [get_optimizer] can select. *)
Inductive optimizer_class : Type :=
| TorchAdam            (* torch.optim.Adam *)
| DeepSpeedCPUAdam     (* deepspeed.ops.adam.DeepSpeedCPUAdam *)
| SM3                  (* .optimizers.SM3 *)
| MadgradWd            (* .optimizers.madgrad_wd *)
| Adam8bit             (* bitsandbytes.optim.Adam8bit *)
| ApexFusedAdam        (* apex.optimizers.FusedAdam *)
| DeepSpeedFusedAdam.  (* deepspeed.ops.adam.FusedAdam *)

(** A parameter as the optimizer builder sees it, and a parameter group. *)
Record param : Type := {
  param_name : string;
  requires_grad : bool;
  model_parallel : option bool   (* [None]: the attribute is not set *)
}.

Record param_group : Type := {
  params : list param;
  group_weight_decay : float
}.

(** A constructed optimizer: the class and the arguments of the call. *)
Record optimizer_obj : Type := {
  opt_class : optimizer_class;
  opt_param_groups : list param_group;
  opt_weight_decay : option float;          (* the [weight_decay=] keyword *)
  opt_kwargs : gmap string value            (* [**neox_args.optimizer["params"]] *)
}.

(** The arguments of the [AnnealingLR(...)] call. *)
Record AnnealingLR : Type := {
  alr_optimizer : option optimizer_obj;
  start_lr : float;
  warmup_iter : float;
  total_iters : Z;
  decay_style : string;
  last_iter : Z;
  alr_min_lr : float;
  alr_use_checkpoint_lr_scheduler : bool;
  alr_override_lr_scheduler : bool
}.

(** The arguments of [training_log] that vary from step to step. *)
Record training_log_args (T : Type) : Type := {
  tl_loss_dict : gmap string T;
  tl_learning_rate : value;
  tl_iteration : Z;
  tl_loss_scale : value;
  tl_report_memory_flag : bool;
  tl_skipped_iter : Z
}.
Arguments tl_iteration {T} t.

Inductive timer_op : Type := TimerGet | TimerStart | TimerStop | TimerReset.

(** The calls on collaborators, in the order they are made. Calls that run
    the model record the autograd switch they ran under. *)
Inductive event : Type :=
| EvTimer (name : string) (op : timer_op)
| EvPrint (text : string)
| EvNext
| EvBroadcastData
| EvModelTrain
| EvModelEval
| EvModelCall (grad : bool)
| EvEvalBatch (grad : bool)
| EvTrainBatch
| EvBackward
| EvStep
| EvReduceLosses (n : nat)
| EvOverflowMonitorNew
| EvOverflowCheck (skipped : Z)
| EvNoiseScaleLogger
| EvNoiseScaleUpdate
| EvTrainingLog (iteration : Z)
| EvSaveCheckpoint (iteration : Z)
| EvTbWandbLog (key : string) (iteration : Z)
| EvBarrier
| EvGetRank
| EvNow
| EvCharCounterNew
| EvTokensPerChar
| EvCheckpointingReset
| EvEvalHarness (grad : bool) (tasks : list string).

Class Externals : Type := {
  X : Type;          (* the collaborators' own state *)
  Iter : Type;       (* data iterators *)
  FTensor : Type;    (* float tensors: masks, logits, losses *)
  (* data *)
  iter_next : Iter -> heap X -> answer (gmap string Tensor.ids) * X;
  broadcast_data :
    list string -> option (gmap string Tensor.ids) -> heap X ->
    answer (gmap string Tensor.ids) * X;
  get_ltor_masks_and_position_ids :
    Tensor.ids -> Z -> bool -> FTensor * FTensor * Tensor.ids;
  (* the engine *)
  model_call : Tensor.ids -> Tensor.ids -> FTensor -> heap X -> answer FTensor * X;
  cross_entropy : FTensor -> Tensor.ids -> FTensor -> bool -> FTensor;
  eval_batch : option Iter -> bool -> heap X -> answer (fwd FTensor) * X;
  train_batch : option Iter -> heap X -> answer FTensor * X;
  backward : fwd FTensor -> heap X -> answer unit * X;
  step : heap X -> answer unit * X;
  optimizer_overflow : heap X -> bool;
  optimizer_param_groups : heap X -> list (gmap string value);
  optimizer_cur_scale : heap X -> value;
  (* losses *)
  reduce_losses : list (fwd FTensor) -> heap X -> answer FTensor * X;
  tensor_mean : FTensor -> FTensor;
  tensor_item : FTensor -> float;
  math_exp : float -> answer float;
  (* optimizer construction *)
  get_params_for_weight_decay_optimization : heap X -> list param_group;
  (* [param.model_parallel = False] on the model's parameter of that name *)
  set_model_parallel : string -> X -> X;
  filter_trainable_params : list param_group -> list param_group;
  bitsandbytes_installed : bool;
  apex_installed : bool;
  (* training loop *)
  get_noise_scale_logger : heap X -> answer unit * X;
  overflow_monitor_new : heap X -> answer unit * X;
  overflow_monitor_check : Z -> heap X -> answer unit * X;
  noise_scale_update : heap X -> answer unit * X;
  training_log : training_log_args FTensor -> heap X -> answer bool * X;
  save_checkpoint : Z -> heap X -> answer unit * X;
  tb_wandb_log : string -> value -> Z -> heap X -> answer unit * X;
  dist_barrier : heap X -> answer unit * X;
  (* evaluation *)
  char_counter_new : option Iter -> heap X -> answer Iter * X;
  tokens_per_char : Iter -> heap X -> answer float * X;
  char_counter_inner : Iter -> option Iter;
  checkpointing_reset : heap X -> answer unit * X;
  (* [run_eval_harness(model, forward_step_fn, neox_args, eval_tasks=...)]:
     the model is on the heap; the harness is no part of the module, and
     what it does with the model and with [forward_step_fn] happens inside
     this one call: the trace shows the call, with the autograd switch it
     is made under, and none of the forward passes of the harness *)
  run_eval_harness : list string -> heap X -> answer (gmap string value) * X
}.

(** ** The monad of the module: state, trace and exceptions *)

Section Monad.
Context `{E : Externals}.

Record world : Type := {
  mem : heap X;
  trace : list event     (* oldest first *)
}.

Definition M (A : Type) : Type := world -> outcome A * world.

Definition ret {A} (a : A) : M A := fun w => (Ok a, w).

Definition bind {A B} (m : M A) (k : A -> M B) : M B :=
  fun w =>
    match m w with
    | (Ok a, w') => k a w'
    | (Raise e, w') => (Raise e, w')
    | (OutOfFuel, w') => (OutOfFuel, w')
    end.

Definition raise {A} (e : exn) : M A := fun w => (Raise e, w).

Definition out_of_fuel {A} : M A := fun w => (OutOfFuel, w).

(** A pure computation that may raise. *)
Definition lift {A} (o : outcome A) : M A := fun w => (o, w).

Definition lift_answer {A} (a : answer A) : M A :=
  fun w => match a with Returned x => (Ok x, w) | Failed e => (Raise e, w) end.

(** Record a call in the trace. *)
Definition emit (ev : event) : M unit :=
  fun w => (Ok tt, {| mem := mem w; trace := trace w ++ [ev] |}).

(** Run a collaborator on the heap. *)
Definition set_ext (x : X) (w : world) : world :=
  {| mem := {| training := training (mem w);
               grad_enabled := grad_enabled (mem w);
               ext := x |};
     trace := trace w |}.

Definition run_ext {A} (op : heap X -> answer A * X) : M A :=
  fun w =>
    match op (mem w) with
    | (Returned a, x) => (Ok a, set_ext x w)
    | (Failed e, x) => (Raise e, set_ext x w)
    end.

(** Read the heap. *)
Definition read {A} (f : heap X -> A) : M A := fun w => (Ok (f (mem w)), w).

Definition set_training (b : bool) : M unit :=
  fun w =>
    (Ok tt,
     {| mem := {| training := b; grad_enabled := grad_enabled (mem w); ext := ext (mem w) |};
        trace := trace w |}).

Definition set_grad_enabled (b : bool) (w : world) : world :=
  {| mem := {| training := training (mem w); grad_enabled := b; ext := ext (mem w) |};
     trace := trace w |}.

(** [with torch.no_grad(): body]: the switch is turned off for the body
    and put back on the way out, also when the body raises. *)
Definition with_no_grad {A} (body : M A) : M A :=
  fun w =>
    let prev := grad_enabled (mem w) in
    let '(r, w') := body (set_grad_enabled false w) in
    (r, set_grad_enabled prev w').

(** [for _ in range(n): body], where the body updates the local [s]. *)
Fixpoint iterate {S} (n : nat) (body : S -> M S) (s : S) : M S :=
  match n with
  | O => ret s
  | S n' => bind (body s) (iterate n' body)
  end.

Definition for_range {S} (n : Z) (body : S -> M S) (s : S) : M S :=
  iterate (Z.to_nat n) body s.

(** [for x in l: body] *)
Fixpoint for_each {A} (l : list A) (body : A -> M unit) : M unit :=
  match l with
  | [] => ret tt
  | x :: l' => bind (body x) (fun _ => for_each l' body)
  end.

(** A call [f(k1=..., k2=..., ...)] of a function defined in this module. *)
Definition call {A} (sg : signature) (given : list string) (body : M A) : M A :=
  bind (lift (bind_keywords sg given)) (fun _ => body).

End Monad.

Declare Scope monad_scope.
Delimit Scope monad_scope with monad.
Notation "'let*' p ':=' c1 'in' c2" := (bind c1 (fun p => c2))
  (at level 10, p pattern, c1 at level 100, c2 at level 200) : monad_scope.
Notation "c1 ;; c2" := (bind c1 (fun _ => c2))
  (at level 100, c2 at level 200, right associativity) : monad_scope.
Open Scope monad_scope.

(** ** The functions of [neox/training.py] *)

Module Sig.
(** The parameter lists of the [def]s that are called with keywords. *)
Definition mk (name : string) (required optional : list string) : signature :=
  {| sig_name := name; sig_required := required; sig_optional := optional |}.

Definition _get_batch := mk "_get_batch" ["neox_args"; "tokenizer"; "keys"; "data"; "datatype"] [].
Definition get_batch := mk "get_batch" ["neox_args"; "data_iterator"] [].
Definition forward_step :=
  mk "forward_step" ["data_iterator"; "model"; "neox_args"] ["return_logits"].
Definition backward_step := mk "backward_step" ["neox_args"; "timers"; "model"; "loss"] [].
Definition train_step := mk "train_step" ["neox_args"; "data_iterator"; "model"; "optimizer"] [].
Definition train_step_pipe := mk "train_step_pipe" ["neox_args"; "model"; "data_iterator"] [].
Definition evaluate :=
  mk "evaluate" ["neox_args"; "forward_step_fn"; "data_iterator"; "model"] ["verbose"].
Definition evaluate_and_print_results :=
  mk "evaluate_and_print_results"
     ["neox_args"; "prefix"; "forward_step_func"; "data_iterator"; "model"; "iteration"]
     ["verbose"].
End Sig.

Section Training.
Context `{E : Externals}.

(** The five tensors of a batch, in the order [_get_batch] returns them:
    tokens, labels, loss_mask, attention_mask, position_ids. *)
Definition batch : Type := Tensor.ids * Tensor.ids * FTensor * FTensor * Tensor.ids.

(** [neox_args.timers(name)] followed by [.start()], [.stop()] or
    [.reset()]; [neox_args.timers] is taken to be a timer registry (the
    [is not None] tests of [forward_step] succeed). *)
Definition timer (name : string) (op : timer_op) : M unit := emit (EvTimer name op).

Definition print_rank_0 (text : string) : M unit := emit (EvPrint text).

(** *** Batch producer *)

Definition _get_batch (neox_args : NeoXArgs) (tok : Tokenizer) (keys : list string)
    (data : option (gmap string Tensor.ids)) : M batch :=
  emit EvBroadcastData ;;
  let* data_b := run_ext (broadcast_data keys data) in
  let* tokens_ :=
    match data_b !! "text" with
    | Some t => ret t
    | None => raise (KeyError "text")
    end in
  let labels := Tensor.drop_first_column tokens_ in
  let tokens := Tensor.drop_last_column tokens_ in
  let '(attention_mask, loss_mask, position_ids) :=
    get_ltor_masks_and_position_ids tokens (eod tok) (eod_mask_loss neox_args) in
  ret (tokens, labels, loss_mask, attention_mask, position_ids).

Definition get_batch (neox_args : NeoXArgs) (data_iterator : option Iter) : M batch :=
  let keys := ["text"] in
  let* data :=
    match data_iterator with
    | Some it => emit EvNext ;; let* d := run_ext (iter_next it) in ret (Some d)
    | None => ret None
    end in
  call Sig._get_batch ["neox_args"; "tokenizer"; "keys"; "data"; "datatype"]
    (_get_batch neox_args (tokenizer neox_args) keys data).

Definition get_batch_pipe (data : option (gmap string Tensor.ids)) (neox_args : NeoXArgs)
    : M ((Tensor.ids * Tensor.ids * FTensor) * (Tensor.ids * FTensor)) :=
  let keys := ["text"] in
  let* (tokens, labels, loss_mask, attention_mask, position_ids) :=
    _get_batch neox_args (tokenizer neox_args) keys data in
  ret ((tokens, position_ids, attention_mask), (labels, loss_mask)).

(** *** Forward and backward *)

Definition forward_step (data_iterator : option Iter) (neox_args : NeoXArgs)
    (return_logits : bool) : M (fwd FTensor) :=
  timer "forward" TimerGet ;;
  if is_pipe_parallel neox_args then
    let* g := read grad_enabled in
    emit (EvEvalBatch g) ;;
    run_ext (eval_batch data_iterator return_logits)
  else
    timer "batch generator" TimerStart ;;
    let* (tokens, labels, loss_mask, attention_mask, position_ids) :=
      call Sig.get_batch ["neox_args"; "data_iterator"] (get_batch neox_args data_iterator) in
    timer "batch generator" TimerStop ;;
    let* g := read grad_enabled in
    emit (EvModelCall g) ;;
    let* outputs := run_ext (model_call tokens position_ids attention_mask) in
    let loss := cross_entropy outputs labels loss_mask (fp16_lm_cross_entropy neox_args) in
    if return_logits then ret (LossAndLogits loss outputs) else ret (Loss loss).

Definition backward_step (neox_args : NeoXArgs) (loss : fwd FTensor) : M unit :=
  timer "backward-backward" TimerStart ;;
  emit EvBackward ;;
  run_ext (backward loss) ;;
  timer "backward-backward" TimerStop ;;
  timer "backward-allreduce" TimerReset.

(** *** Optimizer and scheduler builders *)

(** A parameter after
    [if not hasattr(param, "model_parallel"): param.model_parallel = False]. *)
Definition tag_param (p : param) : param :=
  match model_parallel p with
  | Some _ => p
  | None =>
      {| param_name := param_name p;
         requires_grad := requires_grad p;
         model_parallel := Some false |}
  end.

Definition tag_group (g : param_group) : param_group :=
  {| params := map tag_param (params g); group_weight_decay := group_weight_decay g |}.

(** The call [cls(param_groups, [weight_decay=wd,] **neox_args.optimizer["params"])]. *)
Definition construct (cls : optimizer_class) (param_groups : list param_group)
    (wd : option float) (neox_args : NeoXArgs) : M optimizer_obj :=
  let* p := lift (subscript (optimizer neox_args) "params") in
  let* kwargs :=
    match p with
    | VDict d => ret d
    | _ => raise (TypeError "argument after ** must be a mapping")
    end in
  match wd, kwargs !! "weight_decay" with
  | Some _, Some _ =>
      raise (TypeError "got multiple values for keyword argument 'weight_decay'")
  | _, _ =>
      ret {| opt_class := cls;
             opt_param_groups := param_groups;
             opt_weight_decay := wd;
             opt_kwargs := kwargs |}
  end.

(** The loop of lines 300 to 303. The groups hold the model's own
    parameter objects, so the assignment is made on the heap, for every
    parameter that has no such attribute. *)
Definition add_model_parallel_attribute (param_groups : list param_group) : M unit :=
  for_each param_groups
    (fun param_group =>
       for_each (params param_group)
         (fun param =>
            match model_parallel param with
            | Some _ => ret tt
            | None =>
                run_ext (fun h => (Returned tt, set_model_parallel (param_name param) (ext h)))
            end)).

Definition get_optimizer (neox_args : NeoXArgs)
    : M (option optimizer_obj * option (list param_group)) :=
  if no_load_optim neox_args then ret (None, None)
  else
    let* param_groups := read get_params_for_weight_decay_optimization in
    let* _ := lift (subscript (optimizer neox_args) "params") in
    print_rank_0 "Configuring Optimizer type: {} with params: {}" ;;
    add_model_parallel_attribute param_groups ;;
    (* read through [param_groups], the parameters now carry the attribute *)
    let param_groups := map tag_group param_groups in
    let param_groups := filter_trainable_params param_groups in
    let ty := lower (optimizer_type neox_args) in
    if mem_str ty ["cpu_adam"; "cpu_torch_adam"] then
      let cpu_adam_optimizer :=
        if eq_str (optimizer neox_args) "cpu_torch_adam" then TorchAdam
        else DeepSpeedCPUAdam in
      let* o := construct cpu_adam_optimizer param_groups
                  (Some (weight_decay neox_args)) neox_args in
      ret (Some o, Some param_groups)
    else if String.eqb ty "onebitadam" then
      ret (None, Some param_groups)
    else if String.eqb ty "sm3" then
      let* o := construct SM3 param_groups None neox_args in
      ret (Some o, Some param_groups)
    else if String.eqb ty "madgrad_wd" then
      let* o := construct MadgradWd param_groups
                  (Some (weight_decay neox_args)) neox_args in
      ret (Some o, Some param_groups)
    else if String.eqb ty "adam" then
      let* adam_optimizer :=
        if use_bnb_optimizer neox_args then
          if bitsandbytes_installed then ret Adam8bit
          else
            print_rank_0 "Please install bitsandbytes following https://github.com/facebookresearch/bitsandbytes." ;;
            raise BareException
        else
          if apex_installed then ret ApexFusedAdam
          else
            print_rank_0 "WARNING: APEX not installed - defaulting to deepspeed's fused adam" ;;
            ret DeepSpeedFusedAdam in
      let* o := construct adam_optimizer param_groups
                  (Some (weight_decay neox_args)) neox_args in
      ret (Some o, Some param_groups)
    else
      raise (ValueError ("Optimizer type " +:+ optimizer_type neox_args +:+ " not recognized")).

Definition get_learning_rate_scheduler (optimizer_ : option optimizer_obj)
    (neox_args : NeoXArgs) : M (option AnnealingLR) :=
  if no_load_optim neox_args then ret None
  else if String.eqb (lower (optimizer_type neox_args)) "onebitadam" then
    print_rank_0 "WARNING: onebitadam requires the lr scheduler be built by deepspeed - Make sure one is added to your deepspeed config" ;;
    ret None
  else
    let num_iters :=
      match lr_decay_iters neox_args with
      | Some n => n
      | None => train_iters neox_args
      end in
    let* n := lift (float_of_int num_iters) in
    ret (Some {| alr_optimizer := optimizer_;
                 start_lr := lr neox_args;
                 warmup_iter := (warmup neox_args * n)%float;
                 total_iters := Z.max 1 num_iters;
                 decay_style := lr_decay_style neox_args;
                 last_iter := 0;
                 alr_min_lr := min_lr neox_args;
                 alr_use_checkpoint_lr_scheduler := use_checkpoint_lr_scheduler neox_args;
                 alr_override_lr_scheduler := override_lr_scheduler neox_args |}).

(** *** Training step *)

Definition train_step_pipe (neox_args : NeoXArgs) (data_iterator : option Iter)
    : M (gmap string FTensor) :=
  emit EvTrainBatch ;;
  let* loss := run_ext (train_batch data_iterator) in
  let loss_dict : gmap string FTensor := {[ "lm_loss" := loss ]} in
  for_each ["forward"; "backward"; "allreduce"; "optimizer"; "batch generator"; "data loader"]
    (fun t => timer t TimerReset) ;;
  ret loss_dict.

(** The body of the manual-mode loop; [losses] is the list being built. *)
Definition micro_batch (neox_args : NeoXArgs) (data_iterator : option Iter)
    (losses : list (fwd FTensor)) : M (list (fwd FTensor)) :=
  timer "forward" TimerStart ;;
  let* loss :=
    call Sig.forward_step ["neox_args"; "data_iterator"; "model"]
      (forward_step data_iterator neox_args false) in
  timer "forward" TimerStop ;;
  let losses := (losses ++ [loss])%list in
  timer "backward" TimerStart ;;
  call Sig.backward_step ["neox_args"; "optimizer"; "model"; "loss"]
    (backward_step neox_args loss) ;;
  timer "backward" TimerStop ;;
  timer "optimizer" TimerStart ;;
  emit EvStep ;;
  run_ext step ;;
  timer "optimizer" TimerStop ;;
  ret losses.

Definition train_step (neox_args : NeoXArgs) (data_iterator : option Iter)
    : M (gmap string FTensor * Z) :=
  let* loss_dict :=
    if is_pipe_parallel neox_args then
      call Sig.train_step_pipe ["neox_args"; "model"; "data_iterator"]
        (train_step_pipe neox_args data_iterator)
    else
      let* losses :=
        for_range (gradient_accumulation_steps neox_args)
          (micro_batch neox_args data_iterator) [] in
      emit (EvReduceLosses (length losses)) ;;
      let* reduced := run_ext (reduce_losses losses) in
      ret ({[ "lm_loss" := tensor_mean reduced ]} : gmap string FTensor) in
  let* overflowed :=
    if String.eqb (precision neox_args) "fp16" then read optimizer_overflow
    else ret false in
  let skipped_iter := if overflowed then 1 else 0 in
  ret (loss_dict, skipped_iter).

(** *** Evaluation *)

(** The type of the [forward_step_fn] argument, called as
    [forward_step_fn(model=..., data_iterator=..., neox_args=...)]. *)
Definition forward_fn : Type := NeoXArgs -> option Iter -> M (fwd FTensor).

(** [forward_step] passed as a [forward_step_fn]. *)
Definition forward_step_as_fn : forward_fn :=
  fun neox_args data_iterator =>
    call Sig.forward_step ["model"; "data_iterator"; "neox_args"]
      (forward_step data_iterator neox_args false).

(** The [while iteration < neox_args.eval_iters] loop of [evaluate]. *)
Fixpoint evaluate_loop (fuel : nat) (neox_args : NeoXArgs) (forward_step_fn : forward_fn)
    (data_iterator : option Iter) (verbose : bool) (iteration_ : Z)
    (losses : list (fwd FTensor)) : M (list (fwd FTensor)) :=
  if iteration_ <? eval_iters neox_args then
    match fuel with
    | O => out_of_fuel
    | S fuel' =>
        let iteration_ := iteration_ + 1 in
        (if verbose then
           let* r := lift (mod_ iteration_ (log_interval neox_args)) in
           if r =? 0 then print_rank_0 "Evaluating iter {}/{}" else ret tt
         else ret tt) ;;
        let* losses :=
          for_range
            (if is_pipe_parallel neox_args then 1
             else gradient_accumulation_steps neox_args)
            (fun losses =>
               let* loss := forward_step_fn neox_args data_iterator in
               ret (losses ++ [loss])%list)
            losses in
        (if deepspeed_activation_checkpointing neox_args then
           emit EvCheckpointingReset ;; run_ext checkpointing_reset
         else ret tt) ;;
        evaluate_loop fuel' neox_args forward_step_fn data_iterator verbose iteration_ losses
    end
  else ret losses.

Definition evaluate (neox_args : NeoXArgs) (forward_step_fn : forward_fn)
    (data_iterator : option Iter) (verbose : bool) : M (gmap string value) :=
  emit EvModelEval ;;
  set_training false ;;
  let* data_iterator :=
    if char_level_ppl neox_args then
      emit EvCharCounterNew ;;
      let* c := run_ext (char_counter_new data_iterator) in
      ret (Some c)
    else ret data_iterator in
  let* losses :=
    with_no_grad
      (evaluate_loop (Z.to_nat (eval_iters neox_args)) neox_args forward_step_fn
         data_iterator verbose 0 []) in
  emit (EvReduceLosses (length losses)) ;;
  let* reduced := run_ext (reduce_losses losses) in
  let lm_loss := tensor_item (tensor_mean reduced) in
  let eval_results : gmap string value := {[ "lm_loss" := VFloat lm_loss ]} in
  let* ppl := lift_answer (math_exp lm_loss) in
  let eval_results := <[ "lm_loss_ppl" := VFloat ppl ]> eval_results in
  let* eval_results :=
    if char_level_ppl neox_args then
      match data_iterator with
      | Some counter =>
          emit EvTokensPerChar ;;
          let* tpc := run_ext (tokens_per_char counter) in
          print_rank_0 "Counting chars took {} seconds" ;;
          let data_iterator := char_counter_inner counter in
          let* char_ppl := lift_answer (math_exp (lm_loss * tpc)%float) in
          ret (<[ "lm_loss_char_lvl_ppl" := VFloat char_ppl ]> eval_results)
      | None =>
          raise (AttributeError "'NoneType' object has no attribute 'tokens_per_char'")
      end
    else ret eval_results in
  let* eval_results :=
    match eval_tasks neox_args with
    | [] => ret eval_results
    | tasks =>
        (* [run_eval_harness(model, forward_step_fn, neox_args, eval_tasks=...)],
           after the [no_grad] block has been left *)
        let* g := read grad_enabled in
        emit (EvEvalHarness g tasks) ;;
        let* harness := run_ext (run_eval_harness tasks) in
        (* [dict.update]: the harness entries win *)
        ret (harness ∪ eval_results)
    end in
  emit EvModelTrain ;;
  set_training true ;;
  ret eval_results.

(** Every value is formatted with [:.6E] for the message before it is
    logged; the text of the message is not kept. The entries of a dict are
    visited in the order of [map_to_list], where Python visits them in the
    order of insertion: what is stated about the logged metrics is stated
    up to their order. *)
Definition evaluate_and_print_results (neox_args : NeoXArgs) (forward_step_func : forward_fn)
    (data_iterator : option Iter) (iteration_ : Z) (verbose : bool) : M unit :=
  let* total_loss_dict :=
    call Sig.evaluate ["neox_args"; "forward_step_fn"; "data_iterator"; "model"; "verbose"]
      (evaluate neox_args forward_step_func data_iterator verbose) in
  for_each (map_to_list total_loss_dict)
    (fun '(k, v) =>
       match v with
       | VDict d =>
           for_each (map_to_list d)
             (fun '(k2, v2) =>
                let k3 := k +:+ "_" +:+ k2 in
                lift (format_6E v2) ;;
                emit (EvTbWandbLog ("validation/" +:+ k3) iteration_) ;;
                run_ext (tb_wandb_log ("validation/" +:+ k3) v2 iteration_))
       | _ =>
           lift (format_6E v) ;;
           emit (EvTbWandbLog ("validation/" +:+ k) iteration_) ;;
           run_ext (tb_wandb_log ("validation/" +:+ k) v iteration_)
       end) ;;
  print_rank_0 "-" ;;
  print_rank_0 " validation results at {} | ..." ;;
  print_rank_0 "-".

(** *** Training loop *)

(** [interval and iteration % interval == 0] *)
Definition interval_hit (interval : option Z) (iteration_ : Z) : bool :=
  match interval with
  | Some n => if n =? 0 then false else (iteration_ mod n =? 0)
  | None => false
  end.

(** The body of the [if neox_args.exit_interval and ...] branch: barrier,
    time stamp, rank, message, [sys.exit()]. *)
Definition synchronized_exit : M unit :=
  emit EvBarrier ;;
  run_ext dist_barrier ;;
  emit EvNow ;;
  emit EvGetRank ;;
  print_rank_0 "rank: {} | time: {} | exiting the program at iteration {}" ;;
  raise SystemExit.

(** The [while iteration < neox_args.train_iters] loop of [train]. *)
Fixpoint train_loop (fuel : nat) (neox_args : NeoXArgs)
    (train_data_iterator valid_data_iterator : option Iter)
    (iteration_ : Z) (report_memory_flag : bool) : M Z :=
  if iteration_ <? train_iters neox_args then
    match fuel with
    | O => out_of_fuel
    | S fuel' =>
        let* (loss_dict, skipped_iter) :=
          call Sig.train_step ["neox_args"; "data_iterator"; "model"; "optimizer"]
            (train_step neox_args train_data_iterator) in
        let iteration_ := iteration_ + 1 in
        emit (EvOverflowCheck skipped_iter) ;;
        run_ext (overflow_monitor_check skipped_iter) ;;
        (if log_gradient_noise_scale neox_args then
           emit EvNoiseScaleUpdate ;; run_ext noise_scale_update
         else ret tt) ;;
        let* groups := read optimizer_param_groups in
        let lr_ :=
          match groups with
          | g :: _ => dict_get g "lr" (VInt 0)
          | [] => VInt 0
          end in
        let* loss_scale :=
          if String.eqb (precision neox_args) "fp16" then read optimizer_cur_scale
          else ret VNone in
        emit (EvTrainingLog iteration_) ;;
        let* report_memory_flag :=
          run_ext (training_log
                     {| tl_loss_dict := loss_dict;
                        tl_learning_rate := lr_;
                        tl_iteration := iteration_;
                        tl_loss_scale := loss_scale;
                        tl_report_memory_flag := report_memory_flag;
                        tl_skipped_iter := skipped_iter |}) in
        (if (truthy_str (save neox_args)
             && interval_hit (save_interval neox_args) iteration_)%bool then
           emit (EvSaveCheckpoint iteration_) ;; run_ext (save_checkpoint iteration_)
         else ret tt) ;;
        (if (interval_hit (eval_interval neox_args) iteration_
             && do_valid neox_args)%bool then
           call Sig.evaluate_and_print_results
             ["neox_args"; "prefix"; "forward_step_func"; "data_iterator"; "model";
              "iteration"; "verbose"]
             (evaluate_and_print_results neox_args forward_step_as_fn
                valid_data_iterator iteration_ false)
         else ret tt) ;;
        (if interval_hit (exit_interval neox_args) iteration_ then synchronized_exit
         else ret tt) ;;
        train_loop fuel' neox_args train_data_iterator valid_data_iterator
          iteration_ report_memory_flag
    end
  else ret iteration_.

Definition train (neox_args : NeoXArgs)
    (train_data_iterator valid_data_iterator : option Iter) : M Z :=
  emit EvModelTrain ;;
  set_training true ;;
  let iteration_ := iteration neox_args in
  timer "interval time" TimerStart ;;
  let report_memory_flag := true in
  emit EvNoiseScaleLogger ;;
  run_ext get_noise_scale_logger ;;
  emit EvOverflowMonitorNew ;;
  run_ext overflow_monitor_new ;;
  train_loop (Z.to_nat (train_iters neox_args - iteration_)) neox_args
    train_data_iterator valid_data_iterator iteration_ report_memory_flag.

End Training.

(** ** A small concrete instance of the collaborators

    Used to run the functions above on explicit inputs. The data iterator
    is a queue of raw batches, a forward pass yields the loss [2.0], and the
    engine counts what it was asked to do. *)

Module Toy.

Record state : Type := {
  queue : list Tensor.ids;   (* raw batches still to be served *)
  weights : nat;             (* number of parameter updates applied *)
  opt_steps : nat;           (* number of optimizer state updates *)
  grads : nat;               (* number of backward passes accumulated *)
  overflow : bool;           (* [model.optimizer.overflow] *)
  tagged : list string       (* parameters given a [model_parallel] attribute *)
}.

Definition with_queue (q : list Tensor.ids) (s : state) : state :=
  {| queue := q; weights := weights s; opt_steps := opt_steps s;
     grads := grads s; overflow := overflow s; tagged := tagged s |}.

Definition updated (s : state) : state :=
  {| queue := queue s; weights := S (weights s); opt_steps := S (opt_steps s);
     grads := 0; overflow := overflow s; tagged := tagged s |}.

Definition accumulated (s : state) : state :=
  {| queue := queue s; weights := weights s; opt_steps := opt_steps s;
     grads := S (grads s); overflow := overflow s; tagged := tagged s |}.

Definition with_tag (name : string) (s : state) : state :=
  {| queue := queue s; weights := weights s; opt_steps := opt_steps s;
     grads := grads s; overflow := overflow s; tagged := name :: tagged s |}.

Definition next_ (_ : unit) (h : heap state) : answer (gmap string Tensor.ids) * state :=
  match queue (ext h) with
  | [] => (Failed StopIteration, ext h)
  | b :: q => (Returned {[ "text" := b ]}, with_queue q (ext h))
  end.

Definition broadcast (keys : list string) (data : option (gmap string Tensor.ids))
    (h : heap state) : answer (gmap string Tensor.ids) * state :=
  match data with
  | Some d => (Returned d, ext h)
  | None => (Failed (ExternalError "broadcast_data"), ext h)
  end.

Definition masks (tokens : Tensor.ids) (eod_ : Z) (eod_mask_loss_ : bool)
    : float * float * Tensor.ids :=
  (0%float, 1%float, map (fun row => map Z.of_nat (seq 0 (length row))) tokens).

Definition reduce (losses : list (fwd float)) (h : heap state) : answer float * state :=
  match losses with
  | Loss l :: _ => (Returned l, ext h)
  | _ => (Failed (ExternalError "reduce_losses"), ext h)
  end.

(** A stand-in for [math.exp]: refuses large arguments as [math.exp] does. *)
Definition exp_ (x : float) : answer float :=
  if (709 <? x)%float then Failed (OverflowError "math range error")
  else Returned (x * x + 1)%float.

Definition groups (h : heap state) : list param_group :=
  [ {| params := [ {| param_name := "soft_embedding.weight"; requires_grad := true;
                      model_parallel :=
                        if mem_str "soft_embedding.weight" (tagged (ext h)) then Some false
                        else None |};
                   {| param_name := "0.word_embeddings.weight"; requires_grad := false;
                      model_parallel := Some true |} ];
       group_weight_decay := 0.01%float |} ].

Definition trainable (gs : list param_group) : list param_group :=
  map (fun g => {| params := List.filter requires_grad (params g);
                   group_weight_decay := group_weight_decay g |}) gs.

Definition ok {A} (a : A) (h : heap state) : answer A * state := (Returned a, ext h).

#[export] Instance externals : Externals := {|
  X := state;
  Iter := unit;
  FTensor := float;
  iter_next := next_;
  broadcast_data := broadcast;
  get_ltor_masks_and_position_ids := masks;
  model_call := fun _ _ _ => ok 2%float;
  cross_entropy := fun outputs _ _ _ => outputs;
  eval_batch := fun _ _ => ok (Loss 2%float);
  train_batch := fun _ h => (Returned 2%float, updated (ext h));
  backward := fun _ h => (Returned tt, accumulated (ext h));
  step := fun h => (Returned tt, updated (ext h));
  optimizer_overflow := fun h => overflow (ext h);
  optimizer_param_groups := fun _ => [ {[ "lr" := VFloat 0.1%float ]} ];
  optimizer_cur_scale := fun _ => VInt 1;
  reduce_losses := reduce;
  tensor_mean := fun t => t;
  tensor_item := fun t => t;
  math_exp := exp_;
  get_params_for_weight_decay_optimization := groups;
  set_model_parallel := with_tag;
  filter_trainable_params := trainable;
  bitsandbytes_installed := false;
  apex_installed := false;
  get_noise_scale_logger := ok tt;
  overflow_monitor_new := ok tt;
  overflow_monitor_check := fun _ => ok tt;
  noise_scale_update := ok tt;
  training_log := fun _ => ok false;
  save_checkpoint := fun _ => ok tt;
  tb_wandb_log := fun _ _ _ => ok tt;
  dist_barrier := ok tt;
  char_counter_new := fun _ => ok tt;
  tokens_per_char := fun _ => ok 1%float;
  char_counter_inner := fun _ => Some tt;
  checkpointing_reset := ok tt;
  run_eval_harness := fun _ => ok {[ "lambada" := VDict {[ "acc" := VFloat 0.5%float ]} ]}
|}.

(** What the engine has learned: parameter and optimizer-state updates. *)
Definition learned (s : state) : nat * nat := (weights s, opt_steps s).

Definition raw_batch : Tensor.ids := [[11; 12; 13; 14]; [21; 22; 23; 24]].

Definition start (training_ grad_ overflow_ : bool) : world :=
  {| mem := {| training := training_; grad_enabled := grad_;
               ext := {| queue := [raw_batch; raw_batch; raw_batch; raw_batch];
                         weights := 0; opt_steps := 0; grads := 0;
                         overflow := overflow_; tagged := [] |} |};
     trace := [] |}.

Definition adam_block : value :=
  VDict {[ "type" := VStr "Adam";
           "params" := VDict {[ "lr" := VFloat 0.0006%float ]} ]}.

(** A configuration, with the settings that the examples vary as
    arguments: execution mode, accumulation steps, exit interval,
    character-level perplexity, harness tasks, optimizer loading,
    optimizer type and optimizer block. *)
Definition config (pipe : bool) (gas : Z) (exit_ : option Z) (ppl : bool)
    (tasks : list string) (no_load : bool) (ty : string) (block : value) : NeoXArgs := {|
  is_pipe_parallel := pipe;
  gradient_accumulation_steps := gas;
  precision := "fp16";
  train_iters := 3;
  iteration := 0;
  log_gradient_noise_scale := false;
  save := None;
  save_interval := None;
  eval_interval := None;
  exit_interval := exit_;
  do_valid := false;
  eval_iters := 2;
  log_interval := 1;
  char_level_ppl := ppl;
  eval_tasks := tasks;
  deepspeed_activation_checkpointing := false;
  eod_mask_loss := false;
  tokenizer := {| eod := 0 |};
  fp16_lm_cross_entropy := false;
  no_load_optim := no_load;
  optimizer_type := ty;
  optimizer := block;
  weight_decay := 0.01%float;
  use_bnb_optimizer := false;
  lr := 0.0006%float;
  warmup := 0.01%float;
  lr_decay_iters := None;
  lr_decay_style := "cosine";
  min_lr := 0%float;
  use_checkpoint_lr_scheduler := false;
  override_lr_scheduler := false
|}.

(** [a] with another optimizer type and [train_iters]. *)
Definition retarget (ty : string) (iters : Z) (a : NeoXArgs) : NeoXArgs := {|
  is_pipe_parallel := is_pipe_parallel a;
  gradient_accumulation_steps := gradient_accumulation_steps a;
  precision := precision a;
  train_iters := iters;
  iteration := iteration a;
  log_gradient_noise_scale := log_gradient_noise_scale a;
  save := save a;
  save_interval := save_interval a;
  eval_interval := eval_interval a;
  exit_interval := exit_interval a;
  do_valid := do_valid a;
  eval_iters := eval_iters a;
  log_interval := log_interval a;
  char_level_ppl := char_level_ppl a;
  eval_tasks := eval_tasks a;
  deepspeed_activation_checkpointing := deepspeed_activation_checkpointing a;
  eod_mask_loss := eod_mask_loss a;
  tokenizer := tokenizer a;
  fp16_lm_cross_entropy := fp16_lm_cross_entropy a;
  no_load_optim := no_load_optim a;
  optimizer_type := ty;
  optimizer := optimizer a;
  weight_decay := weight_decay a;
  use_bnb_optimizer := use_bnb_optimizer a;
  lr := lr a;
  warmup := warmup a;
  lr_decay_iters := lr_decay_iters a;
  lr_decay_style := lr_decay_style a;
  min_lr := min_lr a;
  use_checkpoint_lr_scheduler := use_checkpoint_lr_scheduler a;
  override_lr_scheduler := override_lr_scheduler a
|}.

(** A pipeline-parallel run of three iterations in fp16. *)
Definition pipeline : NeoXArgs := config true 1 None false [] false "Adam" adam_block.

(** The same run without pipeline parallelism, [gas] micro-batches a step. *)
Definition manual (gas : Z) : NeoXArgs := config false gas None false [] false "Adam" adam_block.

End Toy.

(** ** Specification vocabulary *)

Section Vocabulary.
Context `{E : Externals}.

(** [runs R m]: from every world, [m] stays within the step budget of its
    loops and relates the world it starts in to the world it leaves,
    whether it returns or raises. *)
Definition runs {A} (R : world -> world -> Prop) (m : M A) : Prop :=
  forall w, fst (m w) <> OutOfFuel /\ R w (snd (m w)).

(** The part [proj] of the collaborators' state is left as it was. *)
Definition frames {S} (proj : X -> S) (w w' : world) : Prop :=
  proj (ext (mem w')) = proj (ext (mem w)).

(** The autograd switch is left as it was, and every call added to the
    trace satisfies [P] at the switch position the code started from. *)
Definition stamps (P : bool -> event -> Prop) (w w' : world) : Prop :=
  grad_enabled (mem w') = grad_enabled (mem w) /\
  exists evs, trace w' = (trace w ++ evs)%list /\ Forall (P (grad_enabled (mem w))) evs.

(** Calls that update parameters or optimizer state. *)
Definition is_update (ev : event) : bool :=
  match ev with
  | EvBackward | EvStep | EvTrainBatch => true
  | _ => false
  end.

(** Calls that run the model, with the autograd switch they ran under. *)
Definition runs_model (ev : event) : option bool :=
  match ev with
  | EvModelCall g | EvEvalBatch g | EvEvalHarness g _ => Some g
  | _ => None
  end.

(** What a forward-only piece of code may add to the trace when the switch
    is at [g]: forward passes stamped [g]; no update, no harness call, and
    none of the calls of the training loop (log, checkpoint, barrier). *)
Definition forward_only (g : bool) (ev : event) : Prop :=
  match ev with
  | EvModelCall g' | EvEvalBatch g' => g' = g
  | EvEvalHarness _ _ | EvBackward | EvStep | EvTrainBatch
  | EvTrainingLog _ | EvSaveCheckpoint _ | EvBarrier => False
  | _ => True
  end.

(** What [evaluate] may add to the trace when called with the switch at
    [g0]: forward passes with the switch off, the harness call with the
    switch as the caller left it; no update and none of the calls of the
    training loop. *)
Definition evaluation_event (g0 : bool) (ev : event) : Prop :=
  match ev with
  | EvModelCall g' | EvEvalBatch g' => g' = false
  | EvEvalHarness g' _ => g' = g0
  | EvBackward | EvStep | EvTrainBatch
  | EvTrainingLog _ | EvSaveCheckpoint _ | EvBarrier => False
  | _ => True
  end.

(** Every call that runs the model ran with the switch off. *)
Definition without_grad (ev : event) : bool :=
  match runs_model ev with
  | Some true => false
  | _ => true
  end.

Definition all_without_grad (evs : list event) : Prop :=
  forallb without_grad evs = true.

(** Calls other than [training_log] and the exit barrier. *)
Definition quiet (_ : bool) (ev : event) : Prop :=
  match ev with
  | EvTrainingLog _ | EvBarrier => False
  | _ => True
  end.


(** The iteration numbers passed to [training_log], in order. *)
Fixpoint logged (evs : list event) : list Z :=
  match evs with
  | [] => []
  | EvTrainingLog i :: evs' => i :: logged evs'
  | _ :: evs' => logged evs'
  end.

(** [count p evs]: how many calls of the trace satisfy [p]. *)
Definition count (p : event -> bool) (evs : list event) : nat :=
  length (List.filter p evs).

Definition is_forward (ev : event) : bool :=
  match ev with EvModelCall _ | EvEvalBatch _ => true | _ => false end.

Definition is_backward (ev : event) : bool :=
  match ev with EvBackward => true | _ => false end.

Definition is_step (ev : event) : bool :=
  match ev with EvStep => true | _ => false end.

(** [i+1; i+2; ...; i+n] *)
Fixpoint count_up (i : Z) (n : nat) : list Z :=
  match n with
  | O => []
  | S n' => (i + 1) :: count_up (i + 1) n'
  end.

(** The collaborators that [evaluate] calls leave [proj] alone. *)
Definition read_only_collaborators {S} (proj : X -> S) : Prop :=
  (forall it h, proj (snd (iter_next it h)) = proj (ext h)) /\
  (forall keys d h, proj (snd (broadcast_data keys d h)) = proj (ext h)) /\
  (forall t p a h, proj (snd (model_call t p a h)) = proj (ext h)) /\
  (forall it rl h, proj (snd (eval_batch it rl h)) = proj (ext h)) /\
  (forall ls h, proj (snd (reduce_losses ls h)) = proj (ext h)) /\
  (forall it h, proj (snd (char_counter_new it h)) = proj (ext h)) /\
  (forall c h, proj (snd (tokens_per_char c h)) = proj (ext h)) /\
  (forall h, proj (snd (checkpointing_reset h)) = proj (ext h)) /\
  (forall tasks h, proj (snd (run_eval_harness tasks h)) = proj (ext h)).

(** The names of the parameters of the groups that have no
    [model_parallel] attribute, in the order of the loop of lines 300 to
    303, and the heap after the assignments of that loop. *)
Definition untagged (param_groups : list param_group) : list string :=
  flat_map
    (fun g =>
       flat_map
         (fun p => match model_parallel p with None => [param_name p] | Some _ => [] end)
         (params g))
    param_groups.

Definition tag_all (names : list string) (x : X) : X :=
  fold_left (fun x name => set_model_parallel name x) names x.

(** A parameter after the assignment of that loop to the parameter called
    [name]: parameters are told apart by their names. *)
Definition tag_named (name : string) (p : param) : param :=
  if String.eqb name (param_name p) then tag_param p else p.

(** The setter and the reader of the parameters agree: after
    [param.model_parallel = False] on the parameter of a name, the groups
    read from the heap are the groups before, with that parameter tagged. *)
Definition tagging_sets_attribute : Prop :=
  forall name h,
    get_params_for_weight_decay_optimization
      {| training := training h; grad_enabled := grad_enabled h;
         ext := set_model_parallel name (ext h) |}
    = map (fun g =>
             {| params := map (tag_named name) (params g);
                group_weight_decay := group_weight_decay g |})
        (get_params_for_weight_decay_optimization h).

(** The optimizer names of the specification. *)
Definition supported_optimizers : list string :=
  ["cpu_adam"; "cpu_torch_adam"; "onebitadam"; "sm3"; "madgrad_wd"; "adam"].

End Vocabulary.

(** ** Observations on traces and outcomes *)

(** [collect pick evs]: what [pick] reads off the calls of a trace, in
    order. *)
Fixpoint collect {B : Type} (pick : event -> option B) (evs : list event) : list B :=
  match evs with
  | [] => []
  | ev :: evs' =>
      match pick ev with
      | Some b => b :: collect pick evs'
      | None => collect pick evs'
      end
  end.

(** The iteration of a [save_checkpoint] call. *)
Definition checkpoint_of (ev : event) : option Z :=
  match ev with EvSaveCheckpoint i => Some i | _ => None end.

(** The number of losses handed to [reduce_losses]. *)
Definition reduced_of (ev : event) : option nat :=
  match ev with EvReduceLosses n => Some n | _ => None end.

(** The key and the iteration of a [tb_wandb_log] call. *)
Definition metric_of (ev : event) : option (string * Z) :=
  match ev with EvTbWandbLog key i => Some (key, i) | _ => None end.

(** What producing a batch may add to the trace. *)
Definition batch_event (_ : bool) (ev : event) : Prop :=
  match ev with
  | EvNext | EvBroadcastData => True
  | _ => False
  end.

(** What a forward step may add to the trace when the switch is at [g]:
    timers, the batch, and forward passes stamped [g]. *)
Definition forward_event (g : bool) (ev : event) : Prop :=
  match ev with
  | EvTimer _ _ | EvNext | EvBroadcastData => True
  | EvModelCall g' | EvEvalBatch g' => g' = g
  | _ => False
  end.

(** What a training step may add to the trace. *)
Definition step_event (g : bool) (ev : event) : Prop :=
  match ev with
  | EvTimer _ _ | EvNext | EvBroadcastData
  | EvTrainBatch | EvBackward | EvStep | EvReduceLosses _ => True
  | EvModelCall g' | EvEvalBatch g' => g' = g
  | _ => False
  end.

(** What a run of [train] in manual mode adds to the trace, as the
    [backward_step] call is written: the calls that open the loop, timers,
    a batch and a forward pass. *)
Definition stalled_event (g : bool) (ev : event) : Prop :=
  match ev with
  | EvModelTrain | EvNoiseScaleLogger | EvOverflowMonitorNew
  | EvTimer _ _ | EvNext | EvBroadcastData => True
  | EvModelCall g' => g' = g
  | _ => False
  end.

(** What [evaluate] may add to the trace when called with the switch at
    [g]: forward passes with the switch off, the harness call with the
    switch at [g], and the calls around them. *)
Definition evaluator_event (g : bool) (ev : event) : Prop :=
  match ev with
  | EvModelCall g' | EvEvalBatch g' => g' = false
  | EvEvalHarness g' _ => g' = g
  | EvTimer _ _ | EvPrint _ | EvNext | EvBroadcastData | EvModelEval | EvModelTrain
  | EvReduceLosses _ | EvCharCounterNew | EvTokensPerChar | EvCheckpointingReset => True
  | _ => False
  end.

(** What [evaluate_and_print_results] may add to the trace when called for
    iteration [i]: the calls of [evaluate], and metrics logged under
    [validation/...] at iteration [i]. *)
Definition report_event (i : Z) (g : bool) (ev : event) : Prop :=
  match ev with
  | EvTbWandbLog key j => j = i /\ String.prefix "validation/" key = true
  | _ => evaluator_event g ev
  end.

(** The metrics that [evaluate_and_print_results] logs for one entry of
    the results at iteration [i]: one under [validation/<key>] for a
    number, one under [validation/<key>_<key2>] for each entry of a nested
    dict. *)
Definition metrics_of_entry (i : Z) (entry : string * value) : list (string * Z) :=
  let '(k, v) := entry in
  match v with
  | VDict d => map (fun '(k2, _) => ("validation/" +:+ k +:+ "_" +:+ k2, i)) (map_to_list d)
  | _ => [("validation/" +:+ k, i)]
  end.

(** What [train] may add to the trace: a [training_log] call is for an
    iteration after the resume iteration and up to [train_iters] that no
    earlier iteration of the run has hit the exit interval before; a
    checkpoint is saved under a set [save] at a multiple of
    [save_interval]; validation metrics are logged at a multiple of
    [eval_interval] when [do_valid] is set. *)
Definition loop_event (args : NeoXArgs) (_ : bool) (ev : event) : Prop :=
  match ev with
  | EvTrainingLog j =>
      iteration args < j <= train_iters args /\
      forall k, iteration args < k < j -> interval_hit (exit_interval args) k = false
  | EvSaveCheckpoint j =>
      truthy_str (save args) = true /\ interval_hit (save_interval args) j = true
  | EvTbWandbLog key j =>
      interval_hit (eval_interval args) j = true /\ do_valid args = true /\
      String.prefix "validation/" key = true
  | _ => True
  end.

(** What the set-up phase adds to the trace: messages. *)
Definition setup_event (_ : bool) (ev : event) : Prop :=
  match ev with
  | EvPrint _ => True
  | _ => False
  end.

Section Outcomes.
Context `{E : Externals}.

(** The model's mode is left as it was. *)
Definition same_mode (w w' : world) : Prop := training (mem w') = training (mem w).

(** [m] never returns: every run ends in an exception. *)
Definition never_returns {A : Type} (m : M A) : Prop :=
  forall w a w', m w <> (Ok a, w').

(** When [m] raises, the model's mode is as it was before. *)
Definition raising_keeps_mode {A : Type} (m : M A) : Prop :=
  forall w e w', m w = (Raise e, w') -> training (mem w') = training (mem w).

End Outcomes.

(** A call of the evaluation harness is made for the configured tasks,
    and only when there are some. *)
Definition harness_tasks (args : NeoXArgs) (_ : bool) (ev : event) : Prop :=
  match ev with
  | EvEvalHarness _ tasks => tasks = eval_tasks args /\ tasks <> []
  | _ => True
  end.

(** The values that [f"{v:.6E}"] accepts: floats, and the ints and bools
    that [float(v)] converts. *)
Definition is_number (v : value) : Prop :=
  match v with
  | VFloat _ | VBool _ => True
  | VInt z => exists x, float_of_int z = Ok x
  | _ => False
  end.

(** ** The set-up phase and the driver

    [get_model], [setup_model_and_optimizer] and [pretrain] read settings
    and call collaborators that the training loop does not use; they come
    in a record and an interface of their own, next to [NeoXArgs] and
    [Externals]. The collaborators of the set-up phase act on the heap; the
    trace keeps recording the calls listed in [event]. *)

(** Python's truth value of a configuration value. *)
Definition truthy (v : value) : bool :=
  match v with
  | VNone => false
  | VBool b => b
  | VInt z => negb (z =? 0)
  | VFloat f => negb (f =? 0)%float
  | VStr s => negb (String.eqb s EmptyString)
  | VList l => match l with [] => false | _ => true end
  | VDict d => negb (bool_decide (d = ∅))
  end.

(** [type(v).__name__] *)
Definition type_name (v : value) : string :=
  match v with
  | VNone => "NoneType"
  | VBool _ => "bool"
  | VInt _ => "int"
  | VFloat _ => "float"
  | VStr _ => "str"
  | VList _ => "list"
  | VDict _ => "dict"
  end.

(** [needle in s] on strings. *)
Fixpoint contains (needle s : string) : bool :=
  match s with
  | EmptyString => String.prefix needle EmptyString
  | String _ s' => (String.prefix needle s || contains needle s')%bool
  end.

(** The fields of [neox_args] that only the set-up and the driver read,
    around the fields that the training loop reads. *)
Record RunArgs : Type := {
  core : NeoXArgs;
  do_train : bool;
  do_test : bool;
  load : option string;
  soft_prompt_tuning : value
}.

(** [neox_args.iteration = i] *)
Definition set_iteration (i : Z) (a : NeoXArgs) : NeoXArgs := {|
  is_pipe_parallel := is_pipe_parallel a;
  gradient_accumulation_steps := gradient_accumulation_steps a;
  precision := precision a;
  train_iters := train_iters a;
  iteration := i;
  log_gradient_noise_scale := log_gradient_noise_scale a;
  save := save a;
  save_interval := save_interval a;
  eval_interval := eval_interval a;
  exit_interval := exit_interval a;
  do_valid := do_valid a;
  eval_iters := eval_iters a;
  log_interval := log_interval a;
  char_level_ppl := char_level_ppl a;
  eval_tasks := eval_tasks a;
  deepspeed_activation_checkpointing := deepspeed_activation_checkpointing a;
  eod_mask_loss := eod_mask_loss a;
  tokenizer := tokenizer a;
  fp16_lm_cross_entropy := fp16_lm_cross_entropy a;
  no_load_optim := no_load_optim a;
  optimizer_type := optimizer_type a;
  optimizer := optimizer a;
  weight_decay := weight_decay a;
  use_bnb_optimizer := use_bnb_optimizer a;
  lr := lr a;
  warmup := warmup a;
  lr_decay_iters := lr_decay_iters a;
  lr_decay_style := lr_decay_style a;
  min_lr := min_lr a;
  use_checkpoint_lr_scheduler := use_checkpoint_lr_scheduler a;
  override_lr_scheduler := override_lr_scheduler a
|}.

Definition resume_at (i : Z) (a : RunArgs) : RunArgs := {|
  core := set_iteration i (core a);
  do_train := do_train a;
  do_test := do_test a;
  load := load a;
  soft_prompt_tuning := soft_prompt_tuning a
|}.

(** The arguments of the [deepspeed.initialize(...)] call, next to the
    model and [neox_args]. *)
Record initialize_args : Type := {
  init_optimizer : option optimizer_obj;
  init_lr_scheduler : option AnnealingLR;
  init_dist_init_required : bool;
  init_model_parameters : option (list param_group);
  init_mpu : bool                      (* [mpu] is passed, rather than [None] *)
}.

(** [param.requires_grad = False] on a parameter record. *)
Definition frozen (p : param) : param :=
  {| param_name := param_name p; requires_grad := false; model_parallel := model_parallel p |}.

Class SetupExternals `{E : Externals} : Type := {
  Layer : Type;      (* the soft prompt layer *)
  initialize_neox : RunArgs -> heap X -> answer unit * X;
  (* [GPT2ModelPipe(neox_args, ..., inference, get_key_value)] *)
  gpt2_model_pipe : RunArgs -> bool -> bool -> heap X -> answer unit * X;
  (* [SoftEmbedding(neox_args, wte=getattr(model, "0").word_embeddings,
     n_tokens, init_string, init_range)] *)
  soft_embedding : RunArgs -> value -> value -> value -> heap X -> answer Layer * X;
  insert_layers : Layer -> Z -> heap X -> answer unit * X;
  named_parameters : heap X -> list param;
  (* [param.requires_grad = False] on the parameter of that name *)
  freeze : string -> X -> X;
  to_sequential : heap X -> answer unit * X;
  deepspeed_initialize : RunArgs -> initialize_args -> heap X -> answer unit * X;
  set_has_bool_tensors : bool -> heap X -> answer unit * X;
  set_batch_fn :
    (option (gmap string Tensor.ids) ->
     M ((Tensor.ids * Tensor.ids * FTensor) * (Tensor.ids * FTensor))) ->
    heap X -> answer unit * X;
  (* [load_checkpoint(neox_args, ..., inference, iteration)] *)
  load_checkpoint : RunArgs -> bool -> option Z -> heap X -> answer Z * X;
  count_params : heap X -> answer Z * X;
  build_train_valid_test_data_iterators :
    RunArgs -> heap X -> answer (option Iter * option Iter * option Iter) * X;
  initialize_wandb : RunArgs -> heap X -> answer unit * X
}.

Module SetupSig.
Definition get_model := Sig.mk "get_model" ["neox_args"] ["inference"; "get_key_value"].
Definition get_optimizer := Sig.mk "get_optimizer" ["model"; "neox_args"] [].
Definition get_learning_rate_scheduler :=
  Sig.mk "get_learning_rate_scheduler" ["optimizer"; "neox_args"] [].
Definition setup_model_and_optimizer :=
  Sig.mk "setup_model_and_optimizer" ["neox_args"] ["inference"; "get_key_value"; "iteration"].
Definition train :=
  Sig.mk "train"
    ["neox_args"; "model"; "optimizer"; "lr_scheduler"; "train_data_iterator";
     "valid_data_iterator"] [].
End SetupSig.

Section Setup.
Context `{SE : SetupExternals}.

(** The model lives on the heap: [get_model] returns nothing here. *)
Definition get_model (neox_args : RunArgs) (inference get_key_value : bool) : M unit :=
  print_rank_0 "building GPT2 model ..." ;;
  run_ext (gpt2_model_pipe neox_args inference get_key_value) ;;
  (match soft_prompt_tuning neox_args with
   | VNone => ret tt
   | VDict d =>
       if truthy (dict_get d "enabled" (VBool false)) then
         let* soft_prompt :=
           run_ext (soft_embedding neox_args
                      (dict_get d "n_tokens" (VInt 10))
                      (dict_get d "init_string" (VStr EmptyString))
                      (dict_get d "init_range" (VFloat 0.5%float))) in
         run_ext (insert_layers soft_prompt 1) ;;
         let* named := read named_parameters in
         for_each named
           (fun p =>
              if contains "soft_embedding" (param_name p) then ret tt
              else run_ext (fun h => (Returned tt, freeze (param_name p) (ext h))))
       else ret tt
   | v => raise (AttributeError ("'" +:+ type_name v +:+ "' object has no attribute 'get'"))
   end) ;;
  (if is_pipe_parallel (core neox_args) then ret tt else run_ext to_sequential).

(** Lines 422 to 442 of [setup_model_and_optimizer]: the model, the
    optimizer and the scheduler are built, and the arguments of
    [deepspeed.initialize] are put together. *)
Definition initialize_arguments (neox_args : RunArgs) (inference get_key_value : bool)
    : M initialize_args :=
  call SetupSig.get_model ["neox_args"; "inference"; "get_key_value"]
    (get_model neox_args inference get_key_value) ;;
  let* (optimizer_, param_groups) :=
    call SetupSig.get_optimizer ["model"; "neox_args"] (get_optimizer (core neox_args)) in
  let* lr_scheduler :=
    call SetupSig.get_learning_rate_scheduler ["optimizer"; "neox_args"]
      (get_learning_rate_scheduler optimizer_ (core neox_args)) in
  let model_parameters :=
    if no_load_optim (core neox_args) then None
    else match optimizer_ with
         | None => param_groups
         | Some _ => None
         end in
  ret {| init_optimizer := optimizer_;
         init_lr_scheduler := lr_scheduler;
         init_dist_init_required := false;
         init_model_parameters := model_parameters;
         init_mpu := negb (is_pipe_parallel (core neox_args)) |}.

(** The engine, its optimizer and its scheduler live on the heap; what is
    returned here is [neox_args] with [iteration] set.
    [neox_args.total_params], which is written and printed but not read,
    is a local here. *)
Definition setup_model_and_optimizer (neox_args : RunArgs) (inference get_key_value : bool)
    (iteration_ : option Z) : M RunArgs :=
  let* arguments := initialize_arguments neox_args inference get_key_value in
  run_ext (deepspeed_initialize neox_args arguments) ;;
  (if is_pipe_parallel (core neox_args) then
     run_ext (set_has_bool_tensors true) ;;
     run_ext (set_batch_fn (fun data => get_batch_pipe data (core neox_args)))
   else ret tt) ;;
  let* neox_args :=
    match load neox_args with
    | Some _ =>
        let* i := run_ext (load_checkpoint neox_args inference iteration_) in
        print_rank_0 "Loading checkpoint and starting from iteration {}" ;;
        ret (resume_at i neox_args)
    | None => ret (resume_at 0 neox_args)
    end in
  let* total_params := run_ext count_params in
  print_rank_0 " > total params: {}" ;;
  ret neox_args.

Definition pretrain (neox_args : RunArgs) : M unit :=
  run_ext (initialize_neox neox_args) ;;
  let* neox_args :=
    call SetupSig.setup_model_and_optimizer ["neox_args"; "inference"; "get_key_value"]
      (setup_model_and_optimizer neox_args false true None) in
  let* (train_data_iterator, valid_data_iterator, test_data_iterator) :=
    run_ext (build_train_valid_test_data_iterators neox_args) in
  print_rank_0 "Done with setups. \nStarting training ..." ;;
  run_ext (initialize_wandb neox_args) ;;
  let* iteration_ :=
    if (do_train neox_args && (0 <? train_iters (core neox_args)))%bool then
      call SetupSig.train
        ["neox_args"; "model"; "optimizer"; "lr_scheduler"; "train_data_iterator";
         "valid_data_iterator"]
        (train (core neox_args) train_data_iterator valid_data_iterator)
    else ret 0 in
  (if do_valid (core neox_args) then
     call Sig.evaluate_and_print_results
       ["neox_args"; "prefix"; "forward_step_func"; "data_iterator"; "model";
        "iteration"; "verbose"]
       (evaluate_and_print_results (core neox_args) forward_step_as_fn
          valid_data_iterator iteration_ false)
   else ret tt) ;;
  (if (truthy_str (save (core neox_args)) && negb (iteration_ =? 0))%bool then
     emit (EvSaveCheckpoint iteration_) ;; run_ext (save_checkpoint iteration_)
   else ret tt) ;;
  (if do_test neox_args then
     call Sig.evaluate_and_print_results
       ["neox_args"; "prefix"; "forward_step_func"; "data_iterator"; "model";
        "iteration"; "verbose"]
       (evaluate_and_print_results (core neox_args) forward_step_as_fn
          test_data_iterator 0 true)
   else ret tt).

(** [param.requires_grad = False] changes the flag of the parameters of
    that name, and nothing else. *)
Definition freeze_sets_flag : Prop :=
  forall name h,
    named_parameters
      {| training := training h; grad_enabled := grad_enabled h;
         ext := freeze name (ext h) |}
    = map (fun p => if String.eqb name (param_name p) then frozen p else p)
        (named_parameters h).

(** [model.to_sequential()] keeps the parameters. *)
Definition to_sequential_keeps_parameters : Prop :=
  forall h,
    named_parameters
      {| training := training h; grad_enabled := grad_enabled h;
         ext := snd (to_sequential h) |}
    = named_parameters h.

End Setup.

(** ** A concrete instance of the set-up collaborators

    The engine of the instance above, next to the model's named
    parameters and the iteration of the checkpoint on disk. *)

Module Lab.

Record state : Type := {
  engine : Toy.state;
  parameters : list param;
  checkpoint : Z
}.

Definition view (h : heap state) : heap Toy.state :=
  {| training := training h; grad_enabled := grad_enabled h; ext := engine (ext h) |}.

(** A collaborator of the engine, run on the engine's part of the state. *)
Definition lens {A : Type} (op : heap Toy.state -> answer A * Toy.state) (h : heap state)
    : answer A * state :=
  let '(r, s) := op (view h) in
  (r, {| engine := s; parameters := parameters (ext h); checkpoint := checkpoint (ext h) |}).

Definition ok {A : Type} (a : A) (h : heap state) : answer A * state := (Returned a, ext h).

Definition saved_at (i : Z) (h : heap state) : answer unit * state :=
  (Returned tt,
   {| engine := engine (ext h); parameters := parameters (ext h); checkpoint := i |}).

(** [param.model_parallel = False] on the parameter of that name. *)
Definition tag_ (name : string) (s : state) : state :=
  {| engine := engine s;
     parameters := map (tag_named name) (parameters s);
     checkpoint := checkpoint s |}.

Definition externals : Externals := {|
  X := state;
  Iter := unit;
  FTensor := float;
  iter_next := fun it => lens (Toy.next_ it);
  broadcast_data := fun keys data => lens (Toy.broadcast keys data);
  get_ltor_masks_and_position_ids := Toy.masks;
  model_call := fun _ _ _ => ok 2%float;
  cross_entropy := fun outputs _ _ _ => outputs;
  eval_batch := fun _ _ => ok (Loss 2%float);
  train_batch := fun _ => lens (fun h => (Returned 2%float, Toy.updated (ext h)));
  backward := fun _ => lens (fun h => (Returned tt, Toy.accumulated (ext h)));
  step := lens (fun h => (Returned tt, Toy.updated (ext h)));
  optimizer_overflow := fun h => Toy.overflow (engine (ext h));
  optimizer_param_groups := fun _ => [ {[ "lr" := VFloat 0.1%float ]} ];
  optimizer_cur_scale := fun _ => VInt 1;
  reduce_losses := fun losses => lens (Toy.reduce losses);
  tensor_mean := fun t => t;
  tensor_item := fun t => t;
  math_exp := Toy.exp_;
  get_params_for_weight_decay_optimization :=
    fun h => [ {| params := parameters (ext h); group_weight_decay := 0.01%float |} ];
  set_model_parallel := tag_;
  filter_trainable_params := Toy.trainable;
  bitsandbytes_installed := false;
  apex_installed := false;
  get_noise_scale_logger := ok tt;
  overflow_monitor_new := ok tt;
  overflow_monitor_check := fun _ => ok tt;
  noise_scale_update := ok tt;
  training_log := fun _ => ok false;
  save_checkpoint := saved_at;
  tb_wandb_log := fun _ _ _ => ok tt;
  dist_barrier := ok tt;
  char_counter_new := fun _ => ok tt;
  tokens_per_char := fun _ => ok 1%float;
  char_counter_inner := fun _ => Some tt;
  checkpointing_reset := ok tt;
  run_eval_harness := fun _ => ok {[ "lambada" := VDict {[ "acc" := VFloat 0.5%float ]} ]}
|}.

Definition soft_prompt_weight : param :=
  {| param_name := "1.soft_embedding_weight"; requires_grad := true; model_parallel := None |}.

Definition inserted (h : heap state) : answer unit * state :=
  (Returned tt,
   {| engine := engine (ext h);
      parameters := soft_prompt_weight :: parameters (ext h);
      checkpoint := checkpoint (ext h) |}).

Definition freeze_ (name : string) (s : state) : state :=
  {| engine := engine s;
     parameters :=
       map (fun p => if String.eqb name (param_name p) then frozen p else p) (parameters s);
     checkpoint := checkpoint s |}.

(** The type of a collaborator of the instance that answers with an [A]. *)
Definition op (A : Type) : Type := heap (@X externals) -> answer A * @X externals.

Definition setup : @SetupExternals externals := {|
  Layer := unit;
  initialize_neox := fun _ => (ok tt : op unit);
  gpt2_model_pipe := fun _ _ _ => (ok tt : op unit);
  soft_embedding := fun _ _ _ _ => (ok tt : op unit);
  insert_layers := fun _ _ => (inserted : op unit);
  named_parameters := fun h : heap (@X externals) => parameters (ext h);
  freeze := (freeze_ : string -> @X externals -> @X externals);
  to_sequential := (ok tt : op unit);
  deepspeed_initialize := fun _ _ => (ok tt : op unit);
  set_has_bool_tensors := fun _ => (ok tt : op unit);
  set_batch_fn := fun _ => (ok tt : op unit);
  load_checkpoint := fun _ _ _ => ((fun h => (Returned (checkpoint (ext h)), ext h)) : op Z);
  count_params :=
    ((fun h => (Returned (Z.of_nat (length (parameters (ext h)))), ext h)) : op Z);
  build_train_valid_test_data_iterators :=
    fun _ => (ok (Some tt, Some tt, Some tt) : op (option unit * option unit * option unit));
  initialize_wandb := fun _ => (ok tt : op unit)
|}.

(** A model of two parameters, a checkpoint of iteration 2 on disk. *)
Definition start : @world externals :=
  @Build_world externals
    {| training := false; grad_enabled := true;
       ext := {| engine := ext (mem (Toy.start false true false));
                 parameters :=
                   [ {| param_name := "0.word_embeddings.weight";
                        requires_grad := true; model_parallel := Some true |};
                     {| param_name := "2.attention.dense.weight";
                        requires_grad := true; model_parallel := None |} ];
                 checkpoint := 2 |} |}
    [].

(** [a] with checkpoints under [dir] every [save_every] iterations and a
    validation every [eval_every] iterations. *)
Definition scheduled (dir : option string) (save_every eval_every : option Z)
    (valid : bool) (a : NeoXArgs) : NeoXArgs := {|
  is_pipe_parallel := is_pipe_parallel a;
  gradient_accumulation_steps := gradient_accumulation_steps a;
  precision := precision a;
  train_iters := train_iters a;
  iteration := iteration a;
  log_gradient_noise_scale := log_gradient_noise_scale a;
  save := dir;
  save_interval := save_every;
  eval_interval := eval_every;
  exit_interval := exit_interval a;
  do_valid := valid;
  eval_iters := eval_iters a;
  log_interval := log_interval a;
  char_level_ppl := char_level_ppl a;
  eval_tasks := eval_tasks a;
  deepspeed_activation_checkpointing := deepspeed_activation_checkpointing a;
  eod_mask_loss := eod_mask_loss a;
  tokenizer := tokenizer a;
  fp16_lm_cross_entropy := fp16_lm_cross_entropy a;
  no_load_optim := no_load_optim a;
  optimizer_type := optimizer_type a;
  optimizer := optimizer a;
  weight_decay := weight_decay a;
  use_bnb_optimizer := use_bnb_optimizer a;
  lr := lr a;
  warmup := warmup a;
  lr_decay_iters := lr_decay_iters a;
  lr_decay_style := lr_decay_style a;
  min_lr := min_lr a;
  use_checkpoint_lr_scheduler := use_checkpoint_lr_scheduler a;
  override_lr_scheduler := override_lr_scheduler a
|}.

(** Four iterations of the pipeline engine, a checkpoint every second
    iteration, a validation at the end. *)
Definition four_iterations : NeoXArgs :=
  scheduled (Some "checkpoints") (Some 2) None true (Toy.retarget "Adam" 4 Toy.pipeline).

(** The pipeline run with [log_interval = 0]. *)
Definition silent : NeoXArgs := {|
  is_pipe_parallel := true;
  gradient_accumulation_steps := 1;
  precision := "fp16";
  train_iters := 3;
  iteration := 0;
  log_gradient_noise_scale := false;
  save := None;
  save_interval := None;
  eval_interval := None;
  exit_interval := None;
  do_valid := false;
  eval_iters := 2;
  log_interval := 0;
  char_level_ppl := false;
  eval_tasks := [];
  deepspeed_activation_checkpointing := false;
  eod_mask_loss := false;
  tokenizer := {| eod := 0 |};
  fp16_lm_cross_entropy := false;
  no_load_optim := false;
  optimizer_type := "Adam";
  optimizer := Toy.adam_block;
  weight_decay := 0.01%float;
  use_bnb_optimizer := false;
  lr := 0.0006%float;
  warmup := 0.01%float;
  lr_decay_iters := None;
  lr_decay_style := "cosine";
  min_lr := 0%float;
  use_checkpoint_lr_scheduler := false;
  override_lr_scheduler := false
|}.

Definition run (a : NeoXArgs) (train_ test_ : bool) (load_ : option string) (soft : value)
    : RunArgs :=
  {| core := a; do_train := train_; do_test := test_; load := load_;
     soft_prompt_tuning := soft |}.

(** An optimizer block whose ["params"] hold a weight decay. *)
Definition decayed_block : value :=
  VDict {[ "type" := VStr "Adam";
           "params" := VDict {[ "lr" := VFloat 0.0006%float;
                                "weight_decay" := VFloat 0.1%float ]} ]}.

End Lab.

(** ** Facts about Python's numbers and strings *)

(** Shifting out one zero bit is exact. *)
Lemma shr_1_even (p : positive) :
  shr_1 {| shr_m := Z.pos p~0; shr_r := false; shr_s := false |}
  = {| shr_m := Z.pos p; shr_r := false; shr_s := false |}.
Proof. reflexivity. Qed.

(** Multiplying a valid binary64 value by [1.0] gives it back. *)
Lemma SF64mul_one_r (s : spec_float) :
  valid_binary prec emax s = true ->
  SF64mul s (S754_finite false 4503599627370496 (-52)) = s.
Proof.
  destruct s as [sx|sx| |sx m e]; intros Hv; cbn [SF64mul SFmul].
  - now rewrite xorb_false_r.
  - now rewrite xorb_false_r.
  - reflexivity.
  - rewrite xorb_false_r.
    cbn [valid_binary] in Hv. unfold bounded, canonical_mantissa in Hv.
    apply andb_prop in Hv. destruct Hv as [Hc Hb].
    apply Z.eqb_eq in Hc.
    unfold binary_round_aux, shr_fexp.
    rewrite Pos.mul_comm.
    cbv [Pos.mul].
    cbn [Zdigits2 digits2_pos shr_record_of_loc].
    replace (Z.pos (Pos.succ _)) with (Z.pos (digits2_pos m) + 52) by lia.
    replace (Z.pos (digits2_pos m) + 52 + (e + -52)) with (Z.pos (digits2_pos m) + e) by lia.
    rewrite Hc.
    replace (e - (e + -52)) with 52 by lia.
    cbn [shr SpecFloat.iter_pos shr_1 orb shr_m loc_of_shr_record round_nearest_even Zdigits2].
    replace (e + -52 + 52) with e by lia.
    rewrite Hc, Z.sub_diag. cbn [shr shr_record_of_loc shr_m].
    now rewrite Hb.
Qed.

(** [x * 1.0 == x] for every binary64 value [x] (NaN is one value here). *)
Lemma float_mul_one_r (x : float) : (x * 1)%float = x.
Proof.
  apply Prim2SF_inj. rewrite mul_spec.
  change (Prim2SF 1) with (S754_finite false 4503599627370496 (-52)).
  apply SF64mul_one_r, Prim2SF_valid.
Qed.

Lemma bind_keywords_in_budget sg given : bind_keywords sg given <> OutOfFuel.
Proof.
  unfold bind_keywords.
  destruct (List.find _ given); [discriminate|].
  destruct (List.find _ (sig_required sg)); discriminate.
Qed.

Lemma subscript_in_budget v key : subscript v key <> OutOfFuel.
Proof. destruct v; simpl; try discriminate. destruct (d !! key); discriminate. Qed.

Lemma mod_in_budget a b : mod_ a b <> OutOfFuel.
Proof. unfold mod_. destruct (b =? 0); discriminate. Qed.

Lemma float_of_int_in_budget n : float_of_int n <> OutOfFuel.
Proof. unfold float_of_int. destruct (binary_normalize _ _ _ _ _); discriminate. Qed.

Lemma format_6E_in_budget v : format_6E v <> OutOfFuel.
Proof. destruct v; simpl; try discriminate. destruct (float_of_int z); discriminate. Qed.

(** ** The monad: unfolding and inversion *)

Section MonadFacts.
Context `{E : Externals}.

Lemma bind_ok {A B} (m : M A) (k : A -> M B) w a w1 :
  m w = (Ok a, w1) -> bind m k w = k a w1.
Proof. intros H. unfold bind. now rewrite H. Qed.

Lemma bind_raise {A B} (m : M A) (k : A -> M B) w e w1 :
  m w = (Raise e, w1) -> bind m k w = (Raise e, w1).
Proof. intros H. unfold bind. now rewrite H. Qed.

Lemma bind_inv_ok {A B} (m : M A) (k : A -> M B) w b w' :
  bind m k w = (Ok b, w') -> exists a w1, m w = (Ok a, w1) /\ k a w1 = (Ok b, w').
Proof.
  unfold bind. destruct (m w) as [[a|e|] w1]; intros H; try discriminate.
  now exists a, w1.
Qed.

Lemma ret_inv {A} (a b : A) w w' : ret a w = (Ok b, w') -> a = b /\ w = w'.
Proof. unfold ret. intros H. now inversion H. Qed.

Lemma emit_inv ev w (u : unit) w' :
  emit ev w = (Ok u, w') -> w' = {| mem := mem w; trace := (trace w ++ [ev])%list |}.
Proof. unfold emit. intros H. now inversion H. Qed.

Lemma read_inv {A} (f : heap X -> A) w a w' :
  read f w = (Ok a, w') -> a = f (mem w) /\ w' = w.
Proof. unfold read. intros H. now inversion H. Qed.

Lemma call_inv_ok {A} sg given (body : M A) w a w' :
  call sg given body w = (Ok a, w') -> bind_keywords sg given = Ok tt /\ body w = (Ok a, w').
Proof.
  unfold call. intros H. apply bind_inv_ok in H. destruct H as (u & w1 & H1 & H2).
  unfold lift in H1. inversion H1; subst. destruct u. now split.
Qed.

Lemma run_ext_inv {A} (op : heap X -> answer A * X) w a w' :
  run_ext op w = (Ok a, w') ->
  exists x, op (mem w) = (Returned a, x) /\ w' = set_ext x w.
Proof.
  unfold run_ext. destruct (op (mem w)) as [[a0|e] x]; intros H; inversion H; subst.
  now exists x.
Qed.

Lemma lift_answer_inv {A} (r : answer A) w a w' :
  lift_answer r w = (Ok a, w') -> r = Returned a /\ w' = w.
Proof. unfold lift_answer. destruct r; intros H; inversion H; now subst. Qed.

End MonadFacts.

(** ** Compositional reasoning with [runs] *)

Section RunsFacts.
Context `{E : Externals}.
Context (R : world -> world -> Prop) `{!PreOrder R}.

Lemma runs_ret {A} (a : A) : runs R (ret a).
Proof. intros w. split; [discriminate | reflexivity]. Qed.

Lemma runs_raise {A} e : runs R (@raise _ A e).
Proof. intros w. split; [discriminate | reflexivity]. Qed.

Lemma runs_lift {A} (o : outcome A) : o <> OutOfFuel -> runs R (lift o).
Proof. intros H w. split; [exact H | reflexivity]. Qed.

Lemma runs_lift_answer {A} (r : answer A) : runs R (lift_answer r).
Proof. intros w. unfold lift_answer. destruct r; (split; [discriminate | reflexivity]). Qed.

Lemma runs_read {A} (f : heap X -> A) : runs R (read f).
Proof. intros w. split; [discriminate | reflexivity]. Qed.

Lemma runs_bind {A B} (m : M A) (k : A -> M B) :
  runs R m -> (forall a, runs R (k a)) -> runs R (bind m k).
Proof.
  intros Hm Hk w. specialize (Hm w). unfold bind.
  destruct (m w) as [[a|e|] w1]; simpl in Hm; destruct Hm as [Hf HR].
  - destruct (Hk a w1) as [Hf' HR']. split; [exact Hf'|]. now transitivity w1.
  - split; [discriminate | exact HR].
  - now contradiction Hf.
Qed.

Lemma runs_call {A} sg given (body : M A) : runs R body -> runs R (call sg given body).
Proof.
  intros H. unfold call. apply runs_bind; [|intros _; exact H].
  apply runs_lift, bind_keywords_in_budget.
Qed.

Lemma runs_iterate {S} n (body : S -> M S) :
  (forall s, runs R (body s)) -> forall s, runs R (iterate n body s).
Proof.
  intros Hb. induction n as [|n IH]; intros s; simpl.
  - apply runs_ret.
  - apply runs_bind; [apply Hb | exact IH].
Qed.

Lemma runs_for_range {S} n (body : S -> M S) s :
  (forall s, runs R (body s)) -> runs R (for_range n body s).
Proof. intros Hb. unfold for_range. now apply runs_iterate. Qed.

Lemma runs_for_each {A} (l : list A) (body : A -> M unit) :
  (forall a, runs R (body a)) -> runs R (for_each l body).
Proof.
  intros Hb. induction l as [|a l IH]; simpl.
  - apply runs_ret.
  - apply runs_bind; [apply Hb | intros _; exact IH].
Qed.

End RunsFacts.

(** ** The two relations: frames and stamped traces *)

Section FramesFacts.
Context `{E : Externals} {S : Type} (proj : X -> S).

#[global] Instance frames_preorder : PreOrder (frames proj).
Proof.
  split.
  - intros w. reflexivity.
  - intros w1 w2 w3 H12 H23. unfold frames in *. congruence.
Qed.

Lemma frames_emit ev : runs (frames proj) (emit ev).
Proof. intros w. split; [discriminate | reflexivity]. Qed.

Lemma frames_set_training b : runs (frames proj) (set_training b).
Proof. intros w. split; [discriminate | reflexivity]. Qed.

Lemma frames_run_ext {A} (op : heap X -> answer A * X) :
  (forall h, proj (snd (op h)) = proj (ext h)) -> runs (frames proj) (run_ext op).
Proof.
  intros H w. specialize (H (mem w)). unfold run_ext, frames.
  destruct (op (mem w)) as [[a|e] x]; simpl in *; (split; [discriminate | exact H]).
Qed.

Lemma frames_with_no_grad {A} (body : M A) :
  runs (frames proj) body -> runs (frames proj) (with_no_grad body).
Proof.
  intros H w. unfold with_no_grad.
  specialize (H (set_grad_enabled false w)).
  destruct (body (set_grad_enabled false w)) as [r w1]. simpl in *.
  destruct H as [Hf HR]. split; [exact Hf | exact HR].
Qed.

End FramesFacts.

Section StampsFacts.
Context `{E : Externals} (P : bool -> event -> Prop).

#[global] Instance stamps_preorder : PreOrder (stamps P).
Proof.
  split.
  - intros w. split; [reflexivity|]. exists []. split; [now rewrite app_nil_r | constructor].
  - intros w1 w2 w3 [Hg1 (evs1 & Ht1 & Hp1)] [Hg2 (evs2 & Ht2 & Hp2)].
    split; [congruence|]. exists (evs1 ++ evs2)%list. split.
    + rewrite Ht2, Ht1. now rewrite app_assoc.
    + apply Forall_app. split; [exact Hp1|]. now rewrite <- Hg1.
Qed.

Lemma stamps_emit ev : (forall g, P g ev) -> runs (stamps P) (emit ev).
Proof.
  intros H w. split; [discriminate|]. split; [reflexivity|].
  exists [ev]. split; [reflexivity|]. constructor; [apply H | constructor].
Qed.

Lemma stamps_same {A} (m : M A) :
  (forall w, fst (m w) <> OutOfFuel /\ grad_enabled (mem (snd (m w))) = grad_enabled (mem w)
             /\ trace (snd (m w)) = trace w) ->
  runs (stamps P) m.
Proof.
  intros H w. destruct (H w) as (Hf & Hg & Ht). split; [exact Hf|]. split; [exact Hg|].
  exists []. split; [now rewrite app_nil_r | constructor].
Qed.

Lemma stamps_set_training b : runs (stamps P) (set_training b).
Proof. apply stamps_same. intros w. repeat split. discriminate. Qed.

Lemma stamps_run_ext {A} (op : heap X -> answer A * X) : runs (stamps P) (run_ext op).
Proof.
  apply stamps_same. intros w. unfold run_ext.
  destruct (op (mem w)) as [[a|e] x]; repeat split; discriminate.
Qed.

(** A call that records the switch it runs under. *)
Lemma stamps_stamp {A} (ev : bool -> event) (k : M A) :
  (forall g, P g (ev g)) -> runs (stamps P) k ->
  runs (stamps P) (bind (read grad_enabled) (fun g => bind (emit (ev g)) (fun _ => k))).
Proof.
  intros Hev Hk w.
  set (w1 := {| mem := mem w; trace := (trace w ++ [ev (grad_enabled (mem w))])%list |}).
  destruct (Hk w1) as [Hf [Hg (evs & Ht & Hp)]].
  change (bind (read grad_enabled) (fun g => bind (emit (ev g)) (fun _ => k)) w)
    with (k w1).
  split; [exact Hf|]. split; [exact Hg|].
  exists (ev (grad_enabled (mem w)) :: evs). split.
  - rewrite Ht. subst w1. simpl. now rewrite <- app_assoc.
  - constructor; [apply Hev | exact Hp].
Qed.

Lemma stamps_mono (Q : bool -> event -> Prop) {A} (m : M A) :
  (forall g ev, P g ev -> Q g ev) -> runs (stamps P) m -> runs (stamps Q) m.
Proof.
  intros HPQ H w. destruct (H w) as [Hf [Hg (evs & Ht & Hp)]].
  split; [exact Hf|]. split; [exact Hg|]. exists evs. split; [exact Ht|].
  eapply Forall_impl; [exact Hp | intros ev; apply HPQ].
Qed.

(** Under [torch.no_grad()] the body runs with the switch off, whatever
    the switch was, and the switch is put back afterwards. *)
Lemma stamps_with_no_grad (Q : bool -> event -> Prop) {A} (body : M A) :
  (forall g ev, P false ev -> Q g ev) -> runs (stamps P) body ->
  runs (stamps Q) (with_no_grad body).
Proof.
  intros HPQ H w. unfold with_no_grad.
  specialize (H (set_grad_enabled false w)).
  destruct (body (set_grad_enabled false w)) as [r w1]. simpl in *.
  destruct H as [Hf [Hg (evs & Ht & Hp)]].
  split; [exact Hf|]. split; [reflexivity|]. exists evs. split; [exact Ht|].
  eapply Forall_impl; [exact Hp | intros ev; apply HPQ].
Qed.

End StampsFacts.

(** Decompose a goal [runs R m] along the structure of [m]. *)
Create HintDb runs.

Ltac runs_structure :=
  repeat first
    [ solve [ auto with runs ]
    | apply runs_ret; typeclasses eauto
    | apply runs_raise; typeclasses eauto
    | apply runs_read; typeclasses eauto
    | apply runs_lift_answer; typeclasses eauto
    | apply runs_lift;
      [ typeclasses eauto
      | first [ apply bind_keywords_in_budget | apply subscript_in_budget
              | apply mod_in_budget | apply float_of_int_in_budget
              | apply format_6E_in_budget ] ]
    | apply runs_call; [ typeclasses eauto | ]
    | apply runs_for_range; [ typeclasses eauto | intros ]
    | apply runs_for_each; [ typeclasses eauto | intros ]
    | apply stamps_stamp; [ intros; first [ exact I | simpl; auto ] | ]
    | apply stamps_emit; intros; first [ exact I | simpl; auto; fail ]
    | apply stamps_set_training
    | apply stamps_run_ext
    | apply frames_emit
    | apply frames_set_training
    | apply runs_bind; [ typeclasses eauto | | intros ]
    | match goal with
      | |- runs _ (if ?b then _ else _) => destruct b
      | |- runs _ (match ?x with _ => _ end) => destruct x
      | |- runs _ (let '(_, _) := ?x in _) => destruct x
      end ].

(** ** What the forward path adds to the trace *)

Section ForwardFacts.
Context `{E : Externals}.

Lemma _get_batch_forward_only args tok keys data :
  runs (stamps forward_only) (_get_batch args tok keys data).
Proof. unfold _get_batch. runs_structure. Qed.

Lemma get_batch_forward_only args it : runs (stamps forward_only) (get_batch args it).
Proof.
  pose proof _get_batch_forward_only.
  unfold get_batch. runs_structure.
Qed.

Lemma forward_step_forward_only it args rl :
  runs (stamps forward_only) (forward_step it args rl).
Proof.
  pose proof get_batch_forward_only.
  unfold forward_step, timer. runs_structure.
Qed.

End ForwardFacts.

(** ** What [evaluate] adds to the trace and leaves alone *)

Section EvaluateFacts.
Context `{E : Externals}.

Lemma forward_only_evaluation g ev : forward_only false ev -> evaluation_event g ev.
Proof. destruct ev; simpl; tauto. Qed.

Lemma evaluate_loop_forward_only args it verbose :
  forall fuel i losses,
    (Z.to_nat (eval_iters args - i) <= fuel)%nat ->
    runs (stamps forward_only)
      (evaluate_loop fuel args forward_step_as_fn it verbose i losses).
Proof.
  pose proof forward_step_forward_only as Hfs.
  induction fuel as [|fuel IH]; intros i losses Hfuel; simpl;
    destruct (i <? eval_iters args) eqn:Hlt;
    try (apply Z.ltb_lt in Hlt; lia);
    unfold forward_step_as_fn, print_rank_0; runs_structure.
  apply IH. apply Z.ltb_lt in Hlt. lia.
Qed.

Lemma evaluate_events args it verbose :
  runs (stamps evaluation_event) (evaluate args forward_step_as_fn it verbose).
Proof.
  assert (Hloop : forall it',
             runs (stamps evaluation_event)
               (with_no_grad
                  (evaluate_loop (Z.to_nat (eval_iters args)) args forward_step_as_fn
                     it' verbose 0 []))).
  { intros it'. apply (stamps_with_no_grad forward_only).
    - intros g ev. apply forward_only_evaluation.
    - apply evaluate_loop_forward_only. rewrite Z.sub_0_r. lia. }
  unfold evaluate, print_rank_0. runs_structure.
Qed.

Section Frame.
Context {S : Type} (proj : X -> S) (Hro : read_only_collaborators proj).

Lemma forward_step_frames it args rl : runs (frames proj) (forward_step it args rl).
Proof.
  destruct Hro as (Hnext & Hbc & Hcall & Hevb & _).
  pose proof (fun it => frames_run_ext proj _ (Hnext it)) as F1.
  pose proof (fun k d => frames_run_ext proj _ (Hbc k d)) as F2.
  pose proof (fun t p a => frames_run_ext proj _ (Hcall t p a)) as F3.
  pose proof (fun it rl => frames_run_ext proj _ (Hevb it rl)) as F4.
  unfold forward_step, get_batch, _get_batch, timer. runs_structure.
Qed.

Lemma evaluate_loop_frames args it verbose :
  forall fuel i losses,
    (Z.to_nat (eval_iters args - i) <= fuel)%nat ->
    runs (frames proj) (evaluate_loop fuel args forward_step_as_fn it verbose i losses).
Proof.
  pose proof forward_step_frames as Hfs.
  destruct Hro as (_ & _ & _ & _ & _ & _ & _ & Hreset & _).
  pose proof (frames_run_ext proj _ Hreset) as F1.
  induction fuel as [|fuel IH]; intros i losses Hfuel; simpl;
    destruct (i <? eval_iters args) eqn:Hlt;
    try (apply Z.ltb_lt in Hlt; lia);
    unfold forward_step_as_fn, print_rank_0; runs_structure.
  apply IH. apply Z.ltb_lt in Hlt. lia.
Qed.

Lemma evaluate_frames args it verbose :
  runs (frames proj) (evaluate args forward_step_as_fn it verbose).
Proof.
  assert (Hloop : forall it',
             runs (frames proj)
               (with_no_grad
                  (evaluate_loop (Z.to_nat (eval_iters args)) args forward_step_as_fn
                     it' verbose 0 []))).
  { intros it'. apply frames_with_no_grad, evaluate_loop_frames. rewrite Z.sub_0_r. lia. }
  destruct Hro as (_ & _ & _ & _ & Hred & Hnew & Htpc & _ & Hharness).
  pose proof (fun ls => frames_run_ext proj _ (Hred ls)) as F1.
  pose proof (fun it => frames_run_ext proj _ (Hnew it)) as F2.
  pose proof (fun c => frames_run_ext proj _ (Htpc c)) as F3.
  pose proof (fun tasks => frames_run_ext proj _ (Hharness tasks)) as F4.
  unfold evaluate, print_rank_0. runs_structure.
Qed.

End Frame.

(** Calls that [evaluate] may make are not updates. *)
Lemma evaluation_events_update_nothing g evs :
  Forall (evaluation_event g) evs -> List.filter is_update evs = [].
Proof.
  induction 1 as [|ev evs Hev _ IH]; [reflexivity|].
  destruct ev; simpl in *; try exact IH; contradiction.
Qed.

(** On return the model is in training mode. *)
Lemma evaluate_training_mode args fs it verbose w r w' :
  evaluate args fs it verbose w = (Ok r, w') -> training (mem w') = true.
Proof.
  unfold evaluate. intros H.
  repeat (apply bind_inv_ok in H; destruct H as (? & ? & ? & H); cbv beta in H).
  apply ret_inv in H. destruct H as [_ <-].
  match goal with
  | Hs : set_training true _ = (Ok _, _) |- _ => unfold set_training in Hs; now inversion Hs
  end.
Qed.

End EvaluateFacts.

(** ** The evaluator (C8) *)

Section Evaluator.
Context `{E : Externals}.

(** C8 (as amended): after every call to [evaluate] that returns, the
    model is in training mode whatever the mode before; the autograd switch
    is as the caller left it; [evaluate] makes no call that updates
    parameters or optimizer state, its forward passes all run with the
    switch off, and the evaluation-harness call, made after the no-grad
    block, runs with the switch as the caller left it; any part of the
    collaborators' state that the forward-only collaborators leave alone is
    left alone by [evaluate]. *)
Theorem evaluate_restores_training_and_updates_nothing args it verbose w :
  let res := evaluate args forward_step_as_fn it verbose w in
  fst res <> OutOfFuel /\
  (forall r, fst res = Ok r -> training (mem (snd res)) = true) /\
  grad_enabled (mem (snd res)) = grad_enabled (mem w) /\
  (exists evs,
      trace (snd res) = (trace w ++ evs)%list /\
      Forall (evaluation_event (grad_enabled (mem w))) evs /\
      List.filter is_update evs = []) /\
  (forall S (proj : X -> S),
      read_only_collaborators proj -> proj (ext (mem (snd res))) = proj (ext (mem w))).
Proof.
  intros res. subst res.
  destruct (evaluate_events args it verbose w) as [Hfuel [Hgrad Hevs]].
  split; [exact Hfuel|]. split; [|split; [exact Hgrad|split]].
  2:{ destruct Hevs as (evs & Ht & Hp). exists evs.
      split; [exact Ht|]. split; [exact Hp|]. eapply evaluation_events_update_nothing, Hp. }
  - intros r Hr.
    destruct (evaluate args forward_step_as_fn it verbose w) as [o w'] eqn:Heq.
    simpl in Hr. subst o. now apply evaluate_training_mode in Heq.
  - intros S proj Hro.
    now destruct (evaluate_frames proj Hro args it verbose w) as [_ Hfr].
Qed.

End Evaluator.

(** The forward-only collaborators of the concrete instance do not touch
    what the engine has learned. *)
Lemma toy_read_only : read_only_collaborators (E := Toy.externals) Toy.learned.
Proof.
  repeat split; intros; destruct h as [t g x]; simpl; try reflexivity.
  - unfold Toy.next_. simpl. destruct (Toy.queue x); reflexivity.
  - unfold Toy.broadcast. destruct d; reflexivity.
  - unfold Toy.reduce. destruct ls as [|[l|l o] ls]; reflexivity.
Qed.

(** C8, on a run: evaluation with harness tasks, starting in inference
    mode, ends in training mode and with the weights untouched. *)
Lemma evaluate_restores_training_run :
  let args := Toy.config true 1 None true ["lambada"] false "Adam" Toy.adam_block in
  let res := evaluate (E := Toy.externals) args forward_step_as_fn (Some tt) false
               (Toy.start false true false) in
  training (mem (snd res)) = true /\
  Toy.learned (ext (mem (snd res))) = (0%nat, 0%nat).
Proof.
  intros args res.
  destruct (evaluate_restores_training_and_updates_nothing (E := Toy.externals)
              args (Some tt) false (Toy.start false true false))
    as (_ & Htrain & _ & _ & Hframe).
  split.
  - eapply Htrain. vm_compute. reflexivity.
  - apply (Hframe _ Toy.learned toy_read_only).
Defined.

(** C8 as stated fails: with harness tasks configured, and the caller
    running with gradient tracking on, not every model-running call of
    [evaluate] runs with gradient tracking off (the harness call does not),
    although the model does end in training mode. *)
Lemma evaluate_harness_runs_with_grad :
  let args := Toy.config true 1 None false ["lambada"] false "Adam" Toy.adam_block in
  let res := evaluate (E := Toy.externals) args forward_step_as_fn (Some tt) false
               (Toy.start false true false) in
  ~ (training (mem (snd res)) = true /\ all_without_grad (trace (snd res))).
Proof.
  intros args res [_ H]. vm_compute in H. discriminate H.
Qed.

(** ** The training step and the training loop *)

(** Split a hypothesis [H : (let* x := m in k) w = (Ok b, w')] into the
    steps of the chain, keeping one equation for each step. *)
Ltac invert_binds H :=
  repeat first
    [ apply bind_inv_ok in H; destruct H as (? & ? & ? & H); cbv beta in H
    | match type of H with
      | (let '(_, _) := ?x in _) _ = _ => destruct x
      end ].

Section TrainFacts.
Context `{E : Externals}.

Lemma logged_app evs1 evs2 : logged (evs1 ++ evs2) = (logged evs1 ++ logged evs2)%list.
Proof.
  induction evs1 as [|ev evs1 IH]; simpl; [reflexivity|].
  destruct ev; simpl; rewrite IH; reflexivity.
Qed.

Lemma logged_quiet g evs : Forall (quiet g) evs -> logged evs = [].
Proof.
  induction 1 as [|ev evs Hq _ IH]; [reflexivity|].
  destruct ev; simpl in *; try exact IH; contradiction.
Qed.

Lemma quiet_logged {A} (m : M A) w r w' :
  runs (stamps quiet) m -> m w = (r, w') -> logged (trace w') = logged (trace w).
Proof.
  intros Hm Heq. destruct (Hm w) as [_ [_ (evs & Ht & Hq)]].
  rewrite Heq in Ht. simpl in Ht. rewrite Ht, logged_app.
  rewrite (logged_quiet _ _ Hq). apply app_nil_r.
Qed.

Lemma forward_only_quiet g ev : forward_only g ev -> quiet g ev.
Proof. destruct ev; simpl; tauto. Qed.

Lemma evaluation_event_quiet g ev : evaluation_event g ev -> quiet g ev.
Proof. destruct ev; simpl; tauto. Qed.

Lemma backward_step_quiet args loss : runs (stamps quiet) (backward_step args loss).
Proof. unfold backward_step, timer. runs_structure. Qed.

Lemma micro_batch_quiet args it losses : runs (stamps quiet) (micro_batch args it losses).
Proof.
  pose proof (fun it rl =>
                stamps_mono forward_only quiet _ forward_only_quiet
                  (forward_step_forward_only it args rl)) as Hfs.
  pose proof backward_step_quiet as Hbs.
  unfold micro_batch, timer. runs_structure.
Qed.

Lemma train_step_pipe_quiet args it : runs (stamps quiet) (train_step_pipe args it).
Proof. unfold train_step_pipe, timer. runs_structure. Qed.

Lemma train_step_quiet args it : runs (stamps quiet) (train_step args it).
Proof.
  pose proof micro_batch_quiet as Hmb.
  pose proof train_step_pipe_quiet as Hpipe.
  unfold train_step. runs_structure.
Qed.

Lemma evaluate_and_print_results_quiet args it i verbose :
  runs (stamps quiet) (evaluate_and_print_results args forward_step_as_fn it i verbose).
Proof.
  pose proof (fun it verbose =>
                stamps_mono evaluation_event quiet _ evaluation_event_quiet
                  (evaluate_events args it verbose)) as Hev.
  unfold evaluate_and_print_results, print_rank_0. runs_structure.
Qed.

(** The exit block never returns. *)
Lemma synchronized_exit_never_returns w a w' : synchronized_exit w <> (Ok a, w').
Proof.
  unfold synchronized_exit, print_rank_0. intros H.
  invert_binds H. unfold raise in H. discriminate H.
Qed.




Lemma train_loop_returns args tit vit :
  forall fuel i rmf w n w',
    train_loop fuel args tit vit i rmf w = (Ok n, w') ->
    n = Z.max i (train_iters args) /\
    logged (trace w') = (logged (trace w) ++ count_up i (Z.to_nat (n - i)))%list /\
    (forall k, i < k <= n -> interval_hit (exit_interval args) k = false).
Proof.
  pose proof (train_step_quiet args) as Hts.
  pose proof (evaluate_and_print_results_quiet args) as Hev.
  induction fuel as [|fuel IH]; intros i rmf w n w' H; simpl in H;
    destruct (i <? train_iters args) eqn:Hlt.
  - discriminate H.
  - apply ret_inv in H. destruct H as [<- <-]. apply Z.ltb_ge in Hlt.
    replace (i - i) with 0 by lia. simpl. rewrite app_nil_r.
    repeat split; [lia | intros k Hk; lia].
  - invert_binds H. apply Z.ltb_lt in Hlt.
    destruct (interval_hit (exit_interval args) (i + 1)) eqn:Hexit;
      [now apply synchronized_exit_never_returns in H10|].
    apply ret_inv in H10. destruct H10 as [_ <-].
    apply emit_inv in H6.
    repeat match goal with
           | Hx : ?m ?wa = (Ok ?a, ?wb) |- _ =>
               lazymatch m with
               | train_loop _ _ _ _ _ _ => fail
               | _ => idtac
               end;
               apply (quiet_logged m wa (Ok a) wb) in Hx; [ | solve [ runs_structure ] ]
           end.
    apply IH in H. destruct H as (Hn & Hlog & Hfree).
    assert (Hn' : n = train_iters args) by lia.
    split; [lia|]. split.
    + rewrite Hlog.
      replace (Z.to_nat (n - i)) with (S (Z.to_nat (n - (i + 1)))) by lia.
      simpl.
      assert (Hx : logged (trace x17) = (logged (trace w) ++ [i + 1])%list).
      { rewrite H9, H8, H7, H6. simpl. rewrite logged_app. simpl. congruence. }
      rewrite Hx, <- app_assoc. reflexivity.
    + intros k Hk. destruct (Z.eq_dec k (i + 1)) as [->|Hne]; [exact Hexit|].
      apply Hfree. lia.
  - apply ret_inv in H. destruct H as [<- <-]. apply Z.ltb_ge in Hlt.
    replace (i - i) with 0 by lia. simpl. rewrite app_nil_r.
    repeat split; [lia | intros k Hk; lia].
Qed.

Lemma train_returns args tit vit w n w' :
  train args tit vit w = (Ok n, w') ->
  n = Z.max (iteration args) (train_iters args) /\
  logged (trace w') =
    (logged (trace w) ++ count_up (iteration args) (Z.to_nat (n - iteration args)))%list /\
  (forall k, iteration args < k <= n -> interval_hit (exit_interval args) k = false).
Proof.
  unfold train, timer. intros H. invert_binds H.
  apply train_loop_returns in H. destruct H as (Hn & Hlog & Hfree).
  split; [exact Hn|]. split; [|exact Hfree].
  rewrite Hlog. f_equal.
  repeat match goal with
         | Hx : ?m ?wa = (Ok ?a, ?wb) |- _ =>
             apply (quiet_logged m wa (Ok a) wb) in Hx; [ | solve [ runs_structure ] ]
         end.
  congruence.
Qed.


End TrainFacts.

(** ** The training loop (C3) *)

Section Loop.
Context `{E : Externals}.


End Loop.


(** ** The training step (C1, C2) *)

Section Step.
Context `{E : Externals}.

(** The keywords of the [backward_step(...)] call in [train_step] do not
    fit the parameters of [def backward_step]. *)
Lemma backward_step_call_refused :
  bind_keywords Sig.backward_step ["neox_args"; "optimizer"; "model"; "loss"]
  = Raise (TypeError "backward_step() got an unexpected keyword argument 'optimizer'").
Proof. reflexivity. Qed.

(** A micro-batch of the manual loop never completes. *)
Lemma micro_batch_never_returns args it losses w a w' :
  micro_batch args it losses w <> (Ok a, w').
Proof.
  unfold micro_batch, timer. intros H. invert_binds H.
  match goal with
  | Hc : call Sig.backward_step _ _ _ = (Ok _, _) |- _ =>
      apply call_inv_ok in Hc; destruct Hc as [Hc _];
      rewrite backward_step_call_refused in Hc; discriminate Hc
  end.
Qed.

(** When its forward pass returns, a micro-batch stops at the
    [backward_step] call: no backward pass and no [model.step()] follow. *)
Lemma micro_batch_raises args it losses w loss w1 :
  forward_step it args false
    {| mem := mem w; trace := (trace w ++ [EvTimer "forward" TimerStart])%list |}
  = (Ok loss, w1) ->
  micro_batch args it losses w
  = (Raise (TypeError "backward_step() got an unexpected keyword argument 'optimizer'"),
     {| mem := mem w1;
        trace := (trace w1 ++ [EvTimer "forward" TimerStop;
                               EvTimer "backward" TimerStart])%list |}).
Proof.
  intros Hfwd. unfold micro_batch, timer.
  rewrite (bind_ok (emit _) _ w tt _ eq_refl).
  erewrite (bind_ok (call Sig.forward_step _ _)).
  2:{ unfold call. rewrite (bind_ok (lift _) _ _ tt _ eq_refl). exact Hfwd. }
  unfold bind at 1. simpl. unfold bind at 1. simpl.
  unfold call, bind, lift. simpl. now rewrite <- app_assoc.
Qed.

(** In manual mode with at least one micro-batch, [train_step] never
    returns. *)
Lemma train_step_manual_never_returns args it w r w' :
  is_pipe_parallel args = false ->
  1 <= gradient_accumulation_steps args ->
  train_step args it w <> (Ok r, w').
Proof.
  intros Hpipe Hgas H. unfold train_step in H. rewrite Hpipe in H.
  invert_binds H.
  match goal with
  | Hf : bind (for_range _ _ _) _ _ = (Ok _, _) |- _ =>
      apply bind_inv_ok in Hf; destruct Hf as (? & ? & Hf & _);
      unfold for_range in Hf;
      destruct (Z.to_nat (gradient_accumulation_steps args)) as [|n] eqn:Hn; [lia|];
      simpl in Hf; apply bind_inv_ok in Hf; destruct Hf as (? & ? & Hf & _);
      now apply micro_batch_never_returns in Hf
  end.
Qed.

(** Whenever [train_step] returns, it returns a pair whose second
    component is 1 exactly when the precision is fp16 and the optimizer
    reports an overflow after the step. *)
Lemma train_step_skipped_flag args it w loss_dict skipped w' :
  train_step args it w = (Ok (loss_dict, skipped), w') ->
  skipped =
    (if (String.eqb (precision args) "fp16" && optimizer_overflow (mem w'))%bool
     then 1 else 0).
Proof.
  unfold train_step. intros H. invert_binds H.
  apply ret_inv in H. destruct H as [Hpair <-]. inversion Hpair; subst.
  match goal with
  | Ho : (if String.eqb _ _ then _ else _) _ = (Ok _, _) |- _ =>
      destruct (String.eqb (precision args) "fp16");
      [ apply read_inv in Ho; destruct Ho as [-> ->]
      | apply ret_inv in Ho; destruct Ho as [<- <-] ]
  end; reflexivity.
Qed.

(** In pipeline mode [train_step] returns as soon as the engine's
    [train_batch] does, with the engine's loss under ["lm_loss"]. *)
Lemma train_step_pipeline_returns args it w loss x :
  is_pipe_parallel args = true ->
  train_batch it (mem w) = (Returned loss, x) ->
  let res := train_step args it w in
  fst res
  = Ok ({[ "lm_loss" := loss ]},
        if (String.eqb (precision args) "fp16" && optimizer_overflow (mem (snd res)))%bool
        then 1 else 0) /\
  mem (snd res) = mem (set_ext x w).
Proof.
  intros Hpipe Hbatch res. subst res. unfold train_step. rewrite Hpipe.
  unfold call, train_step_pipe, timer, for_each, bind, lift, emit, run_ext, ret, read.
  simpl. rewrite Hbatch. simpl.
  destruct (String.eqb (precision args) "fp16"); simpl; split; reflexivity.
Qed.

End Step.

(** X1: whenever [train_step] returns, the result is a pair
    [(loss_dict, skipped)] in which [skipped] is 1 if and only if the
    precision is ["fp16"] and the model's optimizer reports an overflow
    after the step, and 0 otherwise; and in pipeline mode [train_step]
    does return whenever the engine's [train_batch] returns, with the
    engine's loss under ["lm_loss"] and the heap as [train_batch] left
    it. *)
Theorem train_step_flag_on_return `{E : Externals} args it w :
  (forall loss_dict skipped w',
     train_step args it w = (Ok (loss_dict, skipped), w') ->
     (skipped = 1 <-> precision args = "fp16" /\ optimizer_overflow (mem w') = true) /\
     (skipped = 1 \/ skipped = 0)) /\
  (is_pipe_parallel args = true ->
   forall loss x,
     train_batch it (mem w) = (Returned loss, x) ->
     exists skipped w',
       train_step args it w = (Ok ({[ "lm_loss" := loss ]}, skipped), w') /\
       mem w' = mem (set_ext x w)).
Proof.
  split.
  - intros loss_dict skipped w' H. apply train_step_skipped_flag in H. subst skipped.
    destruct (String.eqb_spec (precision args) "fp16") as [Hp|Hp];
      destruct (optimizer_overflow (mem w')); simpl; split;
      try (split; [intros; try discriminate; auto | intros [? ?]; congruence]);
      auto.
  - intros Hpipe loss x Hbatch.
    destruct (train_step_pipeline_returns args it w loss x Hpipe Hbatch) as [Hres Hmem].
    destruct (train_step args it w) as [r w'] eqn:Heq. simpl in Hres, Hmem. subst r.
    eexists. exists w'. split; [reflexivity | exact Hmem].
Qed.

(** X1, on a pipeline-mode step in fp16 with the optimizer in overflow:
    the engine's [train_batch] returns the loss [2.0], so the step returns
    it under ["lm_loss"], and the flag is 1. *)
Lemma train_step_flag_on_return_run :
  fst (train_step (E := Toy.externals) Toy.pipeline (Some tt) (Toy.start true true true))
  = Ok ({[ "lm_loss" := 2%float ]}, 1).
Proof.
  destruct (train_step_flag_on_return (E := Toy.externals) Toy.pipeline (Some tt)
              (Toy.start true true true)) as [Hflag Hreturns].
  destruct (Hreturns eq_refl 2%float
              (Toy.updated (ext (mem (Toy.start true true true)))) eq_refl)
    as (skipped & w' & Heq & Hmem).
  destruct (Hflag _ _ _ Heq) as [Hiff _].
  rewrite Heq. simpl. f_equal. f_equal. apply Hiff. split; [reflexivity|].
  rewrite Hmem. reflexivity.
Defined.

(** C1, at the failing input: a manual-mode step of the concrete instance
    ([is_pipe_parallel = False], one micro-batch, fp16, optimizer in
    overflow) gives no [(loss_dict, skipped)] pair: the [backward_step]
    call raises [TypeError] after the forward pass. The same step in
    pipeline mode returns the pair with [skipped = 1]. *)
Theorem train_step_manual_gives_no_pair :
  fst (train_step (E := Toy.externals) (Toy.manual 1) (Some tt) (Toy.start true true true))
  = Raise (TypeError "backward_step() got an unexpected keyword argument 'optimizer'") /\
  fst (train_step (E := Toy.externals) Toy.pipeline (Some tt) (Toy.start true true true))
  = Ok ({[ "lm_loss" := 2%float ]}, 1).
Proof. split; vm_compute; reflexivity. Qed.

(** C2, at the failing input: a manual-mode step with two accumulation
    steps runs one forward pass and then stops with [TypeError] at the
    [backward_step] call; no backward pass is made, [model.step()] is never
    called, the weights are untouched and no loss is reduced. *)
Theorem train_step_manual_stops_before_backward :
  let res := train_step (E := Toy.externals) (Toy.manual 2) (Some tt)
               (Toy.start true true false) in
  fst res
  = Raise (TypeError "backward_step() got an unexpected keyword argument 'optimizer'") /\
  count is_forward (trace (snd res)) = 1%nat /\
  count is_backward (trace (snd res)) = 0%nat /\
  count is_step (trace (snd res)) = 0%nat /\
  Toy.learned (ext (mem (snd res))) = (0%nat, 0%nat).
Proof. repeat split; vm_compute; reflexivity. Qed.

(** ** The batch producer (C5) *)

Section Batches.
Context `{E : Externals}.

Lemma lookup_map_row (f : list Z -> list Z) (t : Tensor.ids) i :
  map f t !! i = option_map f (t !! i).
Proof.
  revert i. induction t as [|row t IH]; intros [|i]; simpl; try reflexivity. apply IH.
Qed.

(** Entry by entry: the labels are the raw ids one column to the right,
    the tokens are the raw ids, over all the columns the two slices have. *)
Lemma slices_at (raw : Tensor.ids) rows cols i j :
  Tensor.has_shape raw rows (S cols) ->
  (i < rows)%nat -> (j < cols)%nat ->
  exists a b,
    Tensor.at_ raw i j = Some a /\
    Tensor.at_ raw i (S j) = Some b /\
    Tensor.at_ (Tensor.drop_first_column raw) i j = Some b /\
    Tensor.at_ (Tensor.drop_last_column raw) i j = Some a.
Proof.
  intros [Hrows Hcols] Hi Hj.
  destruct (lookup_lt_is_Some_2 raw i) as [row Hrow]; [lia|].
  assert (Hlen : length row = S cols).
  { exact (Forall_lookup_1 _ _ _ _ Hcols Hrow). }
  destruct (lookup_lt_is_Some_2 row j) as [a Ha]; [lia|].
  destruct (lookup_lt_is_Some_2 row (S j)) as [b Hb]; [lia|].
  exists a, b. unfold Tensor.at_, Tensor.drop_first_column, Tensor.drop_last_column.
  rewrite !lookup_map_row, Hrow. simpl.
  rewrite lookup_drop, lookup_take_lt by lia.
  auto.
Qed.

(** C5: for a raw batch whose ["text"] field has shape
    [(rows, seq_len + 1)], [_get_batch] returns [tokens = raw[:, :-1]] and
    [labels = raw[:, 1:]], so that [labels[i][j] == raw[i][j+1]] and
    [tokens[i][j] == raw[i][j]] for every row [i] and every [j] in
    [[0, seq_len - 1)]. *)
Theorem get_batch_shifts_labels args tok keys data w data_b x raw rows seq_len :
  broadcast_data keys data (mem w) = (Returned data_b, x) ->
  data_b !! "text" = Some raw ->
  Tensor.has_shape raw rows (S seq_len) ->
  let tokens := Tensor.drop_last_column raw in
  let labels := Tensor.drop_first_column raw in
  (exists loss_mask attention_mask position_ids,
      fst (_get_batch args tok keys data w)
      = Ok (tokens, labels, loss_mask, attention_mask, position_ids)) /\
  (forall i j, (i < rows)%nat -> (j < seq_len - 1)%nat ->
     exists a b,
       Tensor.at_ raw i j = Some a /\ Tensor.at_ raw i (j + 1) = Some b /\
       Tensor.at_ labels i j = Some b /\ Tensor.at_ tokens i j = Some a).
Proof.
  intros Hbc Htext Hshape tokens labels. split.
  - unfold _get_batch, bind, emit, run_ext, ret. simpl. rewrite Hbc. simpl.
    rewrite Htext. fold tokens labels.
    destruct (get_ltor_masks_and_position_ids tokens (eod tok) (eod_mask_loss args))
      as [[attention_mask loss_mask] position_ids].
    now exists loss_mask, attention_mask, position_ids.
  - intros i j Hi Hj. replace (j + 1)%nat with (S j) by lia.
    apply (slices_at raw rows seq_len i j Hshape Hi). lia.
Qed.

End Batches.

(** C5, on the 2 x 4 raw batch of the concrete instance ([seq_len = 3]):
    row 1, column 1. *)
Lemma get_batch_shifts_labels_run :
  Tensor.at_ (Tensor.drop_first_column Toy.raw_batch) 1 1 = Some 23 /\
  Tensor.at_ (Tensor.drop_last_column Toy.raw_batch) 1 1 = Some 22 /\
  fst (get_batch (E := Toy.externals) Toy.pipeline (Some tt) (Toy.start true true false))
  = Ok ([[11; 12; 13]; [21; 22; 23]], [[12; 13; 14]; [22; 23; 24]],
        1%float, 0%float, [[0; 1; 2]; [0; 1; 2]]).
Proof.
  assert (Htext : ({[ "text" := Toy.raw_batch ]} : gmap string (list (list Z))) !! "text"
                  = Some Toy.raw_batch) by (vm_compute; reflexivity).
  assert (Hshape : Tensor.has_shape Toy.raw_batch 2 4)
    by (split; [reflexivity | repeat constructor]).
  destruct (get_batch_shifts_labels (E := Toy.externals) Toy.pipeline {| eod := 0 |}
              ["text"] (Some {[ "text" := Toy.raw_batch ]}) (Toy.start true true false)
              {[ "text" := Toy.raw_batch ]} (ext (mem (Toy.start true true false)))
              Toy.raw_batch 2 3 eq_refl Htext Hshape)
    as [_ Hat].
  destruct (Hat 1%nat 1%nat) as (a & b & Ha & Hb & Hl & Ht); [lia | lia |].
  vm_compute in Ha, Hb. inversion Ha; inversion Hb; subst.
  split; [exact Hl|]. split; [exact Ht|].
  vm_compute. reflexivity.
Defined.

(** ** The optimizer and scheduler builders (C4, C6, C7, C10) *)

Section Builders.
Context `{E : Externals}.

(** C6: with [no_load_optim] set, [get_optimizer] returns [(None, None)]
    at once (nothing is called, whatever the optimizer type), and
    [get_learning_rate_scheduler] returns [None]. *)
Theorem builders_return_none_without_optimizer args optimizer_ w :
  no_load_optim args = true ->
  get_optimizer args w = (Ok (None, None), w) /\
  get_learning_rate_scheduler optimizer_ args w = (Ok None, w).
Proof.
  intros H. unfold get_optimizer, get_learning_rate_scheduler. rewrite H.
  split; reflexivity.
Qed.

(** C4: [num_iters] is [lr_decay_iters] when set and [train_iters]
    otherwise; the schedule is built with warmup [warmup * num_iters] and
    total duration [max(1, num_iters)]; for [warmup = 0.01],
    [train_iters = 1000] and no [lr_decay_iters] these are [10.0] and
    [1000]. *)
Theorem scheduler_durations args optimizer_ w :
  no_load_optim args = false ->
  String.eqb (lower (optimizer_type args)) "onebitadam" = false ->
  let num_iters :=
    match lr_decay_iters args with
    | Some k => k
    | None => train_iters args
    end in
  (forall n, float_of_int num_iters = Ok n ->
     exists sched,
       get_learning_rate_scheduler optimizer_ args w = (Ok (Some sched), w) /\
       warmup_iter sched = (warmup args * n)%float /\
       total_iters sched = Z.max 1 num_iters) /\
  (warmup args = 0.01%float -> train_iters args = 1000 -> lr_decay_iters args = None ->
     exists sched,
       get_learning_rate_scheduler optimizer_ args w = (Ok (Some sched), w) /\
       warmup_iter sched = 10%float /\
       total_iters sched = 1000).
Proof.
  intros Hload Hty num_iters.
  assert (Hgen : forall n, float_of_int num_iters = Ok n ->
            exists sched,
              get_learning_rate_scheduler optimizer_ args w = (Ok (Some sched), w) /\
              warmup_iter sched = (warmup args * n)%float /\
              total_iters sched = Z.max 1 num_iters).
  { intros n Hn. unfold get_learning_rate_scheduler. rewrite Hload, Hty.
    fold num_iters. unfold bind, lift. rewrite Hn. unfold ret.
    eexists. split; [reflexivity|]. split; reflexivity. }
  split; [exact Hgen|].
  intros Hw Hiters Hdecay.
  assert (Hnum : num_iters = 1000) by (subst num_iters; now rewrite Hdecay).
  destruct (Hgen 1000%float) as (sched & Hs & Hwarm & Htotal).
  { rewrite Hnum. vm_compute. reflexivity. }
  exists sched. split; [exact Hs|]. split.
  - rewrite Hwarm, Hw. vm_compute. reflexivity.
  - rewrite Htotal, Hnum. reflexivity.
Qed.

End Builders.

(** C6, on a configuration with optimizer loading disabled and an
    optimizer type that no branch knows. *)
Lemma builders_return_none_without_optimizer_run :
  let args := Toy.config true 1 None false [] true "no_such_optimizer" VNone in
  get_optimizer (E := Toy.externals) args (Toy.start true true false)
  = (Ok (None, None), Toy.start true true false) /\
  get_learning_rate_scheduler (E := Toy.externals) None args (Toy.start true true false)
  = (Ok None, Toy.start true true false).
Proof.
  intros args.
  apply (builders_return_none_without_optimizer (E := Toy.externals) args None
           (Toy.start true true false)).
  reflexivity.
Defined.

(** C4, on the configuration of the specification's example. *)
Lemma scheduler_durations_run :
  let args := Toy.retarget "Adam" 1000 Toy.pipeline in
  exists sched,
    get_learning_rate_scheduler (E := Toy.externals) None args (Toy.start true true false)
    = (Ok (Some sched), Toy.start true true false) /\
    warmup_iter sched = 10%float /\ total_iters sched = 1000.
Proof.
  intros args.
  destruct (scheduler_durations (E := Toy.externals) args None (Toy.start true true false))
    as [_ H]; [reflexivity | reflexivity |].
  apply H; reflexivity.
Defined.

Section OptimizerDispatch.
Context `{E : Externals}.

(** Only a string is equal to a string literal, and a string cannot be
    subscripted with ["params"]. *)
Lemma eq_str_not_subscriptable v s key x :
  subscript v key = Ok x -> eq_str v s = false.
Proof. destruct v; simpl; try discriminate; reflexivity. Qed.

(** A failed subscript is a [TypeError] or a [KeyError]. *)
Lemma subscript_raises v key e :
  subscript v key = Raise e -> (exists msg, e = TypeError msg) \/ e = KeyError key.
Proof.
  destruct v; simpl; intros H; try (inversion H; left; eexists; reflexivity).
  destruct (d !! key); inversion H. now right.
Qed.

Lemma construct_class cls param_groups wd args w o w' :
  construct cls param_groups wd args w = (Ok o, w') -> opt_class o = cls.
Proof.
  unfold construct. intros H. invert_binds H.
  destruct wd as [wd|];
    repeat match type of H with
           | context [match ?q with _ => _ end] => destruct q
           end;
    try discriminate H; apply ret_inv in H; destruct H as [<- _]; reflexivity.
Qed.

Lemma construct_returns cls param_groups wd args w d p :
  optimizer args = VDict d ->
  d !! "params" = Some (VDict p) ->
  (wd = None \/ p !! "weight_decay" = None) ->
  construct cls param_groups wd args w
  = (Ok {| opt_class := cls; opt_param_groups := param_groups;
           opt_weight_decay := wd; opt_kwargs := p |}, w).
Proof.
  intros Hd Hp Hwd. unfold construct, bind, lift. rewrite Hd. simpl. rewrite Hp.
  unfold ret at 1. destruct Hwd as [-> | Hnone].
  - reflexivity.
  - rewrite Hnone. destruct wd; reflexivity.
Qed.

Lemma tag_all_app names1 names2 x :
  tag_all (names1 ++ names2) x = tag_all names2 (tag_all names1 x).
Proof. unfold tag_all. apply fold_left_app. Qed.

(** The loop of lines 300 to 303 returns; it adds nothing to the trace,
    leaves the two flags alone and sets the attribute, on the heap, for
    the parameters that lack it. *)
Lemma add_model_parallel_attribute_tags param_groups w :
  exists w',
    add_model_parallel_attribute param_groups w = (Ok tt, w') /\
    trace w' = trace w /\
    training (mem w') = training (mem w) /\
    grad_enabled (mem w') = grad_enabled (mem w) /\
    ext (mem w') = tag_all (untagged param_groups) (ext (mem w)).
Proof.
  unfold add_model_parallel_attribute, untagged.
  revert w. induction param_groups as [|g gs IHg]; intros w; simpl.
  - exists w. repeat split; reflexivity.
  - assert (Hin : exists w1,
               for_each (params g)
                 (fun param =>
                    match model_parallel param with
                    | Some _ => ret tt
                    | None =>
                        run_ext (fun h => (Returned tt,
                                           set_model_parallel (param_name param) (ext h)))
                    end) w = (Ok tt, w1) /\
               trace w1 = trace w /\
               training (mem w1) = training (mem w) /\
               grad_enabled (mem w1) = grad_enabled (mem w) /\
               ext (mem w1)
               = tag_all
                   (flat_map
                      (fun p => match model_parallel p with
                                | None => [param_name p]
                                | Some _ => []
                                end) (params g)) (ext (mem w))).
    { clear IHg. revert w. induction (params g) as [|p ps IHp]; intros w; simpl.
      - exists w. repeat split; reflexivity.
      - destruct (model_parallel p) as [b|]; simpl.
        + destruct (IHp w) as (w1 & H1 & Ht & Htr & Hg & Hx).
          exists w1. rewrite (bind_ok _ _ _ _ _ (eq_refl : ret tt w = (Ok tt, w))).
          repeat split; assumption.
        + destruct (IHp (set_ext (set_model_parallel (param_name p) (ext (mem w))) w))
            as (w1 & H1 & Ht & Htr & Hg & Hx).
          exists w1. unfold bind at 1, run_ext at 1. simpl.
          repeat split; assumption. }
    destruct Hin as (w1 & H1 & Ht1 & Htr1 & Hg1 & Hx1).
    destruct (IHg w1) as (w2 & H2 & Ht2 & Htr2 & Hg2 & Hx2).
    exists w2. rewrite (bind_ok _ _ _ _ _ H1). split; [exact H2|].
    rewrite tag_all_app, <- Hx1. repeat split; congruence.
Qed.

(** What [get_optimizer] does once the optimizer block has been
    subscripted with ["params"]: each constructor call builds on the
    ["params"] dict, or raises [TypeError] when the value is no dict or
    holds a [weight_decay] that the call passes as well. *)
Lemma get_optimizer_dispatch_form args w v :
  no_load_optim args = false ->
  subscript (optimizer args) "params" = Ok v ->
  let groups :=
    filter_trainable_params (map tag_group (get_params_for_weight_decay_optimization (mem w))) in
  let built cls wd : outcome (option optimizer_obj * option (list param_group)) :=
    match v with
    | VDict p =>
        match wd, p !! "weight_decay" with
        | Some _, Some _ =>
            Raise (TypeError "got multiple values for keyword argument 'weight_decay'")
        | _, _ =>
            Ok (Some {| opt_class := cls; opt_param_groups := groups;
                        opt_weight_decay := wd; opt_kwargs := p |}, Some groups)
        end
    | _ => Raise (TypeError "argument after ** must be a mapping")
    end in
  let ty := lower (optimizer_type args) in
  fst (get_optimizer args w) =
    if mem_str ty ["cpu_adam"; "cpu_torch_adam"] then
      built DeepSpeedCPUAdam (Some (weight_decay args))
    else if String.eqb ty "onebitadam" then Ok (None, Some groups)
    else if String.eqb ty "sm3" then built SM3 None
    else if String.eqb ty "madgrad_wd" then built MadgradWd (Some (weight_decay args))
    else if String.eqb ty "adam" then
      if use_bnb_optimizer args then
        if bitsandbytes_installed then built Adam8bit (Some (weight_decay args))
        else Raise BareException
      else if apex_installed then built ApexFusedAdam (Some (weight_decay args))
      else built DeepSpeedFusedAdam (Some (weight_decay args))
    else Raise (ValueError ("Optimizer type " +:+ optimizer_type args +:+ " not recognized")).
Proof.
  intros Hload Hv groups built ty.
  unfold get_optimizer. rewrite Hload.
  unfold bind at 1. unfold read at 1.
  unfold bind at 1. unfold lift at 1. rewrite Hv.
  unfold bind at 1. unfold print_rank_0 at 1, emit at 1.
  match goal with
  | |- fst (bind (add_model_parallel_attribute ?gs) _ ?w1) = _ =>
      destruct (add_model_parallel_attribute_tags gs w1) as (w2 & Htag & _);
      rewrite (bind_ok _ _ _ _ _ Htag)
  end.
  fold groups. fold ty.
  assert (Hc : forall cls wd w3,
             fst (bind (construct cls groups wd args)
                    (fun o => ret (Some o, Some groups)) w3) = built cls wd).
  { intros cls wd w3. subst built. unfold construct, bind, lift. rewrite Hv.
    destruct v; try reflexivity. unfold ret at 1.
    destruct wd as [x|]; [destruct (d !! "weight_decay")|]; reflexivity. }
  rewrite (eq_str_not_subscriptable (optimizer args) "cpu_torch_adam" "params" v Hv).
  destruct (mem_str ty ["cpu_adam"; "cpu_torch_adam"]); [apply Hc|].
  destruct (String.eqb ty "onebitadam"); [reflexivity|].
  destruct (String.eqb ty "sm3"); [apply Hc|].
  destruct (String.eqb ty "madgrad_wd"); [apply Hc|].
  destruct (String.eqb ty "adam"); [|reflexivity].
  destruct (use_bnb_optimizer args).
  - destruct bitsandbytes_installed; [apply Hc | reflexivity].
  - destruct apex_installed; [apply Hc|].
    unfold bind at 1. unfold bind at 1. unfold print_rank_0 at 1, emit at 1.
    unfold ret at 1. apply Hc.
Qed.

End OptimizerDispatch.

Section OptimizerTheorems.
Context `{E : Externals}.

(** C7: with optimizer loading enabled, [get_optimizer] first subscripts
    the optimizer block with ["params"], for its message, and raises the
    error of that lookup whatever the optimizer type. Once the lookup has
    succeeded it dispatches on the lower-cased optimizer type: the
    not-recognized [ValueError] is raised exactly for the types outside
    the supported set (and by nothing else), [onebitadam] yields the
    optimizer [None], and when ["params"] is a dict, [sm3] selects its
    class, and so do [cpu_adam], [cpu_torch_adam], [madgrad_wd] and
    [adam] when the dict holds no [weight_decay] ([adam] with
    [use_bnb_optimizer] and no [bitsandbytes] raises a bare
    [Exception]). *)
Theorem get_optimizer_dispatches_on_type args w :
  no_load_optim args = false ->
  let ty := lower (optimizer_type args) in
  let res := fst (get_optimizer args w) in
  let block := subscript (optimizer args) "params" in
  let not_recognized :=
    ValueError ("Optimizer type " +:+ optimizer_type args +:+ " not recognized") in
  let selected cls :=
    exists o groups, res = Ok (Some o, Some groups) /\ opt_class o = cls in
  (forall e, block = Raise e -> res = Raise e /\ e <> not_recognized) /\
  (res = Raise not_recognized <->
   mem_str ty supported_optimizers = false /\ exists v, block = Ok v) /\
  (forall v, block = Ok v ->
     (mem_str ty supported_optimizers = false -> res = Raise not_recognized) /\
     (ty = "onebitadam" -> exists groups, res = Ok (None, Some groups))) /\
  (forall p, block = Ok (VDict p) ->
     (ty = "sm3" -> selected SM3) /\
     (p !! "weight_decay" = None ->
      (ty = "cpu_adam" \/ ty = "cpu_torch_adam" -> selected DeepSpeedCPUAdam) /\
      (ty = "madgrad_wd" -> selected MadgradWd) /\
      (ty = "adam" ->
       if use_bnb_optimizer args then
         if bitsandbytes_installed then selected Adam8bit else res = Raise BareException
       else selected (if apex_installed then ApexFusedAdam else DeepSpeedFusedAdam)))).
Proof.
  intros Hload ty res block not_recognized selected.
  assert (Hfail : forall e, block = Raise e -> res = Raise e /\ e <> not_recognized).
  { intros e He. split.
    - subst res. unfold get_optimizer. rewrite Hload.
      unfold bind, read, lift. fold block. now rewrite He.
    - apply subscript_raises in He. destruct He as [[msg ->] | ->]; discriminate. }
  assert (Hform : forall v, block = Ok v -> _)
    by (intros v Hv; exact (get_optimizer_dispatch_form args w v Hload Hv)).
  cbv zeta in Hform. fold ty in Hform. fold res in Hform.
  assert (Hrec : forall v, block = Ok v ->
            (mem_str ty supported_optimizers = false <-> res = Raise not_recognized)).
  { intros v Hv. rewrite (Hform v Hv). clear Hform Hfail.
    unfold supported_optimizers, mem_str. simpl existsb.
    destruct (String.eqb ty "cpu_adam"); simpl;
      [|destruct (String.eqb ty "cpu_torch_adam"); simpl;
        [|destruct (String.eqb ty "onebitadam"); simpl;
          [|destruct (String.eqb ty "sm3"); simpl;
            [|destruct (String.eqb ty "madgrad_wd"); simpl;
              [|destruct (String.eqb ty "adam"); simpl]]]]];
      try (split; [reflexivity | intros _; reflexivity]);
      (split; [discriminate|]);
      destruct v as [| | | | | |p]; try discriminate;
      try (destruct (p !! "weight_decay"); discriminate);
      destruct (use_bnb_optimizer args); destruct bitsandbytes_installed;
      destruct apex_installed; try discriminate;
      destruct (p !! "weight_decay"); discriminate. }
  split; [exact Hfail|]. split; [|split].
  - split.
    + intros Hres. destruct block as [v|e|] eqn:Hb.
      * split; [|now exists v]. now apply (Hrec v).
      * destruct (Hfail e eq_refl) as [He Hne]. rewrite He in Hres.
        inversion Hres. contradiction.
      * now apply subscript_in_budget in Hb.
    + intros [Hty (v & Hv)]. now apply (Hrec v).
  - intros v Hv. split.
    + apply (Hrec v Hv).
    + intros Hty. rewrite (Hform v Hv), Hty. simpl. eexists. reflexivity.
  - intros p Hp. specialize (Hform (VDict p) Hp). cbv beta iota in Hform.
    subst selected. simpl.
    split.
    + intros Hty. rewrite Hform, Hty. simpl. eexists. eexists. split; reflexivity.
    + intros Hwd. rewrite Hwd in Hform. split; [|split].
      * intros [Hty | Hty]; rewrite Hform, Hty; simpl;
          eexists; eexists; split; reflexivity.
      * intros Hty. rewrite Hform, Hty. simpl. eexists. eexists. split; reflexivity.
      * intros Hty. rewrite Hform, Hty. simpl.
        destruct (use_bnb_optimizer args); destruct bitsandbytes_installed;
          destruct apex_installed; try reflexivity;
          eexists; eexists; split; reflexivity.
Qed.

(** C10: the inner test of the CPU branch compares the optimizer block,
    not the optimizer type, with ["cpu_torch_adam"]; the block has been
    subscripted with ["params"] by then, so whenever [get_optimizer] gets
    as far as that test the comparison is false, and no call ever yields
    [torch.optim.Adam]; both [cpu_adam] and
    [cpu_torch_adam] yield [DeepSpeedCPUAdam] whenever the call returns,
    and it does return on a well-formed optimizer block. *)
Theorem cpu_torch_adam_selects_deepspeed_cpu_adam args w :
  let res := fst (get_optimizer args w) in
  let cpu := mem_str (lower (optimizer_type args)) ["cpu_adam"; "cpu_torch_adam"] in
  (forall x, subscript (optimizer args) "params" = Ok x ->
     eq_str (optimizer args) "cpu_torch_adam" = false) /\
  (forall o groups, res = Ok (Some o, groups) ->
     opt_class o <> TorchAdam /\
     eq_str (optimizer args) "cpu_torch_adam" = false /\
     (cpu = true -> opt_class o = DeepSpeedCPUAdam)) /\
  (forall d p,
     no_load_optim args = false -> optimizer args = VDict d ->
     d !! "params" = Some (VDict p) -> p !! "weight_decay" = None -> cpu = true ->
     exists o groups, res = Ok (Some o, Some groups) /\ opt_class o = DeepSpeedCPUAdam).
Proof.
  intros res cpu. split; [|split].
  - intros x Hx. exact (eq_str_not_subscriptable _ _ _ _ Hx).
  - intros o groups Hres. subst res.
    destruct (get_optimizer args w) as [r w'] eqn:H. simpl in Hres. subst r.
    unfold get_optimizer in H.
    destruct (no_load_optim args);
      [apply ret_inv in H; destruct H as [H _]; discriminate H|].
    invert_binds H.
    match goal with
    | Hs : lift (subscript _ _) _ = (Ok _, _) |- _ =>
        unfold lift in Hs; inversion Hs as [[Hsub Hw]];
        pose proof (eq_str_not_subscriptable _ "cpu_torch_adam" _ _ Hsub) as Heq
    end.
    rewrite Heq in H. fold cpu in H.
    assert (Hcase :
              (cpu = true -> opt_class o = DeepSpeedCPUAdam) /\ opt_class o <> TorchAdam).
    { destruct cpu.
      - invert_binds H. apply ret_inv in H. destruct H as [Hpair _].
        inversion Hpair; subst.
        match goal with
        | Hc : construct _ _ _ _ _ = (Ok _, _) |- _ =>
            apply construct_class in Hc; rewrite Hc
        end.
        split; [reflexivity | discriminate].
      - split; [discriminate|].
        repeat match type of H with
               | (if ?c then _ else _) _ = _ => destruct c
               end;
          try (apply ret_inv in H; destruct H as [H _]; discriminate H);
          try discriminate H;
          invert_binds H; apply ret_inv in H; destruct H as [Hpair _];
          inversion Hpair; subst;
          match goal with
          | Hc : construct _ _ _ _ _ = (Ok _, _) |- _ =>
              apply construct_class in Hc; rewrite Hc
          end;
          try discriminate;
          match goal with
          | Ha : _ = (Ok ?cls, _) |- ?cls <> TorchAdam =>
              repeat match type of Ha with
                     | (if ?c then _ else _) _ = _ => destruct c
                     end;
              try discriminate Ha; invert_binds Ha;
              try discriminate Ha;
              apply ret_inv in Ha; destruct Ha as [<- _]; discriminate
          end. }
    destruct Hcase as [Hcpu Hne]. split; [exact Hne|]. split; [exact Heq | exact Hcpu].
  - intros d p Hload Hd Hp Hwd Hcpu. subst res.
    assert (Hv : subscript (optimizer args) "params" = Ok (VDict p))
      by (rewrite Hd; simpl; now rewrite Hp).
    rewrite (get_optimizer_dispatch_form args w (VDict p) Hload Hv).
    fold cpu. rewrite Hcpu, Hwd. eexists; eexists; split; reflexivity.
Qed.

End OptimizerTheorems.

(** C7, on two configurations with optimizer loading enabled and the
    Adam block: ["OneBitAdam"] yields the optimizer [None], ["lamb"]
    raises the not-recognized error. *)
Lemma get_optimizer_dispatches_on_type_run :
  (exists groups,
     fst (get_optimizer (E := Toy.externals)
            (Toy.retarget "OneBitAdam" 3 Toy.pipeline) (Toy.start true true false))
     = Ok (None, Some groups)) /\
  fst (get_optimizer (E := Toy.externals)
         (Toy.retarget "lamb" 3 Toy.pipeline) (Toy.start true true false))
  = Raise (ValueError "Optimizer type lamb not recognized").
Proof.
  assert (Hv : subscript Toy.adam_block "params"
               = Ok (VDict {[ "lr" := VFloat 0.0006%float ]}))
    by (vm_compute; reflexivity).
  split.
  - destruct (get_optimizer_dispatches_on_type (E := Toy.externals)
                (Toy.retarget "OneBitAdam" 3 Toy.pipeline) (Toy.start true true false)
                eq_refl) as (_ & _ & Hok & _).
    destruct (Hok _ Hv) as [_ Hone]. apply Hone. reflexivity.
  - destruct (get_optimizer_dispatches_on_type (E := Toy.externals)
                (Toy.retarget "lamb" 3 Toy.pipeline) (Toy.start true true false)
                eq_refl) as (_ & _ & Hok & _).
    destruct (Hok _ Hv) as [Hbad _]. apply Hbad. reflexivity.
Defined.

(** C7 as stated fails: with optimizer loading enabled and no optimizer
    block, the type ["lamb"], which is outside the supported set, does not
    get the not-recognized error; the lookup of ["params"] for the message
    raises [TypeError] before the type is looked at. *)
Lemma get_optimizer_unrecognized_type_without_block :
  let args := Toy.config true 1 None false [] false "lamb" VNone in
  let res := fst (get_optimizer (E := Toy.externals) args (Toy.start true true false)) in
  no_load_optim args = false /\
  mem_str (lower (optimizer_type args)) supported_optimizers = false /\
  res = Raise (TypeError "'NoneType' object is not subscriptable") /\
  res <> Raise (ValueError "Optimizer type lamb not recognized").
Proof.
  intros args res. split; [reflexivity|]. split; [reflexivity|].
  assert (Hres : res = Raise (TypeError "'NoneType' object is not subscriptable"))
    by (vm_compute; reflexivity).
  split; [exact Hres|]. rewrite Hres. discriminate.
Qed.

(** C10, on two configurations: the type ["cpu_torch_adam"] with a
    well-formed block builds [DeepSpeedCPUAdam]; with the block replaced by
    the string ["cpu_torch_adam"] the call fails before the comparison. *)
Lemma cpu_torch_adam_selects_deepspeed_cpu_adam_run :
  (exists o groups,
     fst (get_optimizer (E := Toy.externals)
            (Toy.retarget "cpu_torch_adam" 3 Toy.pipeline) (Toy.start true true false))
     = Ok (Some o, Some groups) /\ opt_class o = DeepSpeedCPUAdam) /\
  fst (get_optimizer (E := Toy.externals)
         (Toy.config true 1 None false [] false "cpu_torch_adam" (VStr "cpu_torch_adam"))
         (Toy.start true true false))
  = Raise (TypeError "string indices must be integers").
Proof.
  split.
  - destruct (cpu_torch_adam_selects_deepspeed_cpu_adam (E := Toy.externals)
                (Toy.retarget "cpu_torch_adam" 3 Toy.pipeline) (Toy.start true true false))
      as (_ & _ & Hbuilt).
    apply (Hbuilt {[ "type" := VStr "Adam";
                     "params" := VDict {[ "lr" := VFloat 0.0006%float ]} ]}
                  {[ "lr" := VFloat 0.0006%float ]});
      try reflexivity; vm_compute; reflexivity.
  - vm_compute. reflexivity.
Defined.

(** ** Perplexities (C9) *)

Section Perplexity.
Context `{E : Externals}.

(** C9: with [char_level_ppl] set, [evaluate] reports
    [lm_loss_char_lvl_ppl = exp(lm_loss * tokens_per_char)], where [lm_loss]
    is the mean of the reduced losses of the evaluation loop and
    [tokens_per_char] is read from the counting adapter wrapped around the
    data iterator; next to it stands [lm_loss_ppl = exp(lm_loss)], and with
    [tokens_per_char = 1.0] the two are equal. (Entries that the harness
    returns under the same keys would replace them.) *)
Theorem char_level_perplexity args fs it verbose w r w' :
  char_level_ppl args = true ->
  evaluate args fs it verbose w = (Ok r, w') ->
  exists counter losses reduced tpc ppl char_ppl harness,
    (exists h x, char_counter_new it h = (Returned counter, x)) /\
    (exists w1 w2,
        with_no_grad
          (evaluate_loop (Z.to_nat (eval_iters args)) args fs (Some counter) verbose 0 [])
          w1 = (Ok losses, w2)) /\
    (exists h x, reduce_losses losses h = (Returned reduced, x)) /\
    (exists h x, tokens_per_char counter h = (Returned tpc, x)) /\
    let lm_loss := tensor_item (tensor_mean reduced) in
    math_exp lm_loss = Returned ppl /\
    math_exp (lm_loss * tpc)%float = Returned char_ppl /\
    r = harness ∪ {[ "lm_loss_char_lvl_ppl" := VFloat char_ppl;
                     "lm_loss_ppl" := VFloat ppl;
                     "lm_loss" := VFloat lm_loss ]} /\
    (eval_tasks args = [] -> harness = ∅) /\
    (harness !! "lm_loss_char_lvl_ppl" = None ->
     r !! "lm_loss_char_lvl_ppl" = Some (VFloat char_ppl)) /\
    (harness !! "lm_loss_ppl" = None -> r !! "lm_loss_ppl" = Some (VFloat ppl)) /\
    (tpc = 1%float -> char_ppl = ppl).
Proof.
  intros Hc H. unfold evaluate in H. rewrite Hc in H. invert_binds H.
  apply ret_inv in H. destruct H as [-> _].
  (* the adapter *)
  match goal with
  | Hn : bind (emit EvCharCounterNew) _ _ = (Ok _, _) |- _ =>
      invert_binds Hn; apply ret_inv in Hn; destruct Hn as [<- _]
  end.
  match goal with
  | Hn : run_ext (char_counter_new it) _ = (Ok ?c, _) |- _ =>
      apply run_ext_inv in Hn; destruct Hn as (xn & Hn & _); rename c into counter
  end.
  (* the character-level entry *)
  match goal with
  | Hm : bind (emit EvTokensPerChar) _ _ = (Ok _, _) |- _ =>
      invert_binds Hm; apply ret_inv in Hm; destruct Hm as [<- _]
  end.
  repeat match goal with
         | Hr : run_ext _ _ = (Ok _, _) |- _ =>
             apply run_ext_inv in Hr; destruct Hr as (? & Hr & _)
         | Hl : lift_answer _ _ = (Ok _, _) |- _ =>
             apply lift_answer_inv in Hl; destruct Hl as [Hl _]
         end.
  match goal with
  | Hloop : with_no_grad _ _ = (Ok ?ls, _),
    Hred : reduce_losses ?ls _ = (Returned ?red, _),
    Htpc : tokens_per_char counter _ = (Returned ?tpc, _),
    Hppl : math_exp (tensor_item (tensor_mean ?red)) = Returned ?ppl,
    Hchar : math_exp (tensor_item (tensor_mean ?red) * ?tpc)%float = Returned ?cp,
    Hh : match eval_tasks args with _ => _ end _ = (Ok ?res, _) |- _ =>
      assert (Hharness :
                exists harness,
                  res = harness ∪ {[ "lm_loss_char_lvl_ppl" := VFloat cp;
                                     "lm_loss_ppl" := VFloat ppl;
                                     "lm_loss" := VFloat (tensor_item (tensor_mean red)) ]}
                  /\ (eval_tasks args = [] -> harness = ∅));
      [ destruct (eval_tasks args) as [|task tasks];
        [ apply ret_inv in Hh; destruct Hh as [<- _];
          exists ∅; split; [now rewrite (left_id_L ∅ (∪)) | reflexivity]
        | invert_binds Hh; apply ret_inv in Hh; destruct Hh as [<- _];
          eexists; split; [reflexivity | discriminate] ]
      | destruct Hharness as (harness & -> & Hempty);
        exists counter, ls, red, tpc, ppl, cp, harness ]
  end.
  repeat split; eauto.
  - intros Hnone. rewrite lookup_union_r by exact Hnone. apply lookup_insert_eq.
  - intros Hnone. rewrite lookup_union_r by exact Hnone.
    rewrite lookup_insert_ne by discriminate. apply lookup_insert_eq.
  - intros ->.
    match goal with
    | Hppl : math_exp ?x = Returned ?ppl,
      Hchar : math_exp (?x * 1)%float = Returned ?cp |- ?cp = ?ppl =>
        rewrite float_mul_one_r in Hchar; congruence
    end.
Qed.

End Perplexity.

(** C9, on a run of the concrete instance, whose counting adapter reports
    one token per character: the two perplexities are the same number. *)
Lemma char_level_perplexity_run :
  let res := evaluate (E := Toy.externals)
               (Toy.config true 1 None true [] false "Adam" Toy.adam_block)
               forward_step_as_fn (Some tt) false (Toy.start false true false) in
  exists r v,
    fst res = Ok r /\
    r !! "lm_loss_char_lvl_ppl" = Some (VFloat v) /\
    r !! "lm_loss_ppl" = Some (VFloat v).
Proof.
  intros res. subst res.
  destruct (evaluate (E := Toy.externals)
              (Toy.config true 1 None true [] false "Adam" Toy.adam_block)
              forward_step_as_fn (Some tt) false (Toy.start false true false))
    as [[r|e|] w'] eqn:Heq; [|vm_compute in Heq; discriminate Heq ..].
  destruct (char_level_perplexity (E := Toy.externals)
              (Toy.config true 1 None true [] false "Adam" Toy.adam_block)
              _ _ _ _ _ _ eq_refl Heq)
    as (counter & losses & reduced & tpc & ppl & char_ppl & harness
        & _ & _ & _ & (h & x & Htpc) & _ & _ & _ & Hempty & Hchar & Hppl & Hone).
  assert (Hh : harness = ∅) by (apply Hempty; reflexivity).
  assert (Ht : tpc = 1%float) by (simpl in Htpc; unfold Toy.ok in Htpc; congruence).
  exists r, ppl. split; [reflexivity|]. split.
  - rewrite Hchar by (rewrite Hh; apply lookup_empty). now rewrite (Hone Ht).
  - apply Hppl. rewrite Hh. apply lookup_empty.
Defined.

(** ** Outcomes of a sequence, and what a trace shows *)

Section OutcomeFacts.
Context `{E : Externals}.

Lemma bind_cases {A B} (m : M A) (k : A -> M B) w r w' :
  bind m k w = (r, w') ->
  (exists a w1, m w = (Ok a, w1) /\ k a w1 = (r, w')) \/
  (exists e, m w = (Raise e, w') /\ r = Raise e) \/
  (m w = (OutOfFuel, w') /\ r = OutOfFuel).
Proof.
  unfold bind. destruct (m w) as [[a|e|] w1]; intros H.
  - left. now exists a, w1.
  - right. left. inversion H; subst. now exists e.
  - right. right. inversion H; subst. now split.
Qed.

Lemma call_refused {A} sg given (body : M A) e w :
  bind_keywords sg given = Raise e -> call sg given body w = (Raise e, w).
Proof. intros H. unfold call, bind, lift. now rewrite H. Qed.

Lemma never_returns_bind_l {A B} (m : M A) (k : A -> M B) :
  never_returns m -> never_returns (bind m k).
Proof.
  intros Hm w b w' H. apply bind_inv_ok in H. destruct H as (a & w1 & H & _).
  now apply Hm in H.
Qed.

Lemma never_returns_bind_r {A B} (m : M A) (k : A -> M B) :
  (forall a, never_returns (k a)) -> never_returns (bind m k).
Proof.
  intros Hk w b w' H. apply bind_inv_ok in H. destruct H as (a & w1 & _ & H).
  now apply Hk in H.
Qed.

Lemma never_returns_call {A} sg given (body : M A) :
  never_returns body -> never_returns (call sg given body).
Proof. intros Hb w a w' H. apply call_inv_ok in H. destruct H as [_ H]. now apply Hb in H. Qed.

(** What follows a step that never returns does not matter. *)
Lemma runs_bind_never_returns (R : world -> world -> Prop) {A B} (m : M A) (k : A -> M B) :
  runs R m -> never_returns m -> runs R (bind m k).
Proof.
  intros Hm Hn w. specialize (Hm w). unfold bind.
  destruct (m w) as [[a|e|] w1] eqn:Heq; simpl in Hm.
  - now apply Hn in Heq.
  - destruct Hm as [_ HR]. split; [discriminate | exact HR].
  - destruct Hm as [Hf _]. now contradiction Hf.
Qed.

(** A sequence whose first step returns only values that satisfy [Q]. *)
Lemma runs_bind_returning (R : world -> world -> Prop) `{!PreOrder R} {A B}
    (Q : A -> Prop) (m : M A) (k : A -> M B) :
  runs R m -> (forall w a w1, m w = (Ok a, w1) -> Q a) ->
  (forall a, Q a -> runs R (k a)) -> runs R (bind m k).
Proof.
  intros Hm HQ Hk w. specialize (Hm w). specialize (HQ w). unfold bind.
  destruct (m w) as [[a|e|] w1]; simpl in Hm; destruct Hm as [Hf HR].
  - destruct (Hk a (HQ a w1 eq_refl) w1) as [Hf' HR']. split; [exact Hf'|].
    now transitivity w1.
  - split; [discriminate | exact HR].
  - now contradiction Hf.
Qed.

Lemma never_returns_bind_returning {A B} (Q : A -> Prop) (m : M A) (k : A -> M B) :
  (forall w a w1, m w = (Ok a, w1) -> Q a) ->
  (forall a, Q a -> never_returns (k a)) -> never_returns (bind m k).
Proof.
  intros HQ Hk w b w' H. apply bind_inv_ok in H. destruct H as (a & w1 & H1 & H2).
  exact (Hk a (HQ _ _ _ H1) _ _ _ H2).
Qed.

Lemma with_no_grad_inv {A} (body : M A) w r w' :
  with_no_grad body w = (r, w') ->
  exists w1, body (set_grad_enabled false w) = (r, w1) /\
             w' = set_grad_enabled (grad_enabled (mem w)) w1.
Proof.
  unfold with_no_grad. destruct (body (set_grad_enabled false w)) as [r1 w1].
  intros H. inversion H; subst. now exists w1.
Qed.

Lemma collect_app {B} (pick : event -> option B) evs1 evs2 :
  collect pick (evs1 ++ evs2) = (collect pick evs1 ++ collect pick evs2)%list.
Proof.
  induction evs1 as [|ev evs1 IH]; simpl; [reflexivity|].
  destruct (pick ev); simpl; now rewrite IH.
Qed.

Lemma collect_none {B} (pick : event -> option B) evs :
  Forall (fun ev => pick ev = None) evs -> collect pick evs = [].
Proof.
  induction 1 as [|ev evs Hev _ IH]; simpl; [reflexivity|]. now rewrite Hev.
Qed.

(** A step whose calls [pick] does not read leaves the collection and the
    autograd switch as they were. *)
Lemma stamps_collect {A B} (P : bool -> event -> Prop) (pick : event -> option B)
    (m : M A) w r w' :
  (forall g ev, P g ev -> pick ev = None) ->
  runs (stamps P) m -> m w = (r, w') ->
  collect pick (trace w') = collect pick (trace w) /\
  grad_enabled (mem w') = grad_enabled (mem w).
Proof.
  intros Hp Hm Heq. destruct (Hm w) as [_ [Hg (evs & Ht & Hq)]].
  rewrite Heq in Ht, Hg. simpl in Ht, Hg. split; [|exact Hg].
  rewrite Ht, collect_app, (collect_none pick evs), app_nil_r; [reflexivity|].
  eapply Forall_impl; [exact Hq | intros ev; apply Hp].
Qed.

Lemma emit_collect {B} (pick : event -> option B) ev w u w' :
  emit ev w = (Ok u, w') ->
  collect pick (trace w') = (collect pick (trace w) ++ collect pick [ev])%list /\
  mem w' = mem w.
Proof. intros H. apply emit_inv in H. subst w'. simpl. now rewrite collect_app. Qed.

(** The calls that a run adds to the trace. *)
Lemma stamps_added {A} (P : bool -> event -> Prop) (m : M A) w :
  runs (stamps P) m ->
  exists evs, trace (snd (m w)) = (trace w ++ evs)%list /\
              Forall (P (grad_enabled (mem w))) evs.
Proof. intros Hm. now destruct (Hm w) as [_ [_ Hevs]]. Qed.

#[global] Instance same_mode_preorder : PreOrder same_mode.
Proof.
  split.
  - intros w. reflexivity.
  - intros w1 w2 w3 H12 H23. unfold same_mode in *. congruence.
Qed.

Lemma same_mode_emit ev : runs same_mode (emit ev).
Proof. intros w. split; [discriminate | reflexivity]. Qed.

Lemma same_mode_run_ext {A} (op : heap X -> answer A * X) : runs same_mode (run_ext op).
Proof.
  intros w. unfold run_ext, same_mode.
  destruct (op (mem w)) as [[a|e] x]; (split; [discriminate | reflexivity]).
Qed.

Lemma same_mode_with_no_grad {A} (body : M A) :
  runs same_mode body -> runs same_mode (with_no_grad body).
Proof.
  intros H w. unfold with_no_grad.
  specialize (H (set_grad_enabled false w)).
  destruct (body (set_grad_enabled false w)) as [r w1]. simpl in *.
  destruct H as [Hf HR]. split; [exact Hf | exact HR].
Qed.

Lemma raising_keeps_mode_bind {A B} (m : M A) (k : A -> M B) :
  runs same_mode m -> (forall a, raising_keeps_mode (k a)) -> raising_keeps_mode (bind m k).
Proof.
  intros Hm Hk w e w' H. destruct (Hm w) as [_ HR].
  apply bind_cases in H. destruct H as [(a & w1 & H1 & H2) | [(e' & H1 & _) | [_ H]]].
  - rewrite H1 in HR. simpl in HR. apply Hk in H2. unfold same_mode in HR. congruence.
  - rewrite H1 in HR. exact HR.
  - discriminate H.
Qed.

End OutcomeFacts.

#[export] Hint Resolve same_mode_emit same_mode_run_ext : runs.

(** [needle] is a prefix of itself followed by anything. *)
Lemma prefix_append (s t : string) : String.prefix s (s +:+ t) = true.
Proof.
  induction s as [|c s IH]; simpl; [now destruct t|].
  destruct (Ascii.ascii_dec c c) as [_|N]; [exact IH | now contradiction N].
Qed.

(** ** The calls that each function makes *)

Section Calls.
Context `{E : Externals}.

Lemma _get_batch_calls args tok keys data :
  runs (stamps batch_event) (_get_batch args tok keys data).
Proof. unfold _get_batch. runs_structure. Qed.

Lemma get_batch_calls args it : runs (stamps batch_event) (get_batch args it).
Proof.
  pose proof _get_batch_calls.
  unfold get_batch. runs_structure.
Qed.

Lemma batch_event_forward g ev : batch_event g ev -> forward_event g ev.
Proof. destruct ev; simpl; tauto. Qed.

Lemma forward_step_calls it args rl : runs (stamps forward_event) (forward_step it args rl).
Proof.
  pose proof (fun it => stamps_mono batch_event forward_event _ batch_event_forward
                          (get_batch_calls args it)) as Hgb.
  unfold forward_step, timer. runs_structure.
Qed.

Lemma forward_event_step g ev : forward_event g ev -> step_event g ev.
Proof. destruct ev; simpl; tauto. Qed.

Lemma backward_step_calls args loss : runs (stamps step_event) (backward_step args loss).
Proof. unfold backward_step, timer. runs_structure. Qed.

Lemma micro_batch_calls args it losses : runs (stamps step_event) (micro_batch args it losses).
Proof.
  pose proof (fun it rl =>
                stamps_mono forward_event step_event _ forward_event_step
                  (forward_step_calls it args rl)) as Hfs.
  pose proof backward_step_calls as Hbs.
  unfold micro_batch, timer. runs_structure.
Qed.

Lemma train_step_pipe_calls args it : runs (stamps step_event) (train_step_pipe args it).
Proof. unfold train_step_pipe, timer. runs_structure. Qed.

Lemma train_step_calls args it : runs (stamps step_event) (train_step args it).
Proof.
  pose proof micro_batch_calls as Hmb.
  pose proof train_step_pipe_calls as Hpipe.
  unfold train_step. runs_structure.
Qed.

Lemma forward_event_evaluator g ev : forward_event false ev -> evaluator_event g ev.
Proof. destruct ev; simpl; tauto. Qed.

Lemma evaluator_event_report i g ev : evaluator_event g ev -> report_event i g ev.
Proof. destruct ev; simpl; tauto. Qed.

Lemma evaluate_loop_calls args it verbose :
  forall fuel i losses,
    (Z.to_nat (eval_iters args - i) <= fuel)%nat ->
    runs (stamps (fun g ev => forward_event g ev \/ ev = EvPrint "Evaluating iter {}/{}"
                              \/ ev = EvCheckpointingReset))
      (evaluate_loop fuel args forward_step_as_fn it verbose i losses).
Proof.
  pose proof (fun it rl =>
                stamps_mono forward_event
                  (fun g ev => forward_event g ev \/ ev = EvPrint "Evaluating iter {}/{}"
                               \/ ev = EvCheckpointingReset) _
                  (fun g ev H => or_introl H)
                  (forward_step_calls it args rl)) as Hfs.
  induction fuel as [|fuel IH]; intros i losses Hfuel; simpl;
    destruct (i <? eval_iters args) eqn:Hlt;
    try (apply Z.ltb_lt in Hlt; lia);
    unfold forward_step_as_fn, print_rank_0; runs_structure.
  apply IH. apply Z.ltb_lt in Hlt. lia.
Qed.

Lemma evaluate_calls args it verbose :
  runs (stamps evaluator_event) (evaluate args forward_step_as_fn it verbose).
Proof.
  assert (Hloop : forall it',
             runs (stamps evaluator_event)
               (with_no_grad
                  (evaluate_loop (Z.to_nat (eval_iters args)) args forward_step_as_fn
                     it' verbose 0 []))).
  { intros it'.
    eapply stamps_with_no_grad; [|apply evaluate_loop_calls; rewrite Z.sub_0_r; lia].
    intros g ev [H | [-> | ->]]; [now apply forward_event_evaluator | exact I | exact I]. }
  unfold evaluate, print_rank_0. runs_structure.
Qed.

Lemma evaluate_and_print_results_calls args it i verbose :
  runs (stamps (report_event i))
    (evaluate_and_print_results args forward_step_as_fn it i verbose).
Proof.
  pose proof (fun it verbose =>
                stamps_mono evaluator_event (report_event i) _ (evaluator_event_report i)
                  (evaluate_calls args it verbose)) as Hev.
  pose proof prefix_append as Hpre.
  unfold evaluate_and_print_results, print_rank_0. runs_structure.
Qed.

End Calls.

(** ** The training loop, whatever its outcome *)

Section LoopSafety.
Context `{E : Externals}.

Lemma step_event_loop args g ev : step_event g ev -> loop_event args g ev.
Proof. destruct ev; simpl; tauto. Qed.

Lemma report_event_loop args i g ev :
  interval_hit (eval_interval args) i = true -> do_valid args = true ->
  report_event i g ev -> loop_event args g ev.
Proof. intros Hi Hv. destruct ev; simpl; try tauto. intros [Hj Hp]. subst. auto. Qed.

Lemma synchronized_exit_loop args : runs (stamps (loop_event args)) synchronized_exit.
Proof. unfold synchronized_exit, print_rank_0. runs_structure. Qed.

Lemma train_loop_calls args tit vit :
  forall fuel i rmf,
    (Z.to_nat (train_iters args - i) <= fuel)%nat ->
    iteration args <= i ->
    (forall k, iteration args < k <= i -> interval_hit (exit_interval args) k = false) ->
    runs (stamps (loop_event args)) (train_loop fuel args tit vit i rmf).
Proof.
  pose proof (fun it =>
                stamps_mono step_event (loop_event args) _ (step_event_loop args)
                  (train_step_calls args it)) as Hts.
  induction fuel as [|fuel IH]; intros i rmf Hfuel Hi Hfree; simpl;
    destruct (i <? train_iters args) eqn:Hlt;
    try (apply Z.ltb_lt in Hlt; lia);
    [runs_structure | | runs_structure].
  apply Z.ltb_lt in Hlt.
  assert (Hlog : runs (stamps (loop_event args)) (emit (EvTrainingLog (i + 1)))).
  { apply stamps_emit. intros g. simpl. split; [lia|].
    intros k Hk. apply Hfree. lia. }
  assert (Hsave : runs (stamps (loop_event args))
                    (if (truthy_str (save args)
                         && interval_hit (save_interval args) (i + 1))%bool
                     then emit (EvSaveCheckpoint (i + 1)) ;; run_ext (save_checkpoint (i + 1))
                     else ret tt)).
  { destruct (truthy_str (save args)) eqn:Hs;
      destruct (interval_hit (save_interval args) (i + 1)) eqn:Hh; simpl;
      runs_structure. }
  assert (Heval : runs (stamps (loop_event args))
                    (if (interval_hit (eval_interval args) (i + 1) && do_valid args)%bool
                     then call Sig.evaluate_and_print_results
                            ["neox_args"; "prefix"; "forward_step_func"; "data_iterator";
                             "model"; "iteration"; "verbose"]
                            (evaluate_and_print_results args forward_step_as_fn vit
                               (i + 1) false)
                     else ret tt)).
  { destruct (interval_hit (eval_interval args) (i + 1)) eqn:Hh;
      destruct (do_valid args) eqn:Hv; simpl; [|runs_structure ..].
    apply runs_call; [typeclasses eauto|].
    eapply stamps_mono; [|apply evaluate_and_print_results_calls].
    intros g ev. now apply report_event_loop. }
  assert (Hrest : forall rmf',
             runs (stamps (loop_event args))
               (bind (if interval_hit (exit_interval args) (i + 1)
                      then synchronized_exit else ret tt)
                  (fun _ => train_loop fuel args tit vit (i + 1) rmf'))).
  { intros rmf'. destruct (interval_hit (exit_interval args) (i + 1)) eqn:Hx.
    - apply runs_bind_never_returns;
        [apply synchronized_exit_loop | exact synchronized_exit_never_returns].
    - apply runs_bind; [typeclasses eauto | apply runs_ret; typeclasses eauto | intros _].
      apply IH; [lia | lia |].
      intros k Hk. destruct (Z.eq_dec k (i + 1)) as [->|Hne]; [exact Hx|].
      apply Hfree. lia. }
  runs_structure.
Qed.

Lemma train_calls args tit vit : runs (stamps (loop_event args)) (train args tit vit).
Proof.
  assert (Hloop : forall rmf,
             runs (stamps (loop_event args))
               (train_loop (Z.to_nat (train_iters args - iteration args)) args tit vit
                  (iteration args) rmf)).
  { intros rmf. apply train_loop_calls; [lia | lia | intros k Hk; lia]. }
  unfold train, timer. runs_structure.
Qed.

End LoopSafety.

(** ** Checkpoints of a run of [train] that returns *)

(** Turn the equations of the steps that save nothing into equations
    between the checkpoints of their traces. *)
Ltac settle_checkpoints :=
  repeat match goal with
         | Hx : ?m ?wa = (Ok ?a, ?wb) |- _ =>
             lazymatch m with
             | train_loop _ _ _ _ _ _ => fail
             | _ => idtac
             end;
             apply (stamps_collect (fun _ ev => checkpoint_of ev = None) checkpoint_of
                      m wa (Ok a) wb (fun _ _ H => H)) in Hx;
             [ destruct Hx as [Hx _] | solve [ runs_structure ] ]
         end.

Section Checkpoints.
Context `{E : Externals}.

Lemma step_event_no_checkpoint g ev : step_event g ev -> checkpoint_of ev = None.
Proof. destruct ev; simpl; tauto. Qed.

Lemma report_event_no_checkpoint i g ev : report_event i g ev -> checkpoint_of ev = None.
Proof. destruct ev; simpl; tauto. Qed.

Lemma save_step_checkpoints (c : bool) j w u w' :
  (if c then emit (EvSaveCheckpoint j) ;; run_ext (save_checkpoint j) else ret tt) w
  = (Ok u, w') ->
  collect checkpoint_of (trace w')
  = (collect checkpoint_of (trace w) ++ (if c then [j] else []))%list.
Proof.
  destruct c; intros H.
  - invert_binds H. apply run_ext_inv in H. destruct H as (? & _ & ->).
    match goal with
    | He : emit _ _ = _ |- _ => apply (emit_collect checkpoint_of) in He; destruct He as [He _]
    end.
    simpl. assumption.
  - apply ret_inv in H. destruct H as [_ <-]. now rewrite app_nil_r.
Qed.

Lemma train_loop_checkpoints args tit vit :
  forall fuel i rmf w n w',
    train_loop fuel args tit vit i rmf w = (Ok n, w') ->
    collect checkpoint_of (trace w')
    = (collect checkpoint_of (trace w) ++
       List.filter
         (fun k => (truthy_str (save args) && interval_hit (save_interval args) k)%bool)
         (count_up i (Z.to_nat (n - i))))%list.
Proof.
  pose proof (fun it =>
                stamps_mono step_event (fun _ ev => checkpoint_of ev = None) _
                  step_event_no_checkpoint (train_step_calls args it)) as Hts.
  pose proof (fun it i verbose =>
                stamps_mono (report_event i) (fun _ ev => checkpoint_of ev = None) _
                  (report_event_no_checkpoint i)
                  (evaluate_and_print_results_calls args it i verbose)) as Hev.
  induction fuel as [|fuel IH]; intros i rmf w n w' H;
    pose proof (train_loop_returns _ _ _ _ _ _ _ _ _ H) as (Hn & _ & _);
    simpl in H; destruct (i <? train_iters args) eqn:Hlt.
  - discriminate H.
  - apply ret_inv in H. destruct H as [<- <-].
    replace (i - i) with 0 by lia. simpl. now rewrite app_nil_r.
  - invert_binds H. apply Z.ltb_lt in Hlt.
    match goal with
    | Hx : (if interval_hit (exit_interval args) _ then _ else _) _ = (Ok _, _) |- _ =>
        destruct (interval_hit (exit_interval args) (i + 1));
        [ now apply synchronized_exit_never_returns in Hx
        | apply ret_inv in Hx; destruct Hx as [_ <-] ]
    end.
    match goal with
    | Hx : (if (truthy_str _ && _)%bool then _ else _) _ = (Ok _, _) |- _ =>
        apply save_step_checkpoints in Hx
    end.
    apply IH in H.
    settle_checkpoints.
    rewrite H.
    replace (Z.to_nat (n - i)) with (S (Z.to_nat (n - (i + 1)))) by lia.
    simpl.
    repeat match goal with
           | Hx : collect checkpoint_of (trace ?b) = _ |- _ => rewrite Hx; clear Hx
           end.
    destruct (truthy_str (save args) && interval_hit (save_interval args) (i + 1))%bool;
      now rewrite <- !app_assoc.
  - apply ret_inv in H. destruct H as [<- <-].
    replace (i - i) with 0 by lia. simpl. now rewrite app_nil_r.
Qed.

Lemma train_checkpoints args tit vit w n w' :
  train args tit vit w = (Ok n, w') ->
  collect checkpoint_of (trace w')
  = (collect checkpoint_of (trace w) ++
     List.filter
       (fun k => (truthy_str (save args) && interval_hit (save_interval args) k)%bool)
       (count_up (iteration args) (Z.to_nat (n - iteration args))))%list.
Proof.
  unfold train, timer. intros H. invert_binds H.
  apply train_loop_checkpoints in H. rewrite H. f_equal.
  settle_checkpoints.
  repeat match goal with
         | Hx : collect checkpoint_of (trace ?b) = _ |- _ => rewrite Hx; clear Hx
         end.
  reflexivity.
Qed.

End Checkpoints.

(** ** The training step and the loop: what they call, and when *)

Section StepCalls.
Context `{E : Externals}.

Lemma same_mode_forward_step it args rl : runs same_mode (forward_step it args rl).
Proof. unfold forward_step, get_batch, _get_batch, timer. runs_structure. Qed.

Lemma same_mode_train_step args it : runs same_mode (train_step args it).
Proof.
  pose proof same_mode_forward_step as Hfs.
  unfold train_step, train_step_pipe, micro_batch, backward_step, timer. runs_structure.
Qed.

(** X2: whatever its outcome, a training step leaves the model's mode and
    the autograd switch as they were, and calls nothing but timers, the
    data iterator and the broadcast, forward passes (under the caller's
    switch), [backward], [step], [train_batch] and [reduce_losses]: it
    logs nothing, saves nothing, prints nothing and evaluates nothing. *)
Theorem train_step_only_trains args it w :
  let res := train_step args it w in
  training (mem (snd res)) = training (mem w) /\
  grad_enabled (mem (snd res)) = grad_enabled (mem w) /\
  exists evs,
    trace (snd res) = (trace w ++ evs)%list /\
    Forall (step_event (grad_enabled (mem w))) evs /\
    logged evs = [] /\ collect checkpoint_of evs = [] /\ collect metric_of evs = [].
Proof.
  intros res. subst res.
  destruct (same_mode_train_step args it w) as [_ Hmode].
  destruct (train_step_calls args it w) as [_ [Hgrad (evs & Ht & Hevs)]].
  split; [exact Hmode|]. split; [exact Hgrad|].
  exists evs. split; [exact Ht|]. split; [exact Hevs|].
  split; [|split].
  - apply (logged_quiet (grad_enabled (mem w))).
    eapply Forall_impl; [exact Hevs|]. intros ev. destruct ev; simpl; tauto.
  - apply collect_none. eapply Forall_impl; [exact Hevs|].
    intros ev. apply step_event_no_checkpoint.
  - apply collect_none. eapply Forall_impl; [exact Hevs|].
    intros ev. destruct ev; simpl; tauto.
Qed.

End StepCalls.

Section Schedule.
Context `{E : Externals}.

(** X3: when [train] returns [n], the checkpoints it has saved are, in
    order, those of the iterations after the resume iteration and up to
    [n] that are multiples of [save_interval], provided [save] is set;
    with [save] unset or empty, or [save_interval] unset or zero, it has
    saved none. *)
Theorem train_saves_on_schedule args tit vit w n w' :
  train args tit vit w = (Ok n, w') ->
  let due k := (truthy_str (save args) && interval_hit (save_interval args) k)%bool in
  collect checkpoint_of (trace w')
  = (collect checkpoint_of (trace w) ++
     List.filter due (count_up (iteration args) (Z.to_nat (n - iteration args))))%list /\
  (truthy_str (save args) = false \/ truthy_int (save_interval args) = false ->
   collect checkpoint_of (trace w') = collect checkpoint_of (trace w)).
Proof.
  intros H due. apply train_checkpoints in H. fold due in H. split; [exact H|].
  intros Hoff. rewrite H.
  assert (Hnever : forall k, due k = false).
  { intros k. subst due. simpl. destruct Hoff as [-> | Hi]; [reflexivity|].
    apply andb_false_iff. right. unfold interval_hit.
    unfold truthy_int in Hi. destruct (save_interval args) as [m|]; [|reflexivity].
    destruct (m =? 0); [reflexivity | discriminate Hi]. }
  generalize (count_up (iteration args) (Z.to_nat (n - iteration args))).
  intros l. induction l as [|k l IH]; simpl; [apply app_nil_r|].
  now rewrite Hnever.
Qed.

(** X4: whatever the outcome of [train], every [training_log] call is
    for an iteration after the resume iteration, at most [train_iters], and
    no iteration before it in the run has hit the exit interval; every
    checkpoint is saved with [save] set and at a multiple of
    [save_interval]; every metric is logged under [validation/] at a
    multiple of [eval_interval] with [do_valid] set. *)
Theorem train_calls_in_order args tit vit w :
  let res := train args tit vit w in
  exists evs,
    trace (snd res) = (trace w ++ evs)%list /\
    (forall j, In (EvTrainingLog j) evs ->
       iteration args < j <= train_iters args /\
       forall k, iteration args < k < j -> interval_hit (exit_interval args) k = false) /\
    (forall j, In (EvSaveCheckpoint j) evs ->
       truthy_str (save args) = true /\ interval_hit (save_interval args) j = true) /\
    (forall key j, In (EvTbWandbLog key j) evs ->
       interval_hit (eval_interval args) j = true /\ do_valid args = true /\
       String.prefix "validation/" key = true).
Proof.
  intros res. subst res.
  destruct (train_calls args tit vit w) as [_ [_ (evs & Ht & Hevs)]].
  exists evs. split; [exact Ht|].
  rewrite List.Forall_forall in Hevs.
  split; [|split].
  - intros j Hin. exact (Hevs _ Hin).
  - intros j Hin. exact (Hevs _ Hin).
  - intros key j Hin. exact (Hevs _ Hin).
Qed.

End Schedule.

(** X3, on the concrete instance: four iterations with a checkpoint
    every second iteration. *)
Lemma train_saves_on_schedule_run :
  let res := train (E := Toy.externals) Lab.four_iterations (Some tt) (Some tt)
               (Toy.start false true false) in
  fst res = Ok 4 /\ collect checkpoint_of (trace (snd res)) = [2; 4].
Proof.
  cbv zeta.
  assert (Heq : train (E := Toy.externals) Lab.four_iterations (Some tt) (Some tt)
                  (Toy.start false true false)
                = (Ok 4,
                   snd (train (E := Toy.externals) Lab.four_iterations (Some tt) (Some tt)
                          (Toy.start false true false))))
    by (vm_compute; reflexivity).
  split; [now rewrite Heq|].
  destruct (train_saves_on_schedule (E := Toy.externals) _ _ _ _ _ _ Heq) as [Hsaved _].
  rewrite Hsaved. vm_compute. reflexivity.
Defined.

(** ** Manual mode: the loop stops in its first step *)

Section Stalled.
Context `{E : Externals}.
Context (args : NeoXArgs) (Hpipe : is_pipe_parallel args = false).

Lemma batch_event_stalled g ev : batch_event g ev -> stalled_event g ev.
Proof. destruct ev; simpl; tauto. Qed.

Lemma forward_step_stalled it rl : runs (stamps stalled_event) (forward_step it args rl).
Proof.
  pose proof (fun it => stamps_mono batch_event stalled_event _ batch_event_stalled
                          (get_batch_calls args it)) as Hgb.
  unfold forward_step, timer. rewrite Hpipe. runs_structure.
Qed.

(** The [backward_step] call of the manual loop is refused, whatever
    follows it. *)
Lemma backward_step_call_stalled {B} loss (k : unit -> M B) :
  runs (stamps stalled_event)
    (bind (call Sig.backward_step ["neox_args"; "optimizer"; "model"; "loss"]
             (backward_step args loss)) k).
Proof.
  apply runs_bind_never_returns.
  - intros w. rewrite (call_refused _ _ _ _ w backward_step_call_refused).
    split; [discriminate | reflexivity].
  - intros w a w' H. rewrite (call_refused _ _ _ _ w backward_step_call_refused) in H.
    discriminate H.
Qed.

Lemma micro_batch_stalled it losses : runs (stamps stalled_event) (micro_batch args it losses).
Proof.
  pose proof forward_step_stalled as Hfs.
  pose proof (fun loss => @backward_step_call_stalled (list (fwd FTensor)) loss) as Hbs.
  unfold micro_batch, timer. runs_structure.
Qed.

Lemma manual_loop_never_returns it losses :
  1 <= gradient_accumulation_steps args ->
  never_returns (for_range (gradient_accumulation_steps args) (micro_batch args it) losses).
Proof.
  intros Hgas. unfold for_range.
  destruct (Z.to_nat (gradient_accumulation_steps args)) as [|n] eqn:Hn; [lia|].
  simpl. apply never_returns_bind_l.
  intros w a w'. apply micro_batch_never_returns.
Qed.

Lemma train_step_stalled it :
  1 <= gradient_accumulation_steps args ->
  runs (stamps stalled_event) (train_step args it).
Proof.
  intros Hgas. pose proof micro_batch_stalled as Hmb.
  unfold train_step. rewrite Hpipe.
  apply runs_bind_never_returns.
  - apply runs_bind_never_returns; [|now apply manual_loop_never_returns].
    runs_structure.
  - apply never_returns_bind_l. now apply manual_loop_never_returns.
Qed.

Lemma train_stalled tit vit :
  1 <= gradient_accumulation_steps args ->
  iteration args < train_iters args ->
  runs (stamps stalled_event) (train args tit vit) /\ never_returns (train args tit vit).
Proof.
  intros Hgas Hiter.
  assert (Hstep : never_returns (train_step args tit)).
  { intros w r w'. now apply train_step_manual_never_returns. }
  assert (Hloop : forall rmf,
             runs (stamps stalled_event)
               (train_loop (Z.to_nat (train_iters args - iteration args)) args tit vit
                  (iteration args) rmf) /\
             never_returns
               (train_loop (Z.to_nat (train_iters args - iteration args)) args tit vit
                  (iteration args) rmf)).
  { intros rmf.
    destruct (Z.to_nat (train_iters args - iteration args)) as [|fuel] eqn:Hfuel; [lia|].
    simpl. apply Z.ltb_lt in Hiter. rewrite Hiter. split.
    - apply runs_bind_never_returns; [|now apply never_returns_call].
      apply runs_call; [typeclasses eauto|]. now apply train_step_stalled.
    - apply never_returns_bind_l. now apply never_returns_call. }
  split.
  - pose proof (fun rmf => proj1 (Hloop rmf)) as Hl.
    unfold train, timer. runs_structure.
  - unfold train. repeat (apply never_returns_bind_r; intros).
    apply Hloop.
Qed.

End Stalled.

(** X5: without pipeline parallelism, with at least one accumulation
    step and at least one iteration left, [train] never returns: it ends
    in an exception inside its first training step, having called nothing
    but the calls that open the loop, timers, the data iterator, the
    broadcast and forward passes; no backward pass, no [model.step()], no
    [training_log] call and no checkpoint. *)
Theorem train_manual_mode_stalls `{E : Externals} args tit vit w :
  is_pipe_parallel args = false ->
  1 <= gradient_accumulation_steps args ->
  iteration args < train_iters args ->
  let res := train args tit vit w in
  (exists e, fst res = Raise e) /\
  exists evs,
    trace (snd res) = (trace w ++ evs)%list /\
    Forall (stalled_event (grad_enabled (mem w))) evs /\
    List.filter is_update evs = [] /\ logged evs = [] /\ collect checkpoint_of evs = [].
Proof.
  intros Hpipe Hgas Hiter res. subst res.
  destruct (train_stalled args Hpipe tit vit Hgas Hiter) as [Hruns Hnever].
  destruct (Hruns w) as [Hfuel [_ (evs & Ht & Hevs)]].
  split.
  - destruct (train args tit vit w) as [[n|e|] w'] eqn:Heq.
    + now apply Hnever in Heq.
    + now exists e.
    + now contradiction Hfuel.
  - exists evs. split; [exact Ht|]. split; [exact Hevs|].
    split; [|split].
    + clear Ht. induction Hevs as [|ev evs Hev _ IH]; [reflexivity|].
      destruct ev; simpl in *; try exact IH; contradiction.
    + apply (logged_quiet (grad_enabled (mem w))).
      eapply Forall_impl; [exact Hevs|]. intros ev. destruct ev; simpl; tauto.
    + apply collect_none. eapply Forall_impl; [exact Hevs|].
      intros ev. destruct ev; simpl; tauto.
Qed.

(** X5, on the concrete instance with one accumulation step. *)
Lemma train_manual_mode_stalls_run :
  let res := train (E := Toy.externals) (Toy.manual 1) (Some tt) (Some tt)
               (Toy.start false true false) in
  (exists e, fst res = Raise e) /\ logged (trace (snd res)) = [].
Proof.
  intros res.
  destruct (train_manual_mode_stalls (E := Toy.externals) (Toy.manual 1) (Some tt) (Some tt)
              (Toy.start false true false)) as [Hraise (evs & Ht & _ & _ & Hlog & _)];
    [reflexivity | simpl; lia | simpl; lia |].
  split; [exact Hraise|].
  fold res in Ht. rewrite Ht. exact Hlog.
Defined.

(** ** The mode of the model after a run of [train] *)

Section TrainingMode.
Context `{E : Externals}.

Lemma same_mode_kept {A} (m : M A) w r w' :
  runs same_mode m -> m w = (r, w') -> training (mem w') = training (mem w).
Proof. intros Hm Heq. destruct (Hm w) as [_ HR]. now rewrite Heq in HR. Qed.

(** A report that returns leaves the model in training mode, whatever the
    mode before. *)
Lemma evaluate_and_print_results_training_mode args fs it i verbose w u w' :
  evaluate_and_print_results args fs it i verbose w = (Ok u, w') ->
  training (mem w') = true.
Proof.
  unfold evaluate_and_print_results, print_rank_0. intros H.
  apply bind_inv_ok in H. destruct H as (results & w1 & Hc & H).
  apply call_inv_ok in Hc. destruct Hc as [_ Hc]. apply evaluate_training_mode in Hc.
  rewrite <- Hc. eapply same_mode_kept; [|exact H]. runs_structure.
Qed.

Lemma train_loop_training_mode args tit vit :
  forall fuel i rmf w n w',
    train_loop fuel args tit vit i rmf w = (Ok n, w') ->
    training (mem w) = true -> training (mem w') = true.
Proof.
  pose proof (same_mode_train_step args) as Hts.
  induction fuel as [|fuel IH]; intros i rmf w n w' H Hmode; simpl in H;
    destruct (i <? train_iters args).
  - discriminate H.
  - apply ret_inv in H. destruct H as [_ <-]. exact Hmode.
  - invert_binds H.
    match goal with
    | Hx : (if interval_hit (exit_interval args) _ then _ else _) _ = (Ok _, _) |- _ =>
        destruct (interval_hit (exit_interval args) (i + 1));
        [ now apply synchronized_exit_never_returns in Hx
        | apply ret_inv in Hx; destruct Hx as [_ <-] ]
    end.
    apply IH in H; [exact H|].
    match goal with
    | Hx : (if (interval_hit (eval_interval args) _ && _)%bool then _ else _) ?wa
           = (Ok _, ?wb) |- training (mem ?wb) = true =>
        destruct (interval_hit (eval_interval args) (i + 1) && do_valid args)%bool;
        [ apply call_inv_ok in Hx; destruct Hx as [_ Hx];
          now apply evaluate_and_print_results_training_mode in Hx
        | apply ret_inv in Hx; destruct Hx as [_ <-] ]
    end.
    repeat match goal with
           | Hx : ?m ?wa = (Ok ?a, ?wb) |- training (mem ?wb) = true =>
               apply (same_mode_kept m wa (Ok a) wb) in Hx;
               [ rewrite Hx; clear Hx | solve [ runs_structure ] ]
           end.
    exact Hmode.
  - apply ret_inv in H. destruct H as [_ <-]. exact Hmode.
Qed.

(** X6: when [train] returns, the model is in training mode, whatever
    the mode before the call and however many validations ran in between:
    [train] switches it on, a training step leaves the mode alone, and
    every validation that returns has switched it back on. *)
Theorem train_returns_in_training_mode args tit vit w n w' :
  train args tit vit w = (Ok n, w') -> training (mem w') = true.
Proof.
  unfold train, timer. intros H. invert_binds H.
  apply train_loop_training_mode in H; [exact H|].
  repeat match goal with
         | Hx : ?m ?wa = (Ok ?a, ?wb) |- training (mem ?wb) = true =>
             lazymatch m with
             | set_training true => unfold set_training in Hx; now inversion Hx
             | _ => apply (same_mode_kept m wa (Ok a) wb) in Hx;
                    [ rewrite Hx; clear Hx | solve [ runs_structure ] ]
             end
         end.
Qed.

End TrainingMode.

(** X6, on the concrete instance: four iterations, started in
    evaluation mode, with a validation after every second one. *)
Lemma train_returns_in_training_mode_run :
  let res := train (E := Toy.externals)
               (Lab.scheduled None None (Some 2) true (Toy.retarget "Adam" 4 Toy.pipeline))
               (Some tt) (Some tt) (Toy.start false true false) in
  fst res = Ok 4 /\ training (mem (snd res)) = true.
Proof.
  cbv zeta.
  assert (Heq : train (E := Toy.externals)
                  (Lab.scheduled None None (Some 2) true (Toy.retarget "Adam" 4 Toy.pipeline))
                  (Some tt) (Some tt) (Toy.start false true false)
                = (Ok 4,
                   snd (train (E := Toy.externals)
                          (Lab.scheduled None None (Some 2) true
                             (Toy.retarget "Adam" 4 Toy.pipeline))
                          (Some tt) (Some tt) (Toy.start false true false))))
    by (vm_compute; reflexivity).
  split; [now rewrite Heq|].
  exact (train_returns_in_training_mode (E := Toy.externals) _ _ _ _ _ _ Heq).
Defined.

(** ** The evaluator: forward passes and failures *)

Section Passes.
Context `{E : Externals}.

Lemma batch_event_no_forward g ev : batch_event g ev -> runs_model ev = None.
Proof. destruct ev; simpl; tauto. Qed.

(** A forward step that returns has made one forward pass, under the
    switch it was called with. *)
Lemma forward_step_one_pass it args rl w r w' :
  forward_step it args rl w = (Ok r, w') ->
  collect runs_model (trace w')
  = (collect runs_model (trace w) ++ [grad_enabled (mem w)])%list /\
  grad_enabled (mem w') = grad_enabled (mem w).
Proof.
  unfold forward_step, timer. intros H.
  apply bind_inv_ok in H. destruct H as (u & w1 & H1 & H).
  apply (emit_collect runs_model) in H1. destruct H1 as [Ht1 Hm1]. simpl in Ht1.
  rewrite app_nil_r in Ht1.
  destruct (is_pipe_parallel args).
  - invert_binds H.
    match goal with
    | Hr : read _ _ = _ |- _ => apply read_inv in Hr; destruct Hr as [-> ->]
    end.
    match goal with
    | He : emit _ _ = _ |- _ =>
        apply (emit_collect runs_model) in He; destruct He as [He Hm2]
    end.
    apply run_ext_inv in H. destruct H as (x' & _ & ->). simpl.
    rewrite Hm2, Hm1. split; [|reflexivity]. simpl in *. congruence.
  - invert_binds H.
    match goal with
    | Hr : read _ _ = _ |- _ => apply read_inv in Hr; destruct Hr as [-> ->]
    end.
    match goal with
    | Hc : call Sig.get_batch _ _ ?wa = (Ok ?a, ?wb) |- _ =>
        apply (stamps_collect batch_event runs_model _ wa (Ok a) wb
                 batch_event_no_forward) in Hc;
        [ destruct Hc as [Hc Hg] | solve [ pose proof get_batch_calls; runs_structure ] ]
    end.
    repeat match goal with
           | He : emit _ _ = _ |- _ =>
               apply (emit_collect runs_model) in He; destruct He as [? ?]
           end.
    repeat match goal with
           | Hr : run_ext _ _ = _ |- _ => apply run_ext_inv in Hr; destruct Hr as (? & _ & ->)
           end.
    destruct rl; apply ret_inv in H; destruct H as [_ <-]; simpl in *;
      rewrite ?app_nil_r in *; split; congruence.
Qed.

Lemma forward_passes_iterate args it :
  forall n losses w ls w',
    iterate n
      (fun losses => let* loss := forward_step_as_fn args it in ret (losses ++ [loss])%list)
      losses w = (Ok ls, w') ->
    collect runs_model (trace w')
    = (collect runs_model (trace w) ++ replicate n (grad_enabled (mem w)))%list /\
    grad_enabled (mem w') = grad_enabled (mem w) /\
    length ls = (length losses + n)%nat.
Proof.
  induction n as [|n IH]; intros losses w ls w' H; simpl in H.
  - apply ret_inv in H. destruct H as [<- <-]. simpl. rewrite app_nil_r. repeat split. lia.
  - invert_binds H.
    match goal with
    | Hb : bind (forward_step_as_fn _ _) _ _ = _ |- _ =>
        invert_binds Hb; apply ret_inv in Hb; destruct Hb as [<- <-]
    end.
    match goal with
    | Hf : forward_step_as_fn _ _ _ = _ |- _ =>
        unfold forward_step_as_fn in Hf; apply call_inv_ok in Hf; destruct Hf as [_ Hf];
        apply forward_step_one_pass in Hf; destruct Hf as [Ht Hg]
    end.
    apply IH in H. destruct H as (Ht' & Hg' & Hlen).
    rewrite Ht', Ht, Hg', Hg. rewrite length_app in Hlen. simpl in Hlen.
    rewrite <- app_assoc. simpl. repeat split. lia.
Qed.

Lemma forward_passes_loop args it verbose :
  forall fuel i losses w ls w',
    evaluate_loop fuel args forward_step_as_fn it verbose i losses w = (Ok ls, w') ->
    let per_iter :=
      Z.to_nat (if is_pipe_parallel args then 1 else gradient_accumulation_steps args) in
    let passes := (Z.to_nat (eval_iters args - i) * per_iter)%nat in
    collect runs_model (trace w')
    = (collect runs_model (trace w) ++ replicate passes (grad_enabled (mem w)))%list /\
    grad_enabled (mem w') = grad_enabled (mem w) /\
    length ls = (length losses + passes)%nat.
Proof.
  induction fuel as [|fuel IH]; intros i losses w ls w' H per_iter passes; simpl in H;
    destruct (i <? eval_iters args) eqn:Hlt.
  - discriminate H.
  - apply ret_inv in H. destruct H as [<- <-]. apply Z.ltb_ge in Hlt.
    subst passes. replace (Z.to_nat (eval_iters args - i)) with 0%nat by lia.
    simpl. rewrite app_nil_r. repeat split. lia.
  - apply Z.ltb_lt in Hlt. invert_binds H.
    apply IH in H. cbv zeta in H. fold per_iter in H. destruct H as (Ht & Hg & Hlen).
    match goal with
    | Hf : for_range _ _ _ _ = _ |- _ =>
        unfold for_range in Hf; apply forward_passes_iterate in Hf;
        fold per_iter in Hf; destruct Hf as (Ht1 & Hg1 & Hlen1)
    end.
    repeat match goal with
           | Hx : ?m ?wa = (Ok ?a, ?wb) |- _ =>
               apply (stamps_collect (fun _ ev => runs_model ev = None) runs_model
                        m wa (Ok a) wb (fun _ _ Hn => Hn)) in Hx;
               [ destruct Hx as [? ?]
               | solve [ unfold print_rank_0; runs_structure ] ]
           end.
    subst passes.
    replace (Z.to_nat (eval_iters args - i))
      with (S (Z.to_nat (eval_iters args - (i + 1)))) by lia.
    simpl. rewrite replicate_add, app_assoc.
    split; [|split]; [congruence | congruence | lia].
  - apply ret_inv in H. destruct H as [<- <-]. apply Z.ltb_ge in Hlt.
    subst passes. replace (Z.to_nat (eval_iters args - i)) with 0%nat by lia.
    simpl. rewrite app_nil_r. repeat split. lia.
Qed.

End Passes.

Section EvaluatePasses.
Context `{E : Externals}.

Lemma evaluate_loop_reduces_nothing args it verbose w r w' :
  with_no_grad
    (evaluate_loop (Z.to_nat (eval_iters args)) args forward_step_as_fn it verbose 0 [])
    w = (r, w') ->
  collect reduced_of (trace w') = collect reduced_of (trace w).
Proof.
  intros H.
  eapply (stamps_collect (fun _ ev => reduced_of ev = None) reduced_of _ w r w'
            (fun _ _ Hn => Hn)); [|exact H].
  eapply stamps_with_no_grad; [|apply evaluate_loop_calls; rewrite Z.sub_0_r; lia].
  intros g ev [Hf | [-> | ->]]; [|reflexivity ..].
  destruct ev; simpl in *; tauto.
Qed.

(** X7: when [evaluate] returns, the calls it has made that run the model
    are [eval_iters * (1 if is_pipe_parallel else gradient_accumulation_steps)]
    forward passes of its own loop, every one of them with the autograd
    switch off, followed, when [eval_tasks] is not empty, by the one call
    of the evaluation harness, made under the switch of the caller: what
    the harness runs with the model and the forward step it is handed is
    inside that call. Exactly as many losses as forward passes of the loop
    were handed to [reduce_losses], in one call. *)
Theorem evaluate_forward_passes args it verbose w r w' :
  evaluate args forward_step_as_fn it verbose w = (Ok r, w') ->
  let passes :=
    (Z.to_nat (eval_iters args) *
     Z.to_nat (if is_pipe_parallel args then 1 else gradient_accumulation_steps args))%nat in
  exists evs,
    trace w' = (trace w ++ evs)%list /\
    collect runs_model evs
    = (replicate passes false ++
       match eval_tasks args with
       | [] => []
       | _ :: _ => [grad_enabled (mem w)]
       end)%list /\
    collect reduced_of evs = [passes].
Proof.
  intros H passes.
  destruct (evaluate_events args it verbose w) as [_ [_ (evs & Ht & _)]].
  rewrite H in Ht. simpl in Ht. exists evs. split; [exact Ht|].
  assert (Hboth :
            collect runs_model (trace w')
            = ((collect runs_model (trace w) ++ replicate passes false) ++
               match eval_tasks args with
               | [] => []
               | _ :: _ => [grad_enabled (mem w)]
               end)%list /\
            collect reduced_of (trace w')
            = (collect reduced_of (trace w) ++ [passes])%list).
  { clear Ht evs. unfold evaluate, print_rank_0 in H. invert_binds H.
    apply ret_inv in H. destruct H as [_ <-].
    match goal with
    | Hl : with_no_grad _ ?wa = (Ok ?ls, ?wb) |- _ =>
        pose proof (evaluate_loop_reduces_nothing _ _ _ _ _ _ Hl) as Hred;
        apply with_no_grad_inv in Hl; destruct Hl as (w1 & Hl & Hw1);
        apply forward_passes_loop in Hl; cbv zeta in Hl; rewrite Z.sub_0_r in Hl;
        fold passes in Hl; destruct Hl as (Hfwd & _ & Hlen);
        simpl in Hfwd, Hlen;
        assert (Hfwd' : collect runs_model (trace wb)
                        = (collect runs_model (trace wa) ++ replicate passes false)%list)
          by (rewrite Hw1; exact Hfwd);
        assert (Hmode : grad_enabled (mem wb) = grad_enabled (mem wa))
          by (rewrite Hw1; reflexivity)
    end.
    match goal with
    | He : emit (EvReduceLosses _) _ = _ |- _ =>
        pose proof (emit_collect runs_model _ _ _ _ He) as [Hf1 Hm1];
        apply (emit_collect reduced_of) in He; destruct He as [Hr1 _];
        simpl in Hf1, Hr1; rewrite app_nil_r in Hf1; rewrite Hlen in Hr1
    end.
    split.
    - repeat match goal with
             | Hx : ?m ?wa = (Ok ?a, ?wb) |- _ =>
                 apply (stamps_collect (fun _ ev => runs_model ev = None) runs_model
                          m wa (Ok a) wb (fun _ _ Hn => Hn)) in Hx;
                 [ destruct Hx as [? ?] | solve [ runs_structure ] ]
             end.
      match goal with
      | Hh : (match eval_tasks args with [] => _ | _ :: _ => _ end) _ = (Ok _, _) |- _ =>
          destruct (eval_tasks args) as [|task tasks];
          [ apply ret_inv in Hh; destruct Hh as [_ <-]; rewrite app_nil_r
          | invert_binds Hh;
            apply ret_inv in Hh; destruct Hh as [_ <-];
            repeat match goal with
                   | Hr : read _ _ = _ |- _ => apply read_inv in Hr; destruct Hr as [-> ->]
                   | Hr : run_ext _ _ = _ |- _ =>
                       apply run_ext_inv in Hr; destruct Hr as (? & _ & ->)
                   | He : emit _ _ = _ |- _ =>
                       apply (emit_collect runs_model) in He; destruct He as [? ?]
                   end;
            simpl in * ]
      end.
      + congruence.
      + rewrite Hm1 in *. congruence.
    - repeat match goal with
             | Hx : ?m ?wa = (Ok ?a, ?wb) |- _ =>
                 apply (stamps_collect (fun _ ev => reduced_of ev = None) reduced_of
                          m wa (Ok a) wb (fun _ _ Hn => Hn)) in Hx;
                 [ destruct Hx as [Hx _] | solve [ runs_structure ] ]
             end.
      congruence. }
  destruct Hboth as [Hf Hr].
  rewrite Ht in Hf. rewrite Ht in Hr. rewrite collect_app in Hf. rewrite collect_app in Hr.
  rewrite <- app_assoc in Hf.
  apply app_inv_head in Hf. apply app_inv_head in Hr. now split.
Qed.

End EvaluatePasses.

(** X7, on the concrete instance in manual mode, called with the switch
    on: two evaluation iterations of two micro-batches each make four
    forward passes with the switch off; with a harness task, the harness
    call follows with the switch on. *)
Lemma evaluate_forward_passes_run :
  let quiet_run :=
    evaluate (E := Toy.externals) (Toy.manual 2) forward_step_as_fn (Some tt) false
      (Toy.start true true false) in
  let harness_run :=
    evaluate (E := Toy.externals)
      (Toy.config false 2 None false ["lambada"] false "Adam" Toy.adam_block)
      forward_step_as_fn (Some tt) false (Toy.start true true false) in
  (collect runs_model (trace (snd quiet_run)) = [false; false; false; false] /\
   collect reduced_of (trace (snd quiet_run)) = [4%nat]) /\
  (collect runs_model (trace (snd harness_run)) = [false; false; false; false; true] /\
   collect reduced_of (trace (snd harness_run)) = [4%nat]).
Proof.
  cbv zeta. split.
  - assert (Hok : exists r,
               fst (evaluate (E := Toy.externals) (Toy.manual 2) forward_step_as_fn
                      (Some tt) false (Toy.start true true false)) = Ok r)
      by (vm_compute; eexists; reflexivity).
    destruct Hok as [r Hok].
    destruct (evaluate (E := Toy.externals) (Toy.manual 2) forward_step_as_fn (Some tt) false
                (Toy.start true true false)) as [o w'] eqn:Heq.
    simpl in Hok. subst o.
    destruct (evaluate_forward_passes (E := Toy.externals) _ _ _ _ _ _ Heq)
      as (evs & Ht & Hf & Hr).
    cbn [snd]. rewrite Ht. split; [exact Hf | exact Hr].
  - assert (Hok : exists r,
               fst (evaluate (E := Toy.externals)
                      (Toy.config false 2 None false ["lambada"] false "Adam" Toy.adam_block)
                      forward_step_as_fn (Some tt) false (Toy.start true true false)) = Ok r)
      by (vm_compute; eexists; reflexivity).
    destruct Hok as [r Hok].
    destruct (evaluate (E := Toy.externals)
                (Toy.config false 2 None false ["lambada"] false "Adam" Toy.adam_block)
                forward_step_as_fn (Some tt) false (Toy.start true true false))
      as [o w'] eqn:Heq.
    simpl in Hok. subst o.
    destruct (evaluate_forward_passes (E := Toy.externals) _ _ _ _ _ _ Heq)
      as (evs & Ht & Hf & Hr).
    cbn [snd]. rewrite Ht. split; [exact Hf | exact Hr].
Defined.

(** ** The evaluator: a failure leaves the model in evaluation mode *)

Section EvaluateFailure.
Context `{E : Externals}.

Lemma same_mode_evaluate_loop args it verbose :
  forall fuel i losses,
    (Z.to_nat (eval_iters args - i) <= fuel)%nat ->
    runs same_mode (evaluate_loop fuel args forward_step_as_fn it verbose i losses).
Proof.
  pose proof same_mode_forward_step as Hfs.
  induction fuel as [|fuel IH]; intros i losses Hfuel; simpl;
    destruct (i <? eval_iters args) eqn:Hlt;
    try (apply Z.ltb_lt in Hlt; lia);
    unfold forward_step_as_fn, print_rank_0; runs_structure.
  apply IH. apply Z.ltb_lt in Hlt. lia.
Qed.

(** Between [model.eval()] and [model.train()], [evaluate] leaves the
    mode alone when it raises. *)
Lemma evaluate_raising_keeps_mode args it verbose w0 e w' :
  evaluate args forward_step_as_fn it verbose w0 = (Raise e, w') ->
  training (mem w') = false.
Proof.
  assert (Hloop : forall it',
             runs same_mode
               (with_no_grad
                  (evaluate_loop (Z.to_nat (eval_iters args)) args forward_step_as_fn
                     it' verbose 0 []))).
  { intros it'. apply same_mode_with_no_grad, same_mode_evaluate_loop.
    rewrite Z.sub_0_r. lia. }
  assert (Hend : forall r : gmap string value,
             raising_keeps_mode (set_training true ;; ret r)).
  { intros r w e0 w1 H. unfold bind, set_training, ret in H. discriminate H. }
  unfold evaluate, print_rank_0. intros H.
  apply bind_cases in H. destruct H as [(u & w1 & H1 & H) | [(e' & H1 & _) | [_ H]]];
    [|discriminate H1 | discriminate H].
  apply emit_inv in H1. subst w1.
  apply bind_cases in H. destruct H as [(u' & w2 & H2 & H) | [(e' & H2 & _) | [_ H]]];
    [|discriminate H2 | discriminate H].
  unfold set_training in H2. inversion H2; subst w2; clear H2.
  revert H.
  match goal with
  | |- ?m ?w = _ -> _ =>
      assert (Hk : raising_keeps_mode m);
      [ | intros H; apply Hk in H; exact H ]
  end.
  repeat (apply raising_keeps_mode_bind; [ solve [ runs_structure ] | intro ]).
  apply Hend.
Qed.

(** X8: when [evaluate] raises (the data iterator runs dry, a
    collaborator fails, [log_interval] is zero under [verbose]), the
    autograd switch is back where the caller left it, but the model stays
    in evaluation mode: [model.train()] is only reached on return. *)
Theorem evaluate_failure_leaves_eval_mode args it verbose w e w' :
  evaluate args forward_step_as_fn it verbose w = (Raise e, w') ->
  training (mem w') = false /\ grad_enabled (mem w') = grad_enabled (mem w).
Proof.
  intros H. split.
  - now apply evaluate_raising_keeps_mode in H.
  - destruct (evaluate_events args it verbose w) as [_ [Hg _]].
    now rewrite H in Hg.
Qed.

End EvaluateFailure.

(** X8, on the concrete instance in manual mode: an evaluation that asks
    for six batches from an iterator holding four ends in [StopIteration]
    with the model, in training mode before, left in evaluation mode. *)
Lemma evaluate_failure_leaves_eval_mode_run :
  let res := evaluate (E := Toy.externals) (Toy.manual 3) forward_step_as_fn (Some tt) false
               (Toy.start true true false) in
  fst res = Raise StopIteration /\ training (mem (snd res)) = false.
Proof.
  cbv zeta.
  assert (Hr : fst (evaluate (E := Toy.externals) (Toy.manual 3) forward_step_as_fn
                      (Some tt) false (Toy.start true true false)) = Raise StopIteration)
    by (vm_compute; reflexivity).
  split; [exact Hr|].
  destruct (evaluate (E := Toy.externals) (Toy.manual 3) forward_step_as_fn (Some tt) false
              (Toy.start true true false)) as [o w'] eqn:Heq.
  simpl in Hr. subst o.
  exact (proj1 (evaluate_failure_leaves_eval_mode (E := Toy.externals) _ _ _ _ _ _ Heq)).
Defined.

Section VerboseEvaluation.
Context `{E : Externals}.

(** X9: a verbose evaluation (as [pretrain] runs on the test data) with
    [log_interval = 0] and at least one iteration to evaluate ends in
    [ZeroDivisionError] at the first progress test: before any forward
    pass, with the model switched to evaluation mode and the autograd
    switch back where it was. *)
Theorem evaluate_verbose_needs_log_interval args (fs : forward_fn) it w :
  log_interval args = 0 ->
  1 <= eval_iters args ->
  char_level_ppl args = false ->
  evaluate args fs it true w
  = (Raise ZeroDivisionError,
     {| mem := {| training := false; grad_enabled := grad_enabled (mem w);
                  ext := ext (mem w) |};
        trace := (trace w ++ [EvModelEval])%list |}).
Proof.
  intros Hlog Hiters Hchar. unfold evaluate. rewrite Hchar.
  unfold bind, emit, set_training, ret, with_no_grad. simpl.
  destruct (Z.to_nat (eval_iters args)) as [|fuel] eqn:Hfuel; [lia|].
  simpl. assert (Hlt : (0 <? eval_iters args) = true) by (apply Z.ltb_lt; lia).
  rewrite Hlt, Hlog. reflexivity.
Qed.

End VerboseEvaluation.

(** X9, on the concrete instance with [log_interval = 0]. *)
Lemma evaluate_verbose_needs_log_interval_run :
  fst (evaluate (E := Toy.externals) Lab.silent forward_step_as_fn (Some tt) true
         (Toy.start true true false))
  = Raise ZeroDivisionError.
Proof.
  rewrite (evaluate_verbose_needs_log_interval (E := Toy.externals) Lab.silent
             forward_step_as_fn (Some tt) (Toy.start true true false));
    [reflexivity | reflexivity | simpl; lia | reflexivity].
Defined.

(** ** The metrics that [evaluate_and_print_results] logs *)

Section Metrics.
Context `{E : Externals}.

Lemma evaluator_event_no_metric g ev : evaluator_event g ev -> metric_of ev = None.
Proof. destruct ev; simpl; tauto. Qed.

Lemma for_each_collect {A B} (pick : event -> option B) (f : A -> list B)
    (body : A -> M unit) :
  (forall x w u w', body x w = (Ok u, w') ->
     collect pick (trace w') = (collect pick (trace w) ++ f x)%list) ->
  forall l w u w',
    for_each l body w = (Ok u, w') ->
    collect pick (trace w') = (collect pick (trace w) ++ flat_map f l)%list.
Proof.
  intros Hb. induction l as [|x l IH]; intros w u w' H; simpl in H.
  - apply ret_inv in H. destruct H as [_ <-]. simpl. now rewrite app_nil_r.
  - invert_binds H. apply IH in H.
    match goal with Hx : body _ _ = _ |- _ => apply Hb in Hx; rewrite H, Hx end.
    simpl. now rewrite app_assoc.
Qed.

Lemma log_metric_collect key v i w u w' :
  (lift (format_6E v) ;; emit (EvTbWandbLog key i) ;; run_ext (tb_wandb_log key v i)) w
  = (Ok u, w') ->
  collect metric_of (trace w') = (collect metric_of (trace w) ++ [(key, i)])%list.
Proof.
  intros H. invert_binds H. apply run_ext_inv in H. destruct H as (? & _ & ->).
  match goal with
  | Hl : lift _ _ = _ |- _ => unfold lift in Hl; inversion Hl; subst
  end.
  match goal with
  | He : emit _ _ = _ |- _ =>
      apply (emit_collect metric_of) in He; destruct He as [He _]; simpl in *; exact He
  end.
Qed.

(** Without character-level perplexity and harness tasks, the results
    of [evaluate] are the loss and its perplexity. *)
Lemma evaluate_default_results args fs it verbose w r w' :
  char_level_ppl args = false -> eval_tasks args = [] ->
  evaluate args fs it verbose w = (Ok r, w') ->
  exists lm_loss ppl,
    r = <[ "lm_loss_ppl" := VFloat ppl ]> {[ "lm_loss" := VFloat lm_loss ]}.
Proof.
  intros Hc Ht H. unfold evaluate in H. rewrite Hc, Ht in H. invert_binds H.
  apply ret_inv in H. destruct H as [<- _].
  repeat match goal with
         | Hr : ret _ _ = (Ok _, _) |- _ => apply ret_inv in Hr; destruct Hr as [<- _]
         end.
  eexists. eexists. reflexivity.
Qed.

(** X10: when [evaluate_and_print_results] returns, the metrics it has
    logged are, for every entry of the results of [evaluate] (in the order
    of the results, which is not tracked here), one [validation/<key>] for
    a number and one [validation/<key>_<key2>] for each entry of a nested
    dict, all at the iteration it was called with; without character-level
    perplexity and harness tasks these are [validation/lm_loss] and
    [validation/lm_loss_ppl]. Whatever its outcome, it logs no metric at
    another iteration or outside [validation/], and neither trains, nor
    calls [training_log], nor saves a checkpoint. *)
Theorem evaluate_and_print_results_metrics args it i verbose w :
  let res := evaluate_and_print_results args forward_step_as_fn it i verbose w in
  exists evs,
    trace (snd res) = (trace w ++ evs)%list /\
    (forall key j, In (EvTbWandbLog key j) evs ->
       j = i /\ String.prefix "validation/" key = true) /\
    List.filter is_update evs = [] /\ logged evs = [] /\ collect checkpoint_of evs = [] /\
    (forall u, fst res = Ok u ->
       exists results w1,
         evaluate args forward_step_as_fn it verbose w = (Ok results, w1) /\
         Permutation (collect metric_of evs)
           (flat_map (metrics_of_entry i) (map_to_list results)) /\
         (char_level_ppl args = false -> eval_tasks args = [] ->
          Permutation (collect metric_of evs)
            [("validation/lm_loss", i); ("validation/lm_loss_ppl", i)])).
Proof.
  intros res. subst res.
  destruct (evaluate_and_print_results_calls args it i verbose w)
    as [_ [_ (evs & Ht & Hevs)]].
  exists evs. split; [exact Ht|].
  split; [|split; [|split; [|split]]].
  - intros key j Hin. rewrite List.Forall_forall in Hevs. exact (Hevs _ Hin).
  - clear Ht. induction Hevs as [|ev evs Hev _ IH]; [reflexivity|].
    destruct ev; simpl in *; try exact IH; contradiction.
  - apply (logged_quiet (grad_enabled (mem w))).
    eapply Forall_impl; [exact Hevs|]. intros ev. destruct ev; simpl; tauto.
  - apply collect_none. eapply Forall_impl; [exact Hevs|].
    intros ev. apply report_event_no_checkpoint.
  - intros u Hu.
    destruct (evaluate_and_print_results args forward_step_as_fn it i verbose w)
      as [o w'] eqn:Heq.
    simpl in Hu, Ht. subst o.
    unfold evaluate_and_print_results, print_rank_0 in Heq. invert_binds Heq.
    match goal with
    | Hc : call Sig.evaluate _ _ w = (Ok ?r, ?wb) |- _ =>
        exists r, wb; apply call_inv_ok in Hc; destruct Hc as [_ Hc];
        pose proof Hc as Hresults;
        apply (stamps_collect evaluator_event metric_of _ w (Ok r) wb
                 evaluator_event_no_metric (evaluate_calls args it verbose)) in Hc;
        destruct Hc as [Hc _]
    end.
    split; [exact Hresults|].
    match goal with
    | |- Permutation _ ?l /\ _ => assert (Hlist : collect metric_of evs = l)
    end.
    { match goal with
      | Hf : for_each (map_to_list _) _ _ = _ |- _ =>
          apply (for_each_collect metric_of (metrics_of_entry i)) in Hf
      end.
      + repeat match goal with
               | He : emit (EvPrint _) _ = _ |- _ =>
                   apply (emit_collect metric_of) in He; destruct He as [He _];
                   simpl in He; rewrite app_nil_r in He
               end.
        assert (Hall : collect metric_of (trace w')
                       = (collect metric_of (trace w) ++
                          flat_map (metrics_of_entry i) (map_to_list x))%list) by congruence.
        rewrite Ht, collect_app in Hall. now apply app_inv_head in Hall.
      + intros [k v] wa u1 wb Hb. destruct v;
          try (apply log_metric_collect in Hb; exact Hb).
        simpl. apply (for_each_collect metric_of
                        (fun '(k2, _) => [("validation/" +:+ k +:+ "_" +:+ k2, i)])) in Hb.
        * rewrite Hb. f_equal. clear Hb.
          induction (map_to_list d) as [|[k2 v2] l IH]; simpl; [reflexivity|].
          now rewrite IH.
        * intros [k2 v2] wc u2 wd Hc'. apply log_metric_collect in Hc'. exact Hc'. }
    rewrite Hlist. split; [reflexivity|].
    intros Hchar Htasks.
    destruct (evaluate_default_results _ _ _ _ _ _ _ Hchar Htasks Hresults)
      as (lm_loss & ppl & ->).
    transitivity (flat_map (metrics_of_entry i)
                    [("lm_loss_ppl", VFloat ppl); ("lm_loss", VFloat lm_loss)]).
    + apply Permutation_flat_map.
      rewrite map_to_list_insert by (vm_compute; reflexivity).
      now rewrite map_to_list_singleton.
    + simpl. apply perm_swap.
Qed.

End Metrics.

(** ** The batch of the pipeline engine *)

Section PipeBatch.
Context `{E : Externals}.

Lemma drop_take_row (row : list Z) :
  drop 1 (take (length row - 1) row) = take (length (drop 1 row) - 1) (drop 1 row).
Proof.
  destruct row as [|a [|b row]]; try reflexivity.
  rewrite take_drop_commute, length_drop. f_equal. f_equal.
  change (length (a :: b :: row)) with (S (S (length row))). lia.
Qed.

Lemma slices_overlap (raw : Tensor.ids) :
  Tensor.drop_first_column (Tensor.drop_last_column raw)
  = Tensor.drop_last_column (Tensor.drop_first_column raw).
Proof.
  unfold Tensor.drop_first_column, Tensor.drop_last_column.
  rewrite !map_map. apply map_ext. intros row. apply drop_take_row.
Qed.

Lemma slices_shape (raw : Tensor.ids) rows cols :
  Tensor.has_shape raw rows cols ->
  Tensor.has_shape (Tensor.drop_last_column raw) rows (cols - 1) /\
  Tensor.has_shape (Tensor.drop_first_column raw) rows (cols - 1).
Proof.
  intros [Hrows Hcols].
  unfold Tensor.has_shape, Tensor.drop_first_column, Tensor.drop_last_column.
  rewrite !length_map. repeat split; try exact Hrows.
  - apply Forall_map. eapply Forall_impl; [exact Hcols|].
    intros row Hlen. simpl in *. rewrite length_take. lia.
  - apply Forall_map. eapply Forall_impl; [exact Hcols|].
    intros row Hlen. simpl in *. rewrite length_drop. lia.
Qed.

(** X11: the batch that [get_batch_pipe] hands to the pipeline engine is
    made of the broadcast ["text"] tensor: the inputs are its columns but
    the last, the labels its columns but the first, so that both have one
    column less than the raw tensor and the labels are the inputs shifted
    by one; the masks and position ids are computed from the inputs, and
    come regrouped as [(tokens, position_ids, attention_mask)] and
    [(labels, loss_mask)]. *)
Theorem get_batch_pipe_shapes args data w tokens position_ids attention_mask labels
    loss_mask w' :
  get_batch_pipe data args w
  = (Ok ((tokens, position_ids, attention_mask), (labels, loss_mask)), w') ->
  exists data_b raw,
    broadcast_data ["text"] data (mem w) = (Returned data_b, ext (mem w')) /\
    data_b !! "text" = Some raw /\
    tokens = Tensor.drop_last_column raw /\
    labels = Tensor.drop_first_column raw /\
    get_ltor_masks_and_position_ids tokens (eod (tokenizer args)) (eod_mask_loss args)
    = (attention_mask, loss_mask, position_ids) /\
    Tensor.drop_first_column tokens = Tensor.drop_last_column labels /\
    (forall rows cols,
       Tensor.has_shape raw rows cols ->
       Tensor.has_shape tokens rows (cols - 1) /\ Tensor.has_shape labels rows (cols - 1)).
Proof.
  unfold get_batch_pipe. intros H.
  apply bind_inv_ok in H. destruct H as ([[[[t l] lm] am] p] & w1 & H0 & H).
  apply ret_inv in H. destruct H as [H <-]. inversion H; subst. clear H.
  unfold _get_batch in H0.
  apply bind_inv_ok in H0. destruct H0 as (u & w2 & He & H0).
  apply emit_inv in He. subst w2.
  apply bind_inv_ok in H0. destruct H0 as (data_b & w3 & Hr & H0).
  apply run_ext_inv in Hr. destruct Hr as (xb & Hb & ->).
  apply bind_inv_ok in H0. destruct H0 as (raw & w4 & Hm & H0).
  destruct (data_b !! "text") as [raw'|] eqn:Htext; [|discriminate Hm].
  apply ret_inv in Hm. destruct Hm as [-> <-].
  destruct (get_ltor_masks_and_position_ids (Tensor.drop_last_column raw)
              (eod (tokenizer args)) (eod_mask_loss args)) as [[am' lm'] pids] eqn:Hmasks.
  apply ret_inv in H0. destruct H0 as [H0 <-]. inversion H0; subst. simpl in *.
  exists data_b, raw.
  refine (conj Hb (conj Htext (conj eq_refl (conj eq_refl (conj Hmasks (conj _ _)))))).
  - apply slices_overlap.
  - intros rows cols. apply slices_shape.
Qed.

End PipeBatch.

(** X11, on the 2 x 4 raw batch of the concrete instance. *)
Lemma get_batch_pipe_shapes_run :
  exists tokens labels,
    Tensor.has_shape tokens 2 3 /\ Tensor.has_shape labels 2 3 /\
    Tensor.drop_first_column tokens = Tensor.drop_last_column labels /\
    fst (get_batch_pipe (E := Toy.externals) (Some {[ "text" := Toy.raw_batch ]})
           Toy.pipeline (Toy.start true true false))
    = Ok ((tokens, [[0; 1; 2]; [0; 1; 2]], 0%float), (labels, 1%float)).
Proof.
  assert (Heq : get_batch_pipe (E := Toy.externals) (Some {[ "text" := Toy.raw_batch ]})
                  Toy.pipeline (Toy.start true true false)
                = (Ok ((Tensor.drop_last_column Toy.raw_batch, [[0; 1; 2]; [0; 1; 2]],
                        0%float),
                       (Tensor.drop_first_column Toy.raw_batch, 1%float)),
                   snd (get_batch_pipe (E := Toy.externals)
                          (Some {[ "text" := Toy.raw_batch ]})
                          Toy.pipeline (Toy.start true true false))))
    by (vm_compute; reflexivity).
  destruct (get_batch_pipe_shapes (E := Toy.externals) _ _ _ _ _ _ _ _ _ Heq)
    as (data_b & raw & Hb & Htext & Ht & Hl & _ & Hover & Hshape).
  assert (Hraw : raw = Toy.raw_batch).
  { simpl in Hb. inversion Hb; subst data_b. vm_compute in Htext.
    inversion Htext. reflexivity. }
  destruct (Hshape 2%nat 4%nat) as [Hts Hls].
  { rewrite Hraw. split; [reflexivity | repeat constructor]. }
  exists (Tensor.drop_last_column Toy.raw_batch), (Tensor.drop_first_column Toy.raw_batch).
  split; [exact Hts|]. split; [exact Hls|]. split; [exact Hover|].
  now rewrite Heq.
Defined.

(** ** The optimizer builder: ill-formed blocks and what is built *)

(** The class that the [adam] branch selects, from the equation [Ha] of
    the selection. *)
Ltac adam_class Ha :=
  repeat match type of Ha with
         | (if ?c then _ else _) _ = _ => destruct c
         end;
  try (apply ret_inv in Ha; destruct Ha as [<- <-]; split; [discriminate | reflexivity]);
  invert_binds Ha;
  try discriminate Ha;
  apply ret_inv in Ha; destruct Ha as [<- <-];
  match goal with
  | He : emit _ _ = _ |- _ => apply emit_inv in He; subst
  end;
  (split; [discriminate | reflexivity]).

Section OptimizerBlocks.
Context `{E : Externals}.

Lemma construct_twice cls param_groups wd args w d p v :
  optimizer args = VDict d ->
  d !! "params" = Some (VDict p) ->
  p !! "weight_decay" = Some v ->
  construct cls param_groups (Some wd) args w
  = (Raise (TypeError "got multiple values for keyword argument 'weight_decay'"), w).
Proof.
  intros Hd Hp Hv. unfold construct, bind, lift. rewrite Hd. simpl. rewrite Hp.
  unfold ret at 1. now rewrite Hv.
Qed.

Lemma construct_inv cls param_groups wd args w o w' :
  construct cls param_groups wd args w = (Ok o, w') ->
  w' = w /\
  o = {| opt_class := cls; opt_param_groups := param_groups;
         opt_weight_decay := wd; opt_kwargs := opt_kwargs o |} /\
  subscript (optimizer args) "params" = Ok (VDict (opt_kwargs o)) /\
  (wd = None \/ opt_kwargs o !! "weight_decay" = None).
Proof.
  unfold construct, bind, lift. intros H.
  destruct (subscript (optimizer args) "params") as [v|e|]; try discriminate H.
  destruct v; try discriminate H. unfold ret at 1 in H.
  destruct wd as [wd|]; [destruct (d !! "weight_decay") eqn:Hwd; [discriminate H|]|];
    apply ret_inv in H; destruct H as [<- <-]; simpl; auto.
Qed.

(** X12: with optimizer loading enabled, an optimizer block that cannot be
    subscripted with ["params"] makes [get_optimizer] raise before it
    prints or looks at the optimizer type (so also for [onebitadam] and
    for a type that is not recognized); and a ["params"] dict that holds
    [weight_decay] makes every constructor call that also passes
    [weight_decay=neox_args.weight_decay] raise [TypeError]: only [sm3],
    whose call does not pass it, and [onebitadam], which builds nothing,
    return. *)
Theorem get_optimizer_rejects_ill_formed_block args w :
  no_load_optim args = false ->
  let ty := lower (optimizer_type args) in
  let twice := TypeError "got multiple values for keyword argument 'weight_decay'" in
  (forall e, subscript (optimizer args) "params" = Raise e ->
     get_optimizer args w = (Raise e, w)) /\
  (forall d p v,
     optimizer args = VDict d -> d !! "params" = Some (VDict p) ->
     p !! "weight_decay" = Some v ->
     let res := fst (get_optimizer args w) in
     (mem_str ty ["cpu_adam"; "cpu_torch_adam"; "madgrad_wd"] = true -> res = Raise twice) /\
     (ty = "adam" ->
      res = if (use_bnb_optimizer args && negb bitsandbytes_installed)%bool
            then Raise BareException else Raise twice) /\
     (ty = "sm3" ->
      exists groups,
        res = Ok (Some {| opt_class := SM3; opt_param_groups := groups;
                          opt_weight_decay := None; opt_kwargs := p |}, Some groups)) /\
     (ty = "onebitadam" -> exists groups, res = Ok (None, Some groups))).
Proof.
  intros Hload ty twice. split.
  - intros e He. unfold get_optimizer. rewrite Hload.
    unfold bind, read, lift. now rewrite He.
  - intros d p v Hd Hp Hv res. subst res.
    assert (Hb : subscript (optimizer args) "params" = Ok (VDict p))
      by (rewrite Hd; simpl; now rewrite Hp).
    pose proof (get_optimizer_dispatch_form args w (VDict p) Hload Hb) as Hform.
    cbv zeta beta iota in Hform. rewrite Hv in Hform. fold ty in Hform.
    rewrite Hform. clear Hform.
    unfold mem_str. simpl existsb.
    destruct (String.eqb_spec ty "cpu_adam") as [->|N1];
      [|destruct (String.eqb_spec ty "cpu_torch_adam") as [->|N2];
        [|destruct (String.eqb_spec ty "onebitadam") as [->|N3];
          [|destruct (String.eqb_spec ty "sm3") as [->|N4];
            [|destruct (String.eqb_spec ty "madgrad_wd") as [->|N5];
              [|destruct (String.eqb_spec ty "adam") as [->|N6]]]]]];
      simpl;
      (split; [|split; [|split]]); intros; try discriminate; try congruence;
      try reflexivity; try (eexists; reflexivity).
    destruct (use_bnb_optimizer args); simpl.
    + destruct bitsandbytes_installed; reflexivity.
    + destruct apex_installed; reflexivity.
Qed.

Lemma tag_param_tagged p : model_parallel (tag_param p) <> None.
Proof. unfold tag_param. destruct (model_parallel p) eqn:H; simpl; congruence. Qed.

Lemma tag_param_keeps p :
  param_name (tag_param p) = param_name p /\
  requires_grad (tag_param p) = requires_grad p /\
  (forall b, model_parallel p = Some b -> tag_param p = p).
Proof.
  unfold tag_param. destruct (model_parallel p) eqn:H; simpl; repeat split; congruence.
Qed.

Lemma tag_param_idempotent p : tag_param (tag_param p) = tag_param p.
Proof. unfold tag_param. destruct (model_parallel p) eqn:H; simpl; now rewrite ?H. Qed.

(** Assignments by name leave a parameter alone that has the attribute. *)
Lemma tag_named_tagged names p b :
  model_parallel p = Some b -> fold_left (fun q name => tag_named name q) names p = p.
Proof.
  intros Hp. induction names as [|name names IH]; simpl; [reflexivity|].
  unfold tag_named at 2. destruct (String.eqb name (param_name p)); [|exact IH].
  destruct (tag_param_keeps p) as (_ & _ & Hkeep). now rewrite (Hkeep b Hp).
Qed.

(** Assignments by name tag a parameter without the attribute whose name
    is among them. *)
Lemma tag_named_untagged names p :
  model_parallel p = None -> In (param_name p) names ->
  fold_left (fun q name => tag_named name q) names p = tag_param p.
Proof.
  intros Hp. induction names as [|name names IH]; simpl; [tauto|].
  intros [Hname | Hin].
  - unfold tag_named at 2. rewrite Hname, String.eqb_refl.
    destruct (model_parallel (tag_param p)) as [b|] eqn:Ht;
      [|now apply tag_param_tagged in Ht].
    apply (tag_named_tagged names _ b Ht).
  - unfold tag_named at 2. destruct (String.eqb name (param_name p)); [|exact (IH Hin)].
    destruct (model_parallel (tag_param p)) as [b|] eqn:Ht;
      [|now apply tag_param_tagged in Ht].
    apply (tag_named_tagged names _ b Ht).
Qed.

Lemma untagged_names param_groups g p :
  In g param_groups -> In p (params g) -> model_parallel p = None ->
  In (param_name p) (untagged param_groups).
Proof.
  intros Hg Hp Hnone. unfold untagged. apply in_flat_map. exists g. split; [exact Hg|].
  apply in_flat_map. exists p. split; [exact Hp|]. rewrite Hnone. now left.
Qed.

(** When the setter and the reader agree, the groups read from the heap
    after the assignments to [names] are the groups before, with the
    assignments made on every parameter. *)
Lemma tag_all_read (Hagree : tagging_sets_attribute) names :
  forall h,
    get_params_for_weight_decay_optimization
      {| training := training h; grad_enabled := grad_enabled h;
         ext := tag_all names (ext h) |}
    = map (fun g =>
             {| params := map (fun p => fold_left (fun q name => tag_named name q) names p)
                            (params g);
                group_weight_decay := group_weight_decay g |})
        (get_params_for_weight_decay_optimization h).
Proof.
  induction names as [|name names IH]; intros h; simpl.
  - destruct h as [t g x]. simpl. rewrite <- (map_id (get_params_for_weight_decay_optimization _)) at 1.
    apply map_ext. intros [ps wd]. simpl. now rewrite map_id.
  - specialize (IH {| training := training h; grad_enabled := grad_enabled h;
                      ext := set_model_parallel name (ext h) |}).
    simpl in IH. unfold tag_all in *. simpl. rewrite IH, (Hagree name h), map_map.
    apply map_ext. intros [ps wd]. simpl. now rewrite map_map.
Qed.

(** X13: when [get_optimizer] returns an optimizer, it was constructed
    on the parameter groups that are returned with it, which are the
    trainable ones among the tagged groups of the model; its keyword
    arguments are the ["params"] dict of the optimizer block;
    [weight_decay=neox_args.weight_decay] was passed to every class but
    [SM3]. On the heap, [model_parallel] has been set on the model's
    parameters that lacked it, in the order of the groups, and nothing
    else has changed: a model whose parameters all have the attribute is
    left as it was, and where the setter and the reader of the parameters
    agree, the groups of the model are afterwards the tagged groups.
    Tagging gives every parameter a [model_parallel] attribute and changes
    neither its name, nor [requires_grad], nor an attribute that was set,
    nor the weight decay of the group. *)
Theorem get_optimizer_builds_on_returned_groups args w o groups w' :
  get_optimizer args w = (Ok (Some o, groups), w') ->
  let model_groups := get_params_for_weight_decay_optimization (mem w) in
  let tagged := map tag_group model_groups in
  groups = Some (filter_trainable_params tagged) /\
  opt_param_groups o = filter_trainable_params tagged /\
  subscript (optimizer args) "params" = Ok (VDict (opt_kwargs o)) /\
  opt_weight_decay o
  = match opt_class o with SM3 => None | _ => Some (weight_decay args) end /\
  (ext (mem w') = tag_all (untagged model_groups) (ext (mem w)) /\
   training (mem w') = training (mem w) /\
   grad_enabled (mem w') = grad_enabled (mem w)) /\
  (untagged model_groups = [] -> mem w' = mem w) /\
  (tagging_sets_attribute -> get_params_for_weight_decay_optimization (mem w') = tagged) /\
  Forall (fun g => Forall (fun p => model_parallel p <> None) (params g)) tagged /\
  (forall g, group_weight_decay (tag_group g) = group_weight_decay g /\
             map param_name (params (tag_group g)) = map param_name (params g) /\
             map requires_grad (params (tag_group g)) = map requires_grad (params g)) /\
  (forall p b, model_parallel p = Some b -> tag_param p = p).
Proof.
  intros H model_groups tagged.
  assert (Hbuilt : forall cls wd w1,
             cls <> SM3 \/ wd = None ->
             (wd = None -> cls = SM3) ->
             (forall x, wd = Some x -> x = weight_decay args) ->
             bind (construct cls (filter_trainable_params tagged) wd args)
               (fun o => ret (Some o, Some (filter_trainable_params tagged))) w1
             = (Ok (Some o, groups), w') ->
             (groups = Some (filter_trainable_params tagged) /\
              opt_param_groups o = filter_trainable_params tagged /\
              subscript (optimizer args) "params" = Ok (VDict (opt_kwargs o)) /\
              opt_weight_decay o
              = match opt_class o with SM3 => None | _ => Some (weight_decay args) end) /\
             mem w' = mem w1).
  { intros cls wd w1 Hcls Hnone Hsome Hb. invert_binds Hb.
    apply ret_inv in Hb. destruct Hb as [Hpair <-]. inversion Hpair; subst.
    match goal with
    | Hc : construct _ _ _ _ _ = _ |- _ =>
        apply construct_inv in Hc; destruct Hc as (-> & Ho & Hsub & _)
    end.
    rewrite Ho. simpl. repeat split; try assumption.
    destruct wd as [x|].
    - rewrite (Hsome x eq_refl). destruct cls; try reflexivity.
      destruct Hcls as [Hcls|Hcls]; [now contradiction Hcls | discriminate Hcls].
    - now rewrite (Hnone eq_refl). }
  assert (Htag : Forall (fun g => Forall (fun p => model_parallel p <> None) (params g)) tagged /\
                 (forall g, group_weight_decay (tag_group g) = group_weight_decay g /\
                            map param_name (params (tag_group g)) = map param_name (params g) /\
                            map requires_grad (params (tag_group g))
                            = map requires_grad (params g)) /\
                 (forall p b, model_parallel p = Some b -> tag_param p = p)).
  { split; [|split].
    - subst tagged. apply Forall_map. apply Forall_forall. intros g _. simpl.
      apply Forall_map. apply Forall_forall. intros p _. apply tag_param_tagged.
    - intros g. unfold tag_group. simpl. rewrite !map_map. repeat split;
        apply map_ext; intros p; apply tag_param_keeps.
    - intros p. apply tag_param_keeps. }
  cut ((groups = Some (filter_trainable_params tagged) /\
        opt_param_groups o = filter_trainable_params tagged /\
        subscript (optimizer args) "params" = Ok (VDict (opt_kwargs o)) /\
        opt_weight_decay o
        = match opt_class o with SM3 => None | _ => Some (weight_decay args) end) /\
       (ext (mem w') = tag_all (untagged model_groups) (ext (mem w)) /\
        training (mem w') = training (mem w) /\
        grad_enabled (mem w') = grad_enabled (mem w))).
  { intros [(Hg & Ho & Hk & Hwd) (Hx & Htr & Hgr)].
    repeat (split; [assumption|]).
    split; [repeat split; assumption|]. split; [|split; [|exact Htag]].
    - intros Hnone. rewrite Hnone in Hx. simpl in Hx.
      destruct (mem w') as [t1 g1 x1]. destruct (mem w) as [t0 g0 x0].
      simpl in *. congruence.
    - intros Hagree.
      replace (mem w') with {| training := training (mem w);
                               grad_enabled := grad_enabled (mem w);
                               ext := tag_all (untagged model_groups) (ext (mem w)) |}
        by (destruct (mem w') as [t1 g1 x1]; simpl in *; congruence).
      rewrite (tag_all_read Hagree). subst tagged. fold model_groups.
      apply map_ext_in. intros g Hg'. unfold tag_group. f_equal.
      apply map_ext_in. intros p Hp.
      destruct (model_parallel p) as [b|] eqn:Hmp.
      + rewrite (tag_named_tagged _ p b Hmp).
        destruct (tag_param_keeps p) as (_ & _ & Hkeep). now rewrite (Hkeep b Hmp).
      + apply tag_named_untagged; [exact Hmp|].
        now apply (untagged_names model_groups g p). }
  clear Htag.
  unfold get_optimizer in H.
  destruct (no_load_optim args);
    [apply ret_inv in H; destruct H as [H _]; discriminate H|].
  apply bind_inv_ok in H. destruct H as (gs & w1 & Hr & H).
  apply read_inv in Hr. destruct Hr as [-> ->].
  apply bind_inv_ok in H. destruct H as (v & w1 & Hs & H).
  unfold lift in Hs. inversion Hs; subst w1. clear Hs.
  apply bind_inv_ok in H. destruct H as (u & w1 & Hp & H).
  apply emit_inv in Hp. subst w1.
  apply bind_inv_ok in H. destruct H as (u' & w2 & Hloop & H).
  match type of Hloop with
  | add_model_parallel_attribute ?gs ?w1 = _ =>
      destruct (add_model_parallel_attribute_tags gs w1) as (w2' & Hloop' & _ & Htr & Hgr & Hx);
      rewrite Hloop' in Hloop; inversion Hloop; subst w2'; clear Hloop Hloop'
  end.
  simpl in Htr, Hgr, Hx. fold model_groups in Hx, H. fold tagged in H.
  cut ((groups = Some (filter_trainable_params tagged) /\
        opt_param_groups o = filter_trainable_params tagged /\
        subscript (optimizer args) "params" = Ok (VDict (opt_kwargs o)) /\
        opt_weight_decay o
        = match opt_class o with SM3 => None | _ => Some (weight_decay args) end) /\
       mem w' = mem w2).
  { intros [Hfacts Hmem]. split; [exact Hfacts|]. rewrite Hmem. repeat split; assumption. }
  clear Htr Hgr Hx.
  destruct (eq_str (optimizer args) "cpu_torch_adam");
  repeat match type of H with
         | (if ?c then _ else _) _ = _ => destruct c
         end;
    try (eapply Hbuilt; [| | |exact H]; try reflexivity;
         first [ left; discriminate | right; reflexivity | idtac ];
         first [ discriminate | intros ? Hx; now inversion Hx | reflexivity | idtac ];
         fail).
  all: try (apply ret_inv in H; destruct H as [H _]; discriminate H).
  all: try discriminate H.
  all: apply bind_inv_ok in H; destruct H as (cls & w3 & Ha & H).
  all: assert (Hcls : cls <> SM3 /\ mem w3 = mem w2) by (adam_class Ha).
  all: destruct Hcls as [Hcls Hmem].
  all: rewrite <- Hmem.
  all: eapply Hbuilt; [| | | exact H].
  all: first [ now left | discriminate | intros x Hx; now inversion Hx ].
Qed.

End OptimizerBlocks.

(** X12, on two configurations of the concrete instance: an optimizer
    block that is [None] with a type that no branch knows, and an Adam
    block whose ["params"] hold a weight decay. *)
Lemma get_optimizer_rejects_ill_formed_block_run :
  get_optimizer (E := Toy.externals)
    (Toy.config true 1 None false [] false "lamb" VNone) (Toy.start true true false)
  = (Raise (TypeError "'NoneType' object is not subscriptable"), Toy.start true true false) /\
  fst (get_optimizer (E := Toy.externals)
         (Toy.config true 1 None false [] false "Adam" Lab.decayed_block)
         (Toy.start true true false))
  = Raise (TypeError "got multiple values for keyword argument 'weight_decay'").
Proof.
  split.
  - destruct (get_optimizer_rejects_ill_formed_block (E := Toy.externals)
                (Toy.config true 1 None false [] false "lamb" VNone)
                (Toy.start true true false) eq_refl) as [Hnone _].
    apply Hnone. reflexivity.
  - destruct (get_optimizer_rejects_ill_formed_block (E := Toy.externals)
                (Toy.config true 1 None false [] false "Adam" Lab.decayed_block)
                (Toy.start true true false) eq_refl) as [_ Htwice].
    destruct (Htwice
                {[ "type" := VStr "Adam";
                   "params" := VDict {[ "lr" := VFloat 0.0006%float;
                                        "weight_decay" := VFloat 0.1%float ]} ]}
                {[ "lr" := VFloat 0.0006%float; "weight_decay" := VFloat 0.1%float ]}
                (VFloat 0.1%float))
      as (_ & Hadam & _).
    + reflexivity.
    + vm_compute. reflexivity.
    + vm_compute. reflexivity.
    + apply Hadam. reflexivity.
Defined.

(** X13, on the model of two parameters: the Adam optimizer is built on
    both, with the configured weight decay, and on the heap the parameter
    that had no [model_parallel] attribute has it afterwards, set to
    [False], while the attribute of the other one is as it was. *)
Lemma get_optimizer_builds_on_returned_groups_run :
  let res := get_optimizer (E := Lab.externals) Toy.pipeline Lab.start in
  (exists o,
     fst res = Ok (Some o, Some (opt_param_groups o)) /\
     opt_weight_decay o = Some 0.01%float /\
     map (fun g => map param_name (params g)) (opt_param_groups o)
     = [["0.word_embeddings.weight"; "2.attention.dense.weight"]]) /\
  map (fun p => (param_name p, model_parallel p)) (Lab.parameters (ext (mem (snd res))))
  = [("0.word_embeddings.weight", Some true); ("2.attention.dense.weight", Some false)].
Proof.
  intros res. subst res.
  destruct (get_optimizer (E := Lab.externals) Toy.pipeline Lab.start) as [r w'] eqn:Heq.
  assert (Hok : exists o groups, r = Ok (Some o, groups)).
  { apply (f_equal fst) in Heq. vm_compute in Heq. rewrite <- Heq.
    eexists. eexists. reflexivity. }
  destruct Hok as (o & groups & ->).
  destruct (get_optimizer_builds_on_returned_groups (E := Lab.externals) _ _ _ _ _ Heq)
    as (Hg & Ho & _ & Hwd & _ & _ & Hread & _).
  split.
  - exists o. simpl. split; [congruence|]. split.
    + rewrite Hwd. apply (f_equal fst) in Heq. vm_compute in Heq. inversion Heq. reflexivity.
    + rewrite Ho. vm_compute. reflexivity.
  - assert (Hagree : tagging_sets_attribute (E := Lab.externals))
      by (intros name h; reflexivity).
    specialize (Hread Hagree).
    change (get_params_for_weight_decay_optimization (mem w'))
      with [ {| params := Lab.parameters (ext (mem w'));
                group_weight_decay := 0.01%float |} ] in Hread.
    inversion Hread as [Hparams].
    exact (f_equal (map (fun p => (param_name p, model_parallel p))) Hparams).
Defined.

(** ** The set-up phase *)

Section SoftPrompt.
Context `{SE : SetupExternals}.

Lemma freeze_loop (Hfreeze : freeze_sets_flag) :
  forall l w u w',
    for_each l
      (fun p =>
         if contains "soft_embedding" (param_name p) then ret tt
         else run_ext (fun h => (Returned tt, freeze (param_name p) (ext h))))
      w = (Ok u, w') ->
    exists f : param -> param,
      named_parameters (mem w') = map f (named_parameters (mem w)) /\
      (forall p, param_name (f p) = param_name p) /\
      (forall p, requires_grad (f p) = true ->
         requires_grad p = true /\
         forall q, In q l -> contains "soft_embedding" (param_name q) = false ->
                   param_name q <> param_name p).
Proof.
  induction l as [|q l IH]; intros w u w' H; simpl in H.
  - apply ret_inv in H. destruct H as [_ <-]. exists (fun p => p).
    rewrite map_id. repeat split; [assumption|]. intros q [].
  - apply bind_inv_ok in H. destruct H as (u1 & w1 & Hq & H).
    apply IH in H. destruct H as (f & Hmap & Hname & Hflag).
    destruct (contains "soft_embedding" (param_name q)) eqn:Hc.
    + apply ret_inv in Hq. destruct Hq as [_ <-]. exists f.
      split; [exact Hmap|]. split; [exact Hname|].
      intros p Hp. destruct (Hflag p Hp) as [Hrg Hl]. split; [exact Hrg|].
      intros q' [<-|Hin] Hq'; [congruence | now apply Hl].
    + apply run_ext_inv in Hq. destruct Hq as (x & Hx & ->). inversion Hx; subst x.
      exists (fun p => f (if String.eqb (param_name q) (param_name p) then frozen p else p)).
      split; [|split].
      * rewrite Hmap. simpl. rewrite Hfreeze, map_map. reflexivity.
      * intros p. rewrite Hname. now destruct (String.eqb _ _).
      * intros p Hp. apply Hflag in Hp. destruct Hp as [Hrg Hl].
        destruct (String.eqb_spec (param_name q) (param_name p)) as [Heq|Hne];
          [discriminate Hrg|].
        split; [exact Hrg|].
        intros q' [<-|Hin] Hq'; [exact Hne | now apply Hl].
Qed.

(** X14: with soft prompt tuning enabled, once [get_model] has returned
    every parameter of the model that still requires a gradient has
    ["soft_embedding"] in its name, provided that setting
    [requires_grad = False] on a parameter changes that flag only, and that
    [to_sequential] (called without pipeline parallelism) keeps the
    parameters. *)
Theorem get_model_freezes_all_but_soft_prompt neox_args inference get_key_value d w u w' :
  freeze_sets_flag ->
  (is_pipe_parallel (core neox_args) = false -> to_sequential_keeps_parameters) ->
  soft_prompt_tuning neox_args = VDict d ->
  truthy (dict_get d "enabled" (VBool false)) = true ->
  get_model neox_args inference get_key_value w = (Ok u, w') ->
  Forall (fun p => requires_grad p = true ->
                   contains "soft_embedding" (param_name p) = true)
    (named_parameters (mem w')).
Proof.
  intros Hfreeze Hseq Hd Hen H. unfold get_model in H. rewrite Hd, Hen in H.
  apply bind_inv_ok in H. destruct H as (u1 & w1 & _ & H).
  apply bind_inv_ok in H. destruct H as (u2 & w2 & _ & H).
  apply bind_inv_ok in H. destruct H as (u3 & w3 & Hsoft & H).
  apply bind_inv_ok in Hsoft. destruct Hsoft as (layer & w4 & _ & Hsoft).
  apply bind_inv_ok in Hsoft. destruct Hsoft as (u5 & w5 & _ & Hsoft).
  apply bind_inv_ok in Hsoft. destruct Hsoft as (named & w6 & Hread & Hloop).
  apply read_inv in Hread. destruct Hread as [-> ->].
  apply (freeze_loop Hfreeze) in Hloop. destruct Hloop as (f & Hmap & Hname & Hflag).
  assert (Hw3 : Forall (fun p => requires_grad p = true ->
                                 contains "soft_embedding" (param_name p) = true)
                  (named_parameters (mem w3))).
  { rewrite Hmap. apply Forall_map. apply List.Forall_forall. intros p Hin Hp. simpl in *.
    rewrite Hname. destruct (Hflag p Hp) as [_ Hl].
    destruct (contains "soft_embedding" (param_name p)) eqn:Hc; [reflexivity|].
    now contradiction (Hl p Hin Hc). }
  destruct (is_pipe_parallel (core neox_args)).
  - apply ret_inv in H. destruct H as [_ <-]. exact Hw3.
  - apply run_ext_inv in H. destruct H as (x & Hx & ->).
    specialize (Hseq eq_refl (mem w3)). rewrite Hx in Hseq. simpl in *.
    rewrite Hseq. exact Hw3.
Qed.

End SoftPrompt.

(** X14, on the concrete instance: the soft prompt weight is the only
    parameter left trainable. *)
Lemma get_model_freezes_all_but_soft_prompt_run :
  let res := get_model (E := Lab.externals) (SE := Lab.setup)
               (Lab.run Toy.pipeline true false None (VDict {[ "enabled" := VBool true ]}))
               false true Lab.start in
  fst res = Ok tt /\
  map param_name (List.filter requires_grad (Lab.parameters (ext (mem (snd res)))))
  = ["1.soft_embedding_weight"] /\
  Forall (fun p => requires_grad p = true ->
                   contains "soft_embedding" (param_name p) = true)
    (Lab.parameters (ext (mem (snd res)))).
Proof.
  cbv zeta.
  assert (Heq : get_model (E := Lab.externals) (SE := Lab.setup)
                  (Lab.run Toy.pipeline true false None (VDict {[ "enabled" := VBool true ]}))
                  false true Lab.start
                = (Ok tt,
                   snd (get_model (E := Lab.externals) (SE := Lab.setup)
                          (Lab.run Toy.pipeline true false None
                             (VDict {[ "enabled" := VBool true ]}))
                          false true Lab.start)))
    by (vm_compute; reflexivity).
  split; [now rewrite Heq|]. split; [vm_compute; reflexivity|].
  apply (get_model_freezes_all_but_soft_prompt (E := Lab.externals) (SE := Lab.setup)
           _ _ _ {[ "enabled" := VBool true ]} _ _ _) in Heq.
  - exact Heq.
  - intros name h. reflexivity.
  - intros _ h. reflexivity.
  - reflexivity.
  - vm_compute. reflexivity.
Defined.

Section InitializeArguments.
Context `{SE : SetupExternals}.

(** When [get_optimizer] returns, it returns no optimizer exactly when
    optimizer loading is disabled or the type is [onebitadam]; parameter
    groups come without an optimizer only in the second case. *)
Lemma get_optimizer_cases args w o groups w' :
  get_optimizer args w = (Ok (o, groups), w') ->
  (no_load_optim args = true /\ o = None /\ groups = None) \/
  (no_load_optim args = false /\
   String.eqb (lower (optimizer_type args)) "onebitadam" = true /\
   o = None /\ groups <> None) \/
  (no_load_optim args = false /\
   String.eqb (lower (optimizer_type args)) "onebitadam" = false /\
   o <> None /\ groups <> None).
Proof.
  unfold get_optimizer. intros H.
  destruct (no_load_optim args).
  { apply ret_inv in H. destruct H as [H _]. inversion H. now left. }
  right.
  apply bind_inv_ok in H. destruct H as (gs & w1 & _ & H).
  apply bind_inv_ok in H. destruct H as (v & w2 & _ & H).
  apply bind_inv_ok in H. destruct H as (u & w3 & _ & H).
  apply bind_inv_ok in H. destruct H as (u' & w4 & _ & H).
  destruct (mem_str (lower (optimizer_type args)) ["cpu_adam"; "cpu_torch_adam"]) eqn:Hcpu.
  { right. invert_binds H. apply ret_inv in H. destruct H as [H _]. inversion H.
    repeat split; try discriminate.
    unfold mem_str in Hcpu. simpl in Hcpu.
    destruct (String.eqb_spec (lower (optimizer_type args)) "onebitadam") as [Heq|]; [|reflexivity].
    rewrite Heq in Hcpu. discriminate Hcpu. }
  destruct (String.eqb (lower (optimizer_type args)) "onebitadam") eqn:Hone.
  { left. apply ret_inv in H. destruct H as [H _]. inversion H.
    repeat split; discriminate. }
  right. repeat split; try reflexivity;
    repeat match type of H with
           | (if ?c then _ else _) _ = _ => destruct c
           end;
    try discriminate H;
    invert_binds H; apply ret_inv in H; destruct H as [H _]; inversion H; discriminate.
Qed.

Lemma get_learning_rate_scheduler_cases o args w s w' :
  get_learning_rate_scheduler o args w = (Ok s, w') ->
  (s = None <->
   no_load_optim args = true \/
   String.eqb (lower (optimizer_type args)) "onebitadam" = true) /\
  (forall sched, s = Some sched -> alr_optimizer sched = o).
Proof.
  unfold get_learning_rate_scheduler. intros H.
  destruct (no_load_optim args).
  { apply ret_inv in H. destruct H as [<- _]. split; [tauto | discriminate]. }
  destruct (String.eqb (lower (optimizer_type args)) "onebitadam").
  { invert_binds H. apply ret_inv in H. destruct H as [<- _]. split; [tauto | discriminate]. }
  invert_binds H. apply ret_inv in H. destruct H as [<- _]. split.
  - split; [discriminate | intros [Hx|Hx]; discriminate Hx].
  - intros sched Hs. inversion Hs. reflexivity.
Qed.

(** X15: what [setup_model_and_optimizer] hands to
    [deepspeed.initialize]: an optimizer exactly when it hands a
    scheduler, which then wraps that optimizer; none of the two exactly
    when optimizer loading is disabled or the type is [onebitadam];
    parameter groups ([model_parameters]) exactly for [onebitadam] with
    optimizer loading enabled, hence never together with an optimizer;
    [dist_init_required=False]; and [mpu] unless the run is pipeline
    parallel. *)
Theorem initialize_arguments_are_consistent neox_args inference get_key_value w ia w' :
  initialize_arguments neox_args inference get_key_value w = (Ok ia, w') ->
  let args := core neox_args in
  let onebit := String.eqb (lower (optimizer_type args)) "onebitadam" in
  (init_optimizer ia = None <-> init_lr_scheduler ia = None) /\
  (init_optimizer ia = None <-> no_load_optim args = true \/ onebit = true) /\
  (forall sched, init_lr_scheduler ia = Some sched ->
     alr_optimizer sched = init_optimizer ia) /\
  (init_model_parameters ia <> None <-> no_load_optim args = false /\ onebit = true) /\
  (init_optimizer ia <> None -> init_model_parameters ia = None) /\
  init_dist_init_required ia = false /\
  init_mpu ia = negb (is_pipe_parallel args).
Proof.
  intros H args onebit. subst args onebit. unfold initialize_arguments in H.
  apply bind_inv_ok in H. destruct H as (u & w1 & _ & H).
  apply bind_inv_ok in H. destruct H as ([o groups] & w2 & Ho & H).
  apply bind_inv_ok in H. destruct H as (s & w3 & Hs & H).
  apply ret_inv in H. destruct H as [<- _]. simpl.
  apply call_inv_ok in Ho. destruct Ho as [_ Ho].
  apply call_inv_ok in Hs. destruct Hs as [_ Hs].
  apply get_optimizer_cases in Ho. apply get_learning_rate_scheduler_cases in Hs.
  destruct Hs as [Hnone Hwrap].
  destruct Ho as [(Hl & -> & ->) | [(Hl & Hb & -> & Hg) | (Hl & Hb & Hsome & Hg)]];
    rewrite Hl in *; rewrite ?Hb in *.
  - assert (Hs : s = None) by (apply Hnone; now left). subst s.
    intuition (try congruence; try discriminate).
  - assert (Hs : s = None) by (apply Hnone; now right). subst s.
    destruct groups as [groups|]; [|now contradiction Hg].
    intuition (try congruence; try discriminate).
  - destruct o as [o|]; [|now contradiction Hsome].
    destruct s as [sched|].
    + pose proof (Hwrap sched eq_refl) as Hw.
      intuition (try congruence; try discriminate).
    + destruct Hnone as [Hx _]. destruct (Hx eq_refl) as [Hy|Hy]; discriminate Hy.
Qed.

End InitializeArguments.

(** X15, on the concrete instance with the type ["OneBitAdam"]: no
    optimizer and no scheduler, the parameter groups instead. *)
Lemma initialize_arguments_are_consistent_run :
  exists ia,
    fst (initialize_arguments (E := Lab.externals) (SE := Lab.setup)
           (Lab.run (Toy.retarget "OneBitAdam" 3 Toy.pipeline) true false None VNone)
           false true Lab.start) = Ok ia /\
    init_optimizer ia = None /\ init_lr_scheduler ia = None /\
    init_model_parameters ia <> None.
Proof.
  destruct (initialize_arguments (E := Lab.externals) (SE := Lab.setup)
              (Lab.run (Toy.retarget "OneBitAdam" 3 Toy.pipeline) true false None VNone)
              false true Lab.start) as [o w'] eqn:Heq.
  assert (Hok : exists ia, o = Ok ia).
  { apply (f_equal fst) in Heq. vm_compute in Heq. rewrite <- Heq. eexists. reflexivity. }
  destruct Hok as [ia ->]. exists ia. split; [reflexivity|].
  destruct (initialize_arguments_are_consistent (E := Lab.externals) (SE := Lab.setup)
              _ _ _ _ _ _ Heq) as (Hsched & Hopt & _ & Hparams & _).
  assert (Hnone : init_optimizer ia = None) by (apply Hopt; right; reflexivity).
  split; [exact Hnone|]. split; [now apply Hsched|].
  apply Hparams. split; reflexivity.
Defined.

(** ** The driver *)

Section Driver.
Context `{SE : SetupExternals}.

Lemma get_model_calls a inference gkv : runs (stamps setup_event) (get_model a inference gkv).
Proof. unfold get_model, print_rank_0. runs_structure. Qed.

Lemma get_optimizer_calls args : runs (stamps setup_event) (get_optimizer args).
Proof. unfold get_optimizer, construct, print_rank_0. runs_structure. Qed.

Lemma get_learning_rate_scheduler_calls o args :
  runs (stamps setup_event) (get_learning_rate_scheduler o args).
Proof. unfold get_learning_rate_scheduler, print_rank_0. runs_structure. Qed.

Lemma setup_model_and_optimizer_calls a inference gkv it :
  runs (stamps setup_event) (setup_model_and_optimizer a inference gkv it).
Proof.
  pose proof get_model_calls as Hgm.
  pose proof get_optimizer_calls as Hgo.
  pose proof get_learning_rate_scheduler_calls as Hgs.
  unfold setup_model_and_optimizer, initialize_arguments, print_rank_0. runs_structure.
Qed.

(** What [setup_model_and_optimizer] returns is [neox_args] with
    [iteration] set: to 0 without a checkpoint to load, to what
    [load_checkpoint] returned otherwise. *)
Lemma setup_model_and_optimizer_resumes a inference gkv it w a' w' :
  setup_model_and_optimizer a inference gkv it w = (Ok a', w') ->
  exists resume,
    a' = resume_at resume a /\
    (load a = None -> resume = 0) /\
    (load a <> None -> exists h x, load_checkpoint a inference it h = (Returned resume, x)).
Proof.
  unfold setup_model_and_optimizer. intros H.
  apply bind_inv_ok in H. destruct H as (ia & w1 & _ & H).
  apply bind_inv_ok in H. destruct H as (u1 & w2 & _ & H).
  apply bind_inv_ok in H. destruct H as (u2 & w3 & _ & H).
  apply bind_inv_ok in H. destruct H as (a1 & w4 & Hl & H).
  invert_binds H. apply ret_inv in H. destruct H as [<- _].
  destruct (load a) as [dir|].
  - invert_binds Hl. apply ret_inv in Hl. destruct Hl as [<- _].
    match goal with
    | Hr : run_ext (load_checkpoint _ _ _) ?wa = (Ok ?i, _) |- _ =>
        apply run_ext_inv in Hr; destruct Hr as (x' & Hr & _);
        exists i; split; [reflexivity|]; split; [discriminate|];
        intros _; now exists (mem wa), x'
    end.
  - apply ret_inv in Hl. destruct Hl as [<- _]. exists 0.
    split; [reflexivity|]. split; [reflexivity|]. intros Hx. now contradiction Hx.
Qed.

End Driver.

Section DriverCheckpoints.
Context `{SE : SetupExternals}.

(** X16: when [pretrain] returns, the checkpoints it has saved are those
    of the training loop (the multiples of [save_interval] after the
    resume iteration, when [save] is set) followed by one more at the final
    iteration when [save] is set and that iteration is not 0, so that a
    final iteration that is a multiple of [save_interval] is saved twice;
    without [do_train] or with [train_iters <= 0] the final iteration is 0
    and nothing is saved. The resume iteration is 0 when there is no
    checkpoint to load. *)
Theorem pretrain_checkpoints neox_args w u w' :
  pretrain neox_args w = (Ok u, w') ->
  exists resume,
    (load neox_args = None -> resume = 0) /\
    let args := core neox_args in
    let trains := (do_train neox_args && (0 <? train_iters args))%bool in
    let final := if trains then Z.max resume (train_iters args) else 0 in
    collect checkpoint_of (trace w')
    = (collect checkpoint_of (trace w) ++
       (if trains then
          List.filter
            (fun k => (truthy_str (save args) && interval_hit (save_interval args) k)%bool)
            (count_up resume (Z.to_nat (final - resume)))
        else []) ++
       (if (truthy_str (save args) && negb (final =? 0))%bool then [final] else []))%list.
Proof.
  unfold pretrain, print_rank_0. intros H.
  apply bind_inv_ok in H. destruct H as (u1 & w1 & H1 & H).
  apply bind_inv_ok in H. destruct H as (a' & w2 & H2 & H).
  apply call_inv_ok in H2. destruct H2 as [_ H2].
  destruct (setup_model_and_optimizer_resumes _ _ _ _ _ _ _ H2) as (resume & -> & Hres & _).
  exists resume. split; [exact Hres|].
  apply bind_inv_ok in H. destruct H as ([[tit vit] testit] & w3 & H3 & H).
  apply bind_inv_ok in H. destruct H as (u4 & w4 & H4 & H).
  apply bind_inv_ok in H. destruct H as (u5 & w5 & H5 & H).
  apply bind_inv_ok in H. destruct H as (n & w6 & H6 & H).
  apply bind_inv_ok in H. destruct H as (u7 & w7 & H7 & H).
  apply bind_inv_ok in H. destruct H as (u8 & w8 & H8 & H9).
  cbn [resume_at core do_train do_test load] in *.
  change (train_iters (set_iteration resume (core neox_args)))
    with (train_iters (core neox_args)) in *.
  change (save (set_iteration resume (core neox_args))) with (save (core neox_args)) in *.
  change (do_valid (set_iteration resume (core neox_args)))
    with (do_valid (core neox_args)) in *.
  apply save_step_checkpoints in H8.
  assert (Hsilent : forall A (m : M A) wa (a : A) wb,
             runs (stamps (fun _ ev => checkpoint_of ev = None)) m ->
             m wa = (Ok a, wb) ->
             collect checkpoint_of (trace wb) = collect checkpoint_of (trace wa)).
  { intros A m wa a wb Hm Heq.
    exact (proj1 (stamps_collect _ checkpoint_of m wa (Ok a) wb (fun _ _ Hn => Hn) Hm Heq)). }
  pose proof (fun it i verbose =>
                stamps_mono (report_event i) (fun _ ev => checkpoint_of ev = None) _
                  (report_event_no_checkpoint i)
                  (evaluate_and_print_results_calls (set_iteration resume (core neox_args))
                     it i verbose)) as Hev.
  apply Hsilent in H1; [|solve [runs_structure]].
  apply Hsilent in H2;
    [|eapply stamps_mono; [|apply setup_model_and_optimizer_calls];
      intros g ev; destruct ev; simpl; tauto].
  apply Hsilent in H3; [|solve [runs_structure]].
  apply Hsilent in H4; [|solve [runs_structure]].
  apply Hsilent in H5; [|solve [runs_structure]].
  apply Hsilent in H7; [|solve [runs_structure]].
  apply Hsilent in H9; [|solve [runs_structure]].
  cbv zeta.
  destruct (do_train neox_args && (0 <? train_iters (core neox_args)))%bool.
  - apply call_inv_ok in H6. destruct H6 as [_ H6].
    pose proof (train_returns _ _ _ _ _ _ H6) as (Hn & _).
    apply train_checkpoints in H6.
    change (iteration (set_iteration resume (core neox_args))) with resume in *.
    change (train_iters (set_iteration resume (core neox_args)))
      with (train_iters (core neox_args)) in *.
    change (save (set_iteration resume (core neox_args))) with (save (core neox_args)) in *.
    change (save_interval (set_iteration resume (core neox_args)))
      with (save_interval (core neox_args)) in *.
    rewrite <- Hn. rewrite H9, H8, H7, H6, H5, H4, H3, H2, H1.
    now rewrite <- !app_assoc.
  - apply ret_inv in H6. destruct H6 as [<- <-].
    rewrite H9, H8, H7, H5, H4, H3, H2, H1. reflexivity.
Qed.

End DriverCheckpoints.

(** X16, on the concrete instance: four iterations from scratch with a
    checkpoint every second iteration save iterations 2 and 4, and 4 once
    more at the end. *)
Lemma pretrain_checkpoints_run :
  let res := pretrain (E := Lab.externals) (SE := Lab.setup)
               (Lab.run Lab.four_iterations true true None VNone) Lab.start in
  fst res = Ok tt /\ collect checkpoint_of (trace (snd res)) = [2; 4; 4].
Proof.
  cbv zeta.
  assert (Heq : pretrain (E := Lab.externals) (SE := Lab.setup)
                  (Lab.run Lab.four_iterations true true None VNone) Lab.start
                = (Ok tt,
                   snd (pretrain (E := Lab.externals) (SE := Lab.setup)
                          (Lab.run Lab.four_iterations true true None VNone) Lab.start)))
    by (vm_compute; reflexivity).
  split; [now rewrite Heq|].
  destruct (pretrain_checkpoints (E := Lab.externals) (SE := Lab.setup) _ _ _ _ Heq)
    as (resume & Hres & Hsaved).
  rewrite (Hres eq_refl) in Hsaved. rewrite Hsaved. vm_compute. reflexivity.
Defined.

Section DriverOutcomes.
Context `{SE : SetupExternals}.

Lemma setup_event_report i g ev : setup_event g ev -> report_event i g ev.
Proof. destruct ev; simpl; tauto. Qed.

(** The harness is called for the configured tasks only. *)
Lemma evaluate_harness_tasks args it verbose :
  runs (stamps (harness_tasks args)) (evaluate args forward_step_as_fn it verbose).
Proof.
  assert (Hloop : forall it',
             runs (stamps (harness_tasks args))
               (with_no_grad
                  (evaluate_loop (Z.to_nat (eval_iters args)) args forward_step_as_fn
                     it' verbose 0 []))).
  { intros it'.
    eapply stamps_with_no_grad; [|apply evaluate_loop_calls; rewrite Z.sub_0_r; lia].
    intros g ev [H | [-> | ->]]; [|exact I ..]. destruct ev; simpl in *; tauto. }
  assert (Hharness : forall results : gmap string value,
             runs (stamps (harness_tasks args))
               (match eval_tasks args with
                | [] => ret results
                | tasks =>
                    let* g := read grad_enabled in
                    emit (EvEvalHarness g tasks) ;;
                    let* harness := run_ext (run_eval_harness tasks) in
                    ret (harness ∪ results)
                end)).
  { intros results. destruct (eval_tasks args) as [|task tasks] eqn:Htasks.
    - apply runs_ret. typeclasses eauto.
    - apply stamps_stamp.
      + intros g. simpl. rewrite Htasks. split; [reflexivity | discriminate].
      + runs_structure. }
  unfold evaluate, print_rank_0.
  repeat first
    [ apply Hharness
    | apply Hloop
    | apply runs_bind; [ typeclasses eauto | | intros ]
    | apply stamps_emit; intros; exact I
    | apply stamps_set_training
    | apply stamps_run_ext
    | apply runs_ret; typeclasses eauto
    | apply runs_raise; typeclasses eauto
    | apply runs_lift_answer; typeclasses eauto
    | match goal with
      | |- runs _ (if ?b then _ else _) => destruct b
      | |- runs _ (match ?x with Some _ => _ | None => _ end) => destruct x
      end ].
Qed.

Lemma evaluate_and_print_results_harness_tasks args it i verbose :
  runs (stamps (harness_tasks args))
    (evaluate_and_print_results args forward_step_as_fn it i verbose).
Proof.
  pose proof (evaluate_harness_tasks args) as Hev.
  unfold evaluate_and_print_results, print_rank_0. runs_structure.
Qed.

(** The calls of a run of [pretrain] that does not train: those of the
    set-up, and those of the evaluations, all for iteration 0. *)
Lemma pretrain_idle_calls (P : bool -> event -> Prop) neox_args :
  do_train neox_args = false \/ train_iters (core neox_args) <= 0 ->
  (forall g ev, setup_event g ev -> P g ev) ->
  (forall resume it verbose,
     runs (stamps P)
       (evaluate_and_print_results (core (resume_at resume neox_args)) forward_step_as_fn
          it 0 verbose)) ->
  runs (stamps P) (pretrain neox_args).
Proof.
  intros Hidle Hsetup Hev. unfold pretrain, print_rank_0.
  apply runs_bind; [typeclasses eauto | apply stamps_run_ext | intros _].
  apply (runs_bind_returning _ (fun a' => exists resume, a' = resume_at resume neox_args)).
  - apply runs_call; [typeclasses eauto|].
    eapply stamps_mono; [|apply setup_model_and_optimizer_calls]. exact Hsetup.
  - intros w0 a' w1 Hc. apply call_inv_ok in Hc. destruct Hc as [_ Hc].
    apply setup_model_and_optimizer_resumes in Hc. destruct Hc as (resume & -> & _).
    now exists resume.
  - intros a' [resume ->].
    assert (Hno : (do_train (resume_at resume neox_args)
                   && (0 <? train_iters (core (resume_at resume neox_args))))%bool = false).
    { cbn [resume_at do_train core].
      change (train_iters (set_iteration resume (core neox_args)))
        with (train_iters (core neox_args)).
      destruct Hidle as [-> | Hle]; [reflexivity|].
      apply andb_false_iff. right. apply Z.ltb_ge. exact Hle. }
    rewrite Hno.
    specialize (Hev resume).
    apply runs_bind; [typeclasses eauto | apply stamps_run_ext | intros [[tit vit] testit]].
    apply runs_bind;
      [typeclasses eauto | apply stamps_emit; intros g; now apply Hsetup | intros _].
    apply runs_bind; [typeclasses eauto | apply stamps_run_ext | intros _].
    apply (runs_bind_returning _ (fun n => n = 0)).
    + apply runs_ret. typeclasses eauto.
    + intros w0 n w1 Hr. apply ret_inv in Hr. now destruct Hr.
    + intros n ->. change (0 =? 0) with true. cbn [negb]. rewrite andb_false_r.
      runs_structure.
Qed.

(** X17: without [do_train], or with [train_iters <= 0], [pretrain]
    only sets up and evaluates, whatever its outcome: every metric is
    logged at iteration 0 under [validation/] (those of the test data
    too); every forward pass of the evaluation loops runs with the
    autograd switch off; the evaluation harness is called only when
    [eval_tasks] is not empty, for these tasks and under the switch that
    [pretrain] was called with, so that without [eval_tasks] every call
    that runs the model runs with the switch off; and there is no training
    step, no [training_log] call and no checkpoint. *)
Theorem pretrain_without_training neox_args w :
  do_train neox_args = false \/ train_iters (core neox_args) <= 0 ->
  let res := pretrain neox_args w in
  exists evs,
    trace (snd res) = (trace w ++ evs)%list /\
    Forall (report_event 0 (grad_enabled (mem w))) evs /\
    (forall key j, In (EvTbWandbLog key j) evs ->
       j = 0 /\ String.prefix "validation/" key = true) /\
    (forall g, In (EvModelCall g) evs \/ In (EvEvalBatch g) evs -> g = false) /\
    (forall g tasks, In (EvEvalHarness g tasks) evs ->
       g = grad_enabled (mem w) /\ tasks = eval_tasks (core neox_args) /\ tasks <> []) /\
    (eval_tasks (core neox_args) = [] ->
     Forall (fun g => g = false) (collect runs_model evs)) /\
    List.filter is_update evs = [] /\ logged evs = [] /\ collect checkpoint_of evs = [].
Proof.
  intros Hidle res. subst res.
  set (P := fun g ev => report_event 0 g ev /\ harness_tasks (core neox_args) g ev).
  assert (Hruns : runs (stamps P) (pretrain neox_args)).
  { apply pretrain_idle_calls; [exact Hidle | |].
    - intros g ev Hs. split; [now apply setup_event_report | now destruct ev].
    - intros resume it verbose.
      pose proof (evaluate_and_print_results_calls
                    (core (resume_at resume neox_args)) it 0 verbose) as Hr.
      pose proof (evaluate_and_print_results_harness_tasks
                    (core (resume_at resume neox_args)) it 0 verbose) as Hh.
      intros w0. destruct (Hr w0) as [Hf [Hg (evs & Ht & Hevs)]].
      destruct (Hh w0) as [_ [_ (evs' & Ht' & Hevs')]].
      rewrite Ht in Ht'. apply app_inv_head in Ht'. subst evs'.
      split; [exact Hf|]. split; [exact Hg|]. exists evs. split; [exact Ht|].
      apply Forall_forall. intros ev Hin. rewrite Forall_forall in Hevs, Hevs'.
      split; [now apply Hevs | now apply Hevs']. }
  destruct (Hruns w) as [_ [_ (evs & Ht & Hevs)]].
  assert (Hrep : Forall (report_event 0 (grad_enabled (mem w))) evs)
    by (eapply Forall_impl; [exact Hevs | intros ev [Hr _]; exact Hr]).
  exists evs. split; [exact Ht|]. split; [exact Hrep|].
  rewrite List.Forall_forall in Hevs.
  split; [|split; [|split; [|split; [|split; [|split]]]]].
  - intros key j Hin. destruct (Hevs _ Hin) as [Hr _]. exact Hr.
  - intros g [Hin | Hin]; destruct (Hevs _ Hin) as [Hr _]; exact Hr.
  - intros g tasks Hin. destruct (Hevs _ Hin) as [Hr [Htasks Hsome]].
    split; [exact Hr|]. split; assumption.
  - intros Hnone. clear Ht Hrep.
    induction evs as [|ev evs IH]; [constructor|].
    assert (Hrest : Forall (fun g => g = false) (collect runs_model evs))
      by (apply IH; intros ev' Hin; apply Hevs; now right).
    destruct (Hevs ev (or_introl eq_refl)) as [Hr Hh].
    destruct ev; simpl in *; try exact Hrest.
    + constructor; [exact Hr | exact Hrest].
    + constructor; [exact Hr | exact Hrest].
    + destruct Hh as [Htasks Hsome]. rewrite Hnone in Htasks. now contradiction Hsome.
  - clear Ht Hevs. induction Hrep as [|ev evs Hev _ IH]; [reflexivity|].
    destruct ev; simpl in *; try exact IH; contradiction.
  - apply (logged_quiet (grad_enabled (mem w))).
    eapply Forall_impl; [exact Hrep|]. intros ev. destruct ev; simpl; tauto.
  - apply collect_none. eapply Forall_impl; [exact Hrep|].
    intros ev. apply report_event_no_checkpoint.
Qed.

(** X18: without pipeline parallelism, with at least one accumulation
    step, [do_train] set, at least one iteration to train and no checkpoint
    to load, [pretrain] never returns: it ends in an exception in the
    set-up or in the first training step, before any backward pass,
    [model.step()], [training_log] call, checkpoint or evaluation. *)
Theorem pretrain_manual_mode_stalls neox_args w :
  is_pipe_parallel (core neox_args) = false ->
  1 <= gradient_accumulation_steps (core neox_args) ->
  do_train neox_args = true ->
  0 < train_iters (core neox_args) ->
  load neox_args = None ->
  let res := pretrain neox_args w in
  (exists e, fst res = Raise e) /\
  exists evs,
    trace (snd res) = (trace w ++ evs)%list /\
    Forall (fun ev => stalled_event (grad_enabled (mem w)) ev \/
                      setup_event (grad_enabled (mem w)) ev) evs /\
    List.filter is_update evs = [] /\ logged evs = [] /\
    collect checkpoint_of evs = [] /\ collect metric_of evs = [].
Proof.
  intros Hpipe Hgas Hdo Hiters Hload res. subst res.
  set (P := fun g ev => stalled_event g ev \/ setup_event g ev).
  assert (Hsetup : forall w0 a' w1,
             call SetupSig.setup_model_and_optimizer
               ["neox_args"; "inference"; "get_key_value"]
               (setup_model_and_optimizer neox_args false true None) w0 = (Ok a', w1) ->
             a' = resume_at 0 neox_args).
  { intros w0 a' w1 Hc. apply call_inv_ok in Hc. destruct Hc as [_ Hc].
    apply setup_model_and_optimizer_resumes in Hc. destruct Hc as (resume & -> & Hres & _).
    now rewrite (Hres Hload). }
  assert (Htrain : forall tit vit,
             runs (stamps P) (train (core (resume_at 0 neox_args)) tit vit) /\
             never_returns (train (core (resume_at 0 neox_args)) tit vit)).
  { intros tit vit.
    destruct (train_stalled (core (resume_at 0 neox_args)) Hpipe tit vit Hgas Hiters)
      as [Hr Hn].
    split; [|exact Hn]. eapply stamps_mono; [|exact Hr]. intros g ev Hs. now left. }
  assert (Hprint : forall text, runs (stamps P) (emit (EvPrint text))).
  { intros text. apply stamps_emit. intros g. right. exact I. }
  assert (Hruns : runs (stamps P) (pretrain neox_args) /\ never_returns (pretrain neox_args)).
  { unfold pretrain, print_rank_0. split.
    - apply runs_bind; [typeclasses eauto | apply stamps_run_ext | intros _].
      apply (runs_bind_returning _ (fun a' => a' = resume_at 0 neox_args)).
      + apply runs_call; [typeclasses eauto|].
        eapply stamps_mono; [|apply setup_model_and_optimizer_calls].
        intros g ev Hs. now right.
      + exact Hsetup.
      + intros a' ->. cbn [resume_at core do_train do_test load].
        change (train_iters (set_iteration 0 (core neox_args)))
          with (train_iters (core neox_args)).
        rewrite Hdo. apply Z.ltb_lt in Hiters. rewrite Hiters. simpl andb. cbv iota.
        apply runs_bind; [typeclasses eauto | apply stamps_run_ext | intros [[tit vit] testit]].
        apply runs_bind; [typeclasses eauto | apply Hprint | intros _].
        apply runs_bind; [typeclasses eauto | apply stamps_run_ext | intros _].
        apply runs_bind_never_returns.
        * apply runs_call; [typeclasses eauto|]. apply Htrain.
        * apply never_returns_call. apply Htrain.
    - apply never_returns_bind_r. intros _.
      apply (never_returns_bind_returning (fun a' => a' = resume_at 0 neox_args));
        [exact Hsetup|].
      intros a' ->. cbn [resume_at core do_train do_test load].
      change (train_iters (set_iteration 0 (core neox_args)))
        with (train_iters (core neox_args)).
      rewrite Hdo. apply Z.ltb_lt in Hiters. rewrite Hiters. simpl andb. cbv iota.
      apply never_returns_bind_r. intros [[tit vit] testit].
      apply never_returns_bind_r. intros _.
      apply never_returns_bind_r. intros _.
      apply never_returns_bind_l. apply never_returns_call. apply Htrain. }
  destruct Hruns as [Hruns Hnever].
  destruct (Hruns w) as [Hfuel [_ (evs & Ht & Hevs)]].
  split.
  - destruct (pretrain neox_args w) as [[n|e|] w'] eqn:Heq.
    + now apply Hnever in Heq.
    + now exists e.
    + now contradiction Hfuel.
  - exists evs. split; [exact Ht|]. split; [exact Hevs|].
    clear Ht. split; [|split; [|split]];
      (induction Hevs as [|ev evs [Hs|Hs] _ IH];
       [ reflexivity
       | destruct ev; simpl in *; try exact IH; contradiction
       | destruct ev; simpl in *; try exact IH; contradiction ]).
Qed.

End DriverOutcomes.

(** X17, on the concrete instance without [do_train] and without
    harness tasks: validation and test metrics all at iteration 0, every
    call that runs the model with the switch off, nothing saved. *)
Lemma pretrain_without_training_run :
  let res := pretrain (E := Lab.externals) (SE := Lab.setup)
               (Lab.run Lab.four_iterations false true None VNone) Lab.start in
  map snd (collect metric_of (trace (snd res))) = [0; 0; 0; 0] /\
  Forall (fun g => g = false) (collect runs_model (trace (snd res))) /\
  length (collect runs_model (trace (snd res))) = 4%nat /\
  collect checkpoint_of (trace (snd res)) = [].
Proof.
  cbv zeta.
  destruct (pretrain_without_training (E := Lab.externals) (SE := Lab.setup)
              (Lab.run Lab.four_iterations false true None VNone) Lab.start
              (or_introl eq_refl)) as (evs & Ht & _ & _ & _ & _ & Hoff & _ & _ & Hsaved).
  split; [vm_compute; reflexivity|].
  split; [rewrite Ht; exact (Hoff eq_refl)|].
  split; [vm_compute; reflexivity|].
  rewrite Ht. exact Hsaved.
Defined.

(** X18, on the concrete instance in manual mode. *)
Lemma pretrain_manual_mode_stalls_run :
  let res := pretrain (E := Lab.externals) (SE := Lab.setup)
               (Lab.run (Toy.manual 1) true false None VNone) Lab.start in
  (exists e, fst res = Raise e) /\ logged (trace (snd res)) = [].
Proof.
  cbv zeta.
  destruct (pretrain_manual_mode_stalls (E := Lab.externals) (SE := Lab.setup)
              (Lab.run (Toy.manual 1) true false None VNone) Lab.start)
    as [Hraise (evs & Ht & _ & _ & Hlog & _)];
    [reflexivity | simpl; lia | reflexivity | simpl; lia | reflexivity |].
  split; [exact Hraise|]. rewrite Ht. exact Hlog.
Defined.

(** ** The values that a report can print *)

Section Formats.
Context `{E : Externals}.

Lemma format_6E_number v : format_6E v = Ok tt <-> is_number v.
Proof.
  destruct v; simpl; try (split; [discriminate | tauto]); try tauto.
  destruct (float_of_int z) as [x|e|] eqn:Hz.
  - split; [intros _; now exists x | reflexivity].
  - split; [discriminate | intros [x Hx]; discriminate Hx].
  - now apply float_of_int_in_budget in Hz.
Qed.

(** A loop that returns has run its body to the end on every element. *)
Lemma for_each_inv {A} (body : A -> M unit) :
  forall l w u w',
    for_each l body w = (Ok u, w') ->
    forall x, In x l -> exists wa ua wb, body x wa = (Ok ua, wb).
Proof.
  induction l as [|y l IH]; intros w u w' H x Hin; [contradiction|].
  simpl in H. apply bind_inv_ok in H. destruct H as (uy & w1 & Hy & H).
  destruct Hin as [<- | Hin].
  - now exists w, uy, w1.
  - exact (IH _ _ _ H x Hin).
Qed.

Lemma log_metric_formats key v i w u w' :
  (lift (format_6E v) ;; emit (EvTbWandbLog key i) ;; run_ext (tb_wandb_log key v i)) w
  = (Ok u, w') ->
  is_number v.
Proof.
  intros H. apply bind_inv_ok in H. destruct H as ([] & w1 & Hl & _).
  unfold lift in Hl. inversion Hl as [[Hf Hw]]. now apply format_6E_number.
Qed.

(** X19: [evaluate_and_print_results] formats every value of the
    results with [:.6E] before it logs it, so it returns only when every
    entry of the results of [evaluate] is a number, or a dict of numbers:
    an entry that is a string, [None] or a list, and a dict nested in a
    dict, make it raise. *)
Theorem evaluate_and_print_results_formats args it i verbose w u w' :
  evaluate_and_print_results args forward_step_as_fn it i verbose w = (Ok u, w') ->
  exists results w1,
    evaluate args forward_step_as_fn it verbose w = (Ok results, w1) /\
    forall k v, results !! k = Some v ->
      match v with
      | VDict d => forall k2 v2, d !! k2 = Some v2 -> is_number v2
      | _ => is_number v
      end.
Proof.
  unfold evaluate_and_print_results, print_rank_0. intros H.
  apply bind_inv_ok in H. destruct H as (results & w1 & Hc & H).
  apply call_inv_ok in Hc. destruct Hc as [_ Hc].
  exists results, w1. split; [exact Hc|].
  apply bind_inv_ok in H. destruct H as (u1 & w2 & Hloop & _).
  intros k v Hk.
  apply elem_of_map_to_list, list_elem_of_In in Hk.
  destruct (for_each_inv _ _ _ _ _ Hloop (k, v) Hk) as (wa & ua & wb & Hbody).
  simpl in Hbody.
  destruct v; try exact (log_metric_formats _ _ _ _ _ _ Hbody).
  intros k2 v2 Hk2.
  apply elem_of_map_to_list, list_elem_of_In in Hk2.
  destruct (for_each_inv _ _ _ _ _ Hbody (k2, v2) Hk2) as (wc & uc & wd & Hinner).
  exact (log_metric_formats _ _ _ _ _ _ Hinner).
Qed.

End Formats.

(** X19, on the concrete instance with a harness task: the harness
    answers with a dict of numbers, which the report prints. *)
Lemma evaluate_and_print_results_formats_run :
  let args := Toy.config true 1 None false ["lambada"] false "Adam" Toy.adam_block in
  exists results w1,
    evaluate (E := Toy.externals) args forward_step_as_fn (Some tt) false
      (Toy.start true true false) = (Ok results, w1) /\
    results !! "lambada" = Some (VDict {[ "acc" := VFloat 0.5%float ]}) /\
    is_number (VFloat 0.5%float).
Proof.
  intros args.
  assert (Hok : exists u,
             fst (evaluate_and_print_results (E := Toy.externals) args forward_step_as_fn
                    (Some tt) 0 false (Toy.start true true false)) = Ok u)
    by (vm_compute; eexists; reflexivity).
  destruct Hok as [u Hok].
  destruct (evaluate_and_print_results (E := Toy.externals) args forward_step_as_fn
              (Some tt) 0 false (Toy.start true true false)) as [o w'] eqn:Heq.
  simpl in Hok. subst o.
  destruct (evaluate_and_print_results_formats (E := Toy.externals) _ _ _ _ _ _ _ Heq)
    as (results & w1 & Hev & Hnum).
  exists results, w1. split; [exact Hev|].
  assert (Hl : results !! "lambada" = Some (VDict {[ "acc" := VFloat 0.5%float ]})).
  { apply (f_equal fst) in Hev. vm_compute in Hev. inversion Hev. vm_compute. reflexivity. }
  split; [exact Hl|].
  apply (Hnum "lambada" _ Hl "acc"). vm_compute. reflexivity.
Defined.
